(** * Snapshot and diff engine of the WindSurf memory tracker ([ultis.py])

    A shallow embedding of the text utilities of [ultis.py]: content hashing
    and compression, unified-diff generation and replay, the significance
    classifier, the line-metrics scanner, the code-smell detector and the
    snapshot builder and comparer, followed by the properties established
    about them.

    Conventions.
    - A Python [str] is a list of Unicode code points ([N], at most 0x10FFFF);
      [bytes] is a list of octets ([N] below 256).
    - Python integers are [Z]; list indices follow Python's rules, negative
      indices included.
    - A call that can raise returns a [result]; the error names the exception.
    - Library code the module calls ([difflib], [re], [hashlib.md5], the
      [utf-8] codec, [str] methods, [os.path], integer and float arithmetic)
      is embedded from its reference behaviour; [zlib], the Unicode character
      database, the flavour of [os.path] and the drives of [ntpath] are
      parameters. *)

From Stdlib Require Import ZArith NArith Lia List Bool String Ascii.
From Stdlib Require Import Floats.
From stdpp Require Import base option list gmap strings sorting.

Open Scope N_scope.

(** ** Results of fallible calls *)

Inductive exn : Type :=
| UnicodeEncodeError
| UnicodeDecodeError
| ZlibError
| IndexError
| OverflowError
| ValueError.

Inductive result (A : Type) : Type :=
| Ok (a : A)
| Raise (e : exn).
Arguments Ok {A} a.
Arguments Raise {A} e.

#[global] Instance result_ret : MRet result := fun A a => Ok a.
#[global] Instance result_bind : MBind result := fun A B f r =>
  match r with Ok a => f a | Raise e => Raise e end.

Definition is_ok {A} (r : result A) : bool :=
  match r with Ok _ => true | Raise _ => false end.

(** ** Strings and bytes *)

Definition char := N.
Definition str := list N.
Definition bytes := list N.

(** The largest code point a [str] can hold. *)
Definition max_code_point : N := 0x10FFFF.

Definition is_code_point (c : N) : bool := c <=? max_code_point.

(** Lone surrogates are code points of a [str], and no Unicode scalar values. *)
Definition is_surrogate (c : N) : bool := (0xD800 <=? c) && (c <=? 0xDFFF).

Definition is_scalar (c : N) : bool := is_code_point c && negb (is_surrogate c).

Definition encodable (s : str) : Prop := Forall (fun c => is_scalar c = true) s.

Module Utf8.

(** [str.encode('utf-8')], error handler [strict]. *)

Definition encode_char (c : N) : result bytes :=
  if c <? 0x80 then Ok [c]
  else if c <? 0x800 then Ok [0xC0 + c / 64; 0x80 + c mod 64]
  else if c <? 0x10000 then
    if is_surrogate c then Raise UnicodeEncodeError
    else Ok [0xE0 + c / 4096; 0x80 + (c / 64) mod 64; 0x80 + c mod 64]
  else if c <=? max_code_point then
    Ok [0xF0 + c / 262144; 0x80 + (c / 4096) mod 64;
        0x80 + (c / 64) mod 64; 0x80 + c mod 64]
  else Raise UnicodeEncodeError.

Fixpoint encode (s : str) : result bytes :=
  match s with
  | [] => Ok []
  | c :: s' =>
      b ← encode_char c;
      bs ← encode s';
      Ok (b ++ bs)
  end.

(** [bytes.decode('utf-8')], error handler [strict]: shortest forms only, no
    surrogates, nothing above U+10FFFF. *)

Definition is_cont (b : N) : bool := (0x80 <=? b) && (b <=? 0xBF).

Definition in_range (lo hi b : N) : bool := (lo <=? b) && (b <=? hi).

Definition cont (b : N) : N := b - 0x80.

Fixpoint decode (bs : bytes) : result str :=
  match bs with
  | [] => Ok []
  | b0 :: t0 =>
      if b0 <? 0x80 then
        s ← decode t0; Ok (b0 :: s)
      else if in_range 0xC2 0xDF b0 then
        match t0 with
        | b1 :: t1 =>
            if is_cont b1 then
              s ← decode t1; Ok (((b0 - 0xC0) * 64 + cont b1) :: s)
            else Raise UnicodeDecodeError
        | _ => Raise UnicodeDecodeError
        end
      else if in_range 0xE0 0xEF b0 then
        match t0 with
        | b1 :: b2 :: t2 =>
            let lo := if b0 =? 0xE0 then 0xA0 else 0x80 in
            let hi := if b0 =? 0xED then 0x9F else 0xBF in
            if in_range lo hi b1 && is_cont b2 then
              s ← decode t2;
              Ok (((b0 - 0xE0) * 4096 + cont b1 * 64 + cont b2) :: s)
            else Raise UnicodeDecodeError
        | _ => Raise UnicodeDecodeError
        end
      else if in_range 0xF0 0xF4 b0 then
        match t0 with
        | b1 :: b2 :: b3 :: t3 =>
            let lo := if b0 =? 0xF0 then 0x90 else 0x80 in
            let hi := if b0 =? 0xF4 then 0x8F else 0xBF in
            if in_range lo hi b1 && is_cont b2 && is_cont b3 then
              s ← decode t3;
              Ok (((b0 - 0xF0) * 262144 + cont b1 * 4096 + cont b2 * 64 + cont b3) :: s)
            else Raise UnicodeDecodeError
        | _ => Raise UnicodeDecodeError
        end
      else Raise UnicodeDecodeError
  end.

End Utf8.

(** String literals of this file are written in UTF-8 and read back as code
    points. *)
Definition lit (s : string) : str :=
  match Utf8.decode (map N_of_ascii (list_ascii_of_string s)) with
  | Ok l => l
  | Raise _ => []
  end.

(** ** The Unicode character database

    The tables of CPython's [unicodedata] for code points above ASCII are
    parameters of the development; ASCII is classified here. *)

Class UnicodeDB := {
  (** [str.isalnum] of a code point of 128 or more *)
  uni_alnum : N -> bool;
  (** the digit value of a decimal digit (category Nd) of 128 or more *)
  uni_decimal : N -> option N;
  (** the upper-case and lower-case mappings of a code point of 128 or more
      ([_PyUnicode_ToUpperFull], [_PyUnicode_ToLowerFull]) *)
  uni_upper : N -> str;
  uni_lower : N -> str;
  (** the properties [Cased] and [Case_Ignorable] of a code point of 128 or
      more, which [str.lower] reads around a capital sigma *)
  uni_cased : N -> bool;
  uni_case_ignorable : N -> bool;
}.

(** A database in which no code point above ASCII has any property. *)
Definition ascii_db : UnicodeDB :=
  {| uni_alnum := fun _ => false;
     uni_decimal := fun _ => None;
     uni_upper := fun c => [c];
     uni_lower := fun c => [c];
     uni_cased := fun _ => false;
     uni_case_ignorable := fun _ => false |}.

Module PyStr.

(** [Py_UNICODE_ISSPACE]: what [str.strip], [str.isspace] and the regular
    expression class [\s] call whitespace. *)
Definition isspace (c : N) : bool :=
  ((0x09 <=? c) && (c <=? 0x0D)) || ((0x1C <=? c) && (c <=? 0x20))
  || (c =? 0x85) || (c =? 0xA0) || (c =? 0x1680)
  || ((0x2000 <=? c) && (c <=? 0x200A))
  || (c =? 0x2028) || (c =? 0x2029) || (c =? 0x202F) || (c =? 0x205F)
  || (c =? 0x3000).

(** The line boundaries of [str.splitlines]. *)
Definition is_linebreak (c : N) : bool :=
  ((0x0A <=? c) && (c <=? 0x0D)) || ((0x1C <=? c) && (c <=? 0x1E))
  || (c =? 0x85) || (c =? 0x2028) || (c =? 0x2029).

(** [str.splitlines()]: the lines without their terminators; [\r\n] is one
    terminator; no final empty line after a trailing terminator. [cur] is the
    line being read, reversed. *)
Fixpoint splitlines_from (cur : str) (started : bool) (s : str) : list str :=
  match s with
  | [] => if started then [rev cur] else []
  | c :: s' =>
      if is_linebreak c then
        match s' with
        | d :: s'' =>
            if (c =? 0x0D) && (d =? 0x0A)
            then rev cur :: splitlines_from [] false s''
            else rev cur :: splitlines_from [] false s'
        | [] => [rev cur]
        end
      else splitlines_from (c :: cur) true s'
  end.

Definition splitlines (s : str) : list str := splitlines_from [] false s.

Fixpoint lstrip (s : str) : str :=
  match s with
  | c :: s' => if isspace c then lstrip s' else s
  | [] => []
  end.

Definition rstrip (s : str) : str := rev (lstrip (rev s)).

Definition strip (s : str) : str := rstrip (lstrip s).

Fixpoint startswith (s p : str) : bool :=
  match p, s with
  | [], _ => true
  | a :: p', b :: s' => (a =? b) && startswith s' p'
  | _ :: _, [] => false
  end.

Definition endswith (s p : str) : bool := startswith (rev s) (rev p).

(** [sub in s] *)
Fixpoint contains (s sub : str) : bool :=
  startswith s sub ||
  match s with
  | _ :: s' => contains s' sub
  | [] => false
  end.

(** [sep.join(l)] *)
Fixpoint join (sep : str) (l : list str) : str :=
  match l with
  | [] => []
  | [x] => x
  | x :: l' => x ++ sep ++ join sep l'
  end.

Definition eqb (a b : str) : bool := bool_decide (a = b).

(** [s.rfind(c)] for a one-character [c]: the last index, or -1. *)
Fixpoint rfind_from (c : N) (s : str) (i : Z) (last : Z) : Z :=
  match s with
  | [] => last
  | d :: s' => rfind_from c s' (i + 1)%Z (if d =? c then i else last)
  end.

Definition rfind (s : str) (c : N) : Z := rfind_from c s 0%Z (-1)%Z.

(** [str(n)] of a natural number, in decimal. *)
Fixpoint digits_fuel (fuel : nat) (n : N) (acc : str) : str :=
  match fuel with
  | O => acc
  | S f =>
      let acc' := (48 + n mod 10) :: acc in
      if n <? 10 then acc' else digits_fuel f (n / 10) acc'
  end.

Definition str_of_N (n : N) : str := digits_fuel (S (N.to_nat (N.log2 n))) n [].

(** [str(z)] of an integer. *)
Definition str_of_Z (z : Z) : str :=
  match z with
  | Zneg p => 45 :: str_of_N (Npos p)
  | _ => str_of_N (Z.to_N z)
  end.

Section WithUnicode.
Context `{UnicodeDB}.

(** [Py_UNICODE_ISALNUM]. *)
Definition isalnum (c : N) : bool :=
  if c <? 128 then
    ((48 <=? c) && (c <=? 57)) || ((65 <=? c) && (c <=? 90))
    || ((97 <=? c) && (c <=? 122))
  else uni_alnum c || bool_decide (is_Some (uni_decimal c)).

(** The value of a decimal digit ([Py_UNICODE_TODECIMAL]). *)
Definition decimal_value (c : N) : option N :=
  if c <? 128 then
    if (48 <=? c) && (c <=? 57) then Some (c - 48) else None
  else uni_decimal c.

Definition isdecimal (c : N) : bool := bool_decide (is_Some (decimal_value c)).

Definition upper_char (c : N) : str :=
  if c <? 128 then
    if (97 <=? c) && (c <=? 122) then [c - 32] else [c]
  else uni_upper c.

Definition lower_char (c : N) : str :=
  if c <? 128 then
    if (65 <=? c) && (c <=? 90) then [c + 32] else [c]
  else uni_lower c.

Definition upper (s : str) : str := flat_map upper_char s.

(** [_PyUnicode_IsCased] and [_PyUnicode_IsCaseIgnorable]. *)
Definition is_cased (c : N) : bool :=
  if c <? 128 then ((65 <=? c) && (c <=? 90)) || ((97 <=? c) && (c <=? 122))
  else uni_cased c.

Definition is_case_ignorable (c : N) : bool :=
  if c <? 128 then (c =? 39) || (c =? 46) || (c =? 58) || (c =? 94) || (c =? 96)
  else uni_case_ignorable c.

(** The first character of [s] that is not case-ignorable. *)
Fixpoint skip_ignorable (s : str) : option N :=
  match s with
  | [] => None
  | c :: s' => if is_case_ignorable c then skip_ignorable s' else Some c
  end.

(** [handle_capital_sigma]: a capital sigma is final when a cased letter
    comes before it and none after it, case-ignorable characters apart.
    [before] is what precedes it, read backwards. *)
Definition final_sigma (before after : str) : bool :=
  match skip_ignorable before with
  | Some c =>
      is_cased c
      && match skip_ignorable after with
         | Some d => negb (is_cased d)
         | None => true
         end
  | None => false
  end.

Definition capital_sigma : N := 0x3A3.

(** [str.lower()]: character by character, but for the capital sigma.
    [before] is what has been read of the string, backwards. *)
Fixpoint lower_from (before : str) (s : str) : str :=
  match s with
  | [] => []
  | c :: s' =>
      (if c =? capital_sigma
       then [if final_sigma before s' then 0x3C2 else 0x3C3]
       else lower_char c)
      ++ lower_from (c :: before) s'
  end.

Definition lower (s : str) : str := lower_from [] s.

(** [int(s)] for a string the pattern [\d+] matched: every character is a
    decimal digit. More than [int_max_str_digits] digits raise [ValueError]
    (the default limit of CPython 3.11, also in 3.7.14 and later). *)
Definition int_max_str_digits : nat := 4300.

Fixpoint int_of_digits (acc : Z) (s : str) : result Z :=
  match s with
  | [] => Ok acc
  | c :: s' =>
      match decimal_value c with
      | Some d => int_of_digits (acc * 10 + Z.of_N d)%Z s'
      | None => Raise ValueError
      end
  end.

Definition int (s : str) : result Z :=
  match s with
  | [] => Raise ValueError
  | _ =>
      if bool_decide (int_max_str_digits < length s)%nat then Raise ValueError
      else int_of_digits 0%Z s
  end.

End WithUnicode.

End PyStr.

(** ** Regular expressions

    The part of Python's [re] the module uses: a backtracking matcher with
    greedy repetition, ordered alternation, capturing groups, [^] and [\b].
    The patterns below are the abstract syntax of the pattern strings of
    [ultis.py]. *)

Module Re.

Inductive regex : Type :=
| Eps
| Chr (c : N)
| Cls (p : N -> bool)
| Seq (r1 r2 : regex)
| Alt (r1 r2 : regex)
| Star (r : regex)
| Grp (r : regex)
| Bol
| WordB.

Definition Plus (r : regex) : regex := Seq r (Star r).
Definition Opt (r : regex) : regex := Alt r Eps.
Definition Lit (s : string) : regex :=
  foldr (fun c r => Seq (Chr c) r) Eps (lit s).

(** A position of the subject: the character before it (none at the start),
    the text from it on, and the groups closed so far. *)
Record mstate : Type := MState {
  ms_prev : option N;
  ms_rest : str;
  ms_groups : list str;
}.

Definition consumed (before after : mstate) : str :=
  take (length (ms_rest before) - length (ms_rest after))%nat (ms_rest before).

Section WithUnicode.
Context `{UnicodeDB}.

(** The class [\w]: alphanumeric or underscore. *)
Definition isword (c : N) : bool := PyStr.isalnum c || (c =? 95).
Definition notword (c : N) : bool := negb (isword c).
Definition digit : regex := Cls PyStr.isdecimal.
Definition word : regex := Cls isword.
Definition space : regex := Cls PyStr.isspace.

Definition at_word_boundary (st : mstate) : bool :=
  let before := match ms_prev st with Some c => isword c | None => false end in
  let after := match ms_rest st with c :: _ => isword c | [] => false end in
  xorb before after.

Definition step_char (p : N -> bool) (st : mstate) : option mstate :=
  match ms_rest st with
  | c :: rest => if p c then Some (MState (Some c) rest (ms_groups st)) else None
  | [] => None
  end.

(** [rmatch r st k]: match [r] at [st] and continue with [k]; the first
    success in backtracking order. *)
Fixpoint rmatch {A} (r : regex) (st : mstate) (k : mstate -> option A) : option A :=
  match r with
  | Eps => k st
  | Chr c => st' ← step_char (N.eqb c) st; k st'
  | Cls p => st' ← step_char p st; k st'
  | Seq r1 r2 => rmatch r1 st (fun st' => rmatch r2 st' k)
  | Alt r1 r2 =>
      match rmatch r1 st k with
      | Some a => Some a
      | None => rmatch r2 st k
      end
  | Star r' =>
      (fix loop (fuel : nat) (st : mstate) : option A :=
         match fuel with
         | O => k st
         | S fuel' =>
             match rmatch r' st (fun st' =>
                     if bool_decide (length (ms_rest st') < length (ms_rest st))%nat
                     then loop fuel' st' else None) with
             | Some a => Some a
             | None => k st
             end
         end) (length (ms_rest st)) st
  | Grp r' =>
      rmatch r' st (fun st' =>
        k (MState (ms_prev st') (ms_rest st') (ms_groups st' ++ [consumed st st'])))
  | Bol => match ms_prev st with None => k st | Some _ => None end
  | WordB => if at_word_boundary st then k st else None
  end.

(** [re.match(r, s)]: the groups of the match at the start of [s]. *)
Definition rematch (r : regex) (s : str) : option (list str) :=
  rmatch r (MState None s []) (fun st => Some (ms_groups st)).

(** [re.search(r, s)]: the groups of the leftmost match. *)
Fixpoint search_from (r : regex) (prev : option N) (s : str) : option (list str) :=
  match rmatch r (MState prev s []) (fun st => Some (ms_groups st)) with
  | Some g => Some g
  | None =>
      match s with
      | c :: s' => search_from r (Some c) s'
      | [] => None
      end
  end.

Definition search (r : regex) (s : str) : option (list str) := search_from r None s.

(** [@@ -(\d+),(\d+) \+(\d+),(\d+) @@] *)
Definition hunk_header : regex :=
  Seq (Lit "@@ -") (Seq (Grp (Plus digit)) (Seq (Chr 44) (Seq (Grp (Plus digit))
  (Seq (Lit " +") (Seq (Grp (Plus digit)) (Seq (Chr 44) (Seq (Grp (Plus digit))
  (Lit " @@")))))))).

(** [^\s*def\s+(\w+)\s*\(] *)
Definition def_line : regex :=
  Seq Bol (Seq (Star space) (Seq (Lit "def") (Seq (Plus space)
  (Seq (Grp (Plus word)) (Seq (Star space) (Chr 40)))))).

(** [^\s*def\s+(\w{1,2})\s*\(] *)
Definition short_def_line : regex :=
  Seq Bol (Seq (Star space) (Seq (Lit "def") (Seq (Plus space)
  (Seq (Grp (Seq word (Opt word))) (Seq (Star space) (Chr 40)))))).

(** [^\s*class\s+(\w{1,2})\s*[:\(]] *)
Definition short_class_line : regex :=
  Seq Bol (Seq (Star space) (Seq (Lit "class") (Seq (Plus space)
  (Seq (Grp (Seq word (Opt word))) (Seq (Star space)
  (Cls (fun c => (c =? 58) || (c =? 40)))))))).

(** [^\s*class\s+\w+] *)
Definition class_line : regex :=
  Seq Bol (Seq (Star space) (Seq (Lit "class") (Seq (Plus space) (Plus word)))).

(** [^\s*import\s+|^\s*from\s+\w+\s+import] *)
Definition import_line : regex :=
  Alt (Seq Bol (Seq (Star space) (Seq (Lit "import") (Plus space))))
      (Seq Bol (Seq (Star space) (Seq (Lit "from") (Seq (Plus space)
        (Seq (Plus word) (Seq (Plus space) (Lit "import"))))))).

(** [\bglobal\b] *)
Definition global_kw : regex := Seq WordB (Seq (Lit "global") WordB).

(** [[^\w]\d{3,}[^\w]] *)
Definition magic_number : regex :=
  Seq (Cls notword) (Seq digit (Seq digit (Seq digit (Seq (Star digit) (Cls notword))))).

End WithUnicode.

End Re.

(** [bytes.hex()]: two lowercase hexadecimal digits per octet. *)
Definition hex_digit (n : N) : N := if n <? 10 then 48 + n else 87 + n.

Definition bytes_hex (bs : bytes) : str :=
  flat_map (fun b => [hex_digit ((b / 16) mod 16); hex_digit (b mod 16)]) bs.

(** ** MD5 ([hashlib.md5], RFC 1321)

    Words are 32-bit, kept in [N] with the wrap-around written out. *)

Module MD5.

Definition mask32 : N := 0xFFFFFFFF.
Definition add32 (x y : N) : N := (x + y) mod 2 ^ 32.
Definition not32 (x : N) : N := N.lxor x mask32.
Definition rotl32 (x s : N) : N :=
  N.lor (N.land (N.shiftl x s) mask32) (N.shiftr x (32 - s)).

Definition shifts : list N :=
  [7; 12; 17; 22; 7; 12; 17; 22; 7; 12; 17; 22; 7; 12; 17; 22;
   5; 9; 14; 20; 5; 9; 14; 20; 5; 9; 14; 20; 5; 9; 14; 20;
   4; 11; 16; 23; 4; 11; 16; 23; 4; 11; 16; 23; 4; 11; 16; 23;
   6; 10; 15; 21; 6; 10; 15; 21; 6; 10; 15; 21; 6; 10; 15; 21].

(** [floor(2^32 * abs(sin(i + 1)))] *)
Definition sines : list N :=
  [0xd76aa478; 0xe8c7b756; 0x242070db; 0xc1bdceee; 0xf57c0faf; 0x4787c62a;
   0xa8304613; 0xfd469501; 0x698098d8; 0x8b44f7af; 0xffff5bb1; 0x895cd7be;
   0x6b901122; 0xfd987193; 0xa679438e; 0x49b40821; 0xf61e2562; 0xc040b340;
   0x265e5a51; 0xe9b6c7aa; 0xd62f105d; 0x02441453; 0xd8a1e681; 0xe7d3fbc8;
   0x21e1cde6; 0xc33707d6; 0xf4d50d87; 0x455a14ed; 0xa9e3e905; 0xfcefa3f8;
   0x676f02d9; 0x8d2a4c8a; 0xfffa3942; 0x8771f681; 0x6d9d6122; 0xfde5380c;
   0xa4beea44; 0x4bdecfa9; 0xf6bb4b60; 0xbebfbc70; 0x289b7ec6; 0xeaa127fa;
   0xd4ef3085; 0x04881d05; 0xd9d4d039; 0xe6db99e5; 0x1fa27cf8; 0xc4ac5665;
   0xf4292244; 0x432aff97; 0xab9423a7; 0xfc93a039; 0x655b59c3; 0x8f0ccc92;
   0xffeff47d; 0x85845dd1; 0x6fa87e4f; 0xfe2ce6e0; 0xa3014314; 0x4e0811a1;
   0xf7537e82; 0xbd3af235; 0x2ad7d2bb; 0xeb86d391].

Record state : Type := State { sa : N; sb : N; sc : N; sd : N }.

Definition init : state := State 0x67452301 0xefcdab89 0x98badcfe 0x10325476.

(** Message padding: a 1 bit, zeros up to 56 modulo 64, the bit length on 64
    bits, little-endian. *)
Definition le_bytes (n : nat) (x : N) : bytes :=
  map (fun i => (x / 2 ^ (8 * N.of_nat i)) mod 256) (seq 0 n).

Definition pad (msg : bytes) : bytes :=
  let len := length msg in
  let zeros := ((55 + 64 - len mod 64) mod 64)%nat in
  msg ++ [0x80] ++ repeat 0 zeros ++ le_bytes 8 ((8 * N.of_nat len) mod 2 ^ 64).

Definition word_of_le (bs : bytes) : N :=
  foldr (fun b acc => b + 256 * acc) 0 bs.

Fixpoint words (n : nat) (bs : bytes) : list N :=
  match n with
  | O => []
  | S n' => word_of_le (take 4 bs) :: words n' (drop 4 bs)
  end.

Definition round (m : list N) (st : state) (i : nat) : state :=
  let '(State a b c d) := st in
  let '(f, g) :=
    if bool_decide (i < 16)%nat then
      (N.lor (N.land b c) (N.land (not32 b) d), i)
    else if bool_decide (i < 32)%nat then
      (N.lor (N.land d b) (N.land (not32 d) c), ((5 * i + 1) mod 16)%nat)
    else if bool_decide (i < 48)%nat then
      (N.lxor (N.lxor b c) d, ((3 * i + 5) mod 16)%nat)
    else
      (N.lxor c (N.lor b (not32 d)), ((7 * i) mod 16)%nat) in
  let f' := add32 (add32 (add32 f a) (nth i sines 0)) (nth g m 0) in
  State d (add32 b (rotl32 f' (nth i shifts 0))) b c.

Definition compress (st : state) (block : bytes) : state :=
  let m := words 16 block in
  let '(State a b c d) := foldl (round m) st (seq 0 64) in
  State (add32 (sa st) a) (add32 (sb st) b) (add32 (sc st) c) (add32 (sd st) d).

Fixpoint blocks (n : nat) (st : state) (bs : bytes) : state :=
  match n with
  | O => st
  | S n' => blocks n' (compress st (take 64 bs)) (drop 64 bs)
  end.

Definition digest (msg : bytes) : bytes :=
  let p := pad msg in
  let '(State a b c d) := blocks (length p / 64) init p in
  le_bytes 4 a ++ le_bytes 4 b ++ le_bytes 4 c ++ le_bytes 4 d.

Definition hexdigest (msg : bytes) : str := bytes_hex (digest msg).

End MD5.

(** ** [difflib]: [SequenceMatcher] and [unified_diff]

    [SequenceMatcher(None, a, b)] with the default [autojunk=True]: no junk
    predicate, so [bjunk] is empty; elements of [b] occurring more than
    [len(b) // 100 + 1] times are dropped from [b2j] when [len(b) >= 200]. *)

Module Difflib.

Inductive tag : Type := Replace | Delete | Insert | Equal.

#[global] Instance tag_eq_dec : EqDecision tag.
Proof. solve_decision. Defined.

Definition opcode : Type := tag * Z * Z * Z * Z.
Definition block : Type := Z * Z * Z.

(** Python's [float(n)] of an integer: the nearest double, ties to even.
    (An integer of 1024 bits or more makes Python raise [OverflowError], and
    gives an infinity here; no sequence is that long.) *)
Definition float_of_Z (z : Z) : float :=
  SF2Prim (binary_normalize prec emax z 0 false).

(** [_calculate_ratio] *)
Definition calculate_ratio (matches length : Z) : float :=
  if (length =? 0)%Z then 1%float
  else (2 * float_of_Z matches / float_of_Z length)%float.

(** [a[i:j]] for [0 <= i]. *)
Definition slice {A} (l : list A) (i j : Z) : list A :=
  take (Z.to_nat (j - i)) (drop (Z.to_nat i) l).

(** [l[i]] for an index known to be in range. *)
Definition at_index {A} (l : list A) (i : Z) : option A :=
  if (i <? 0)%Z then None else l !! Z.to_nat i.

Section Matcher.
Context {E : Type} `{Countable E}.
Variables a b : list E.

Definition la : Z := Z.of_nat (length a).
Definition lb : Z := Z.of_nat (length b).

(** [__chain_b]: the indices of each element of [b], increasing. *)
Definition b2j_all : gmap E (list Z) :=
  foldl (fun (m : gmap E (list Z)) '(i, elt) =>
           <[elt := default [] (m !! elt) ++ [Z.of_nat i]]> m)
        ∅ (imap (fun i elt => (i, elt)) b).

Definition bjunk : gset E := ∅.

Definition isbjunk (x : E) : bool := bool_decide (x ∈ bjunk).

Definition ntest : Z := (lb / 100 + 1)%Z.

Definition b2j : gmap E (list Z) :=
  if (200 <=? lb)%Z
  then filter (fun '(_, idxs) => ¬ (ntest < Z.of_nat (length idxs))%Z) b2j_all
  else b2j_all.

(** The inner loop of [find_longest_match] over the indices [js] of [a[i]] in
    [b]: [continue] below [blo], [break] from [bhi] on. *)
Fixpoint flm_row (i blo bhi : Z) (j2len : gmap Z Z) (js : list Z)
    (newj2len : gmap Z Z) (best : block) : gmap Z Z * block :=
  match js with
  | [] => (newj2len, best)
  | j :: js' =>
      if (j <? blo)%Z then flm_row i blo bhi j2len js' newj2len best
      else if (bhi <=? j)%Z then (newj2len, best)
      else
        let k := (default 0 (j2len !! (j - 1)) + 1)%Z in
        let '(besti, bestj, bestsize) := best in
        flm_row i blo bhi j2len js' (<[j := k]> newj2len)
          (if (bestsize <? k)%Z then (i - k + 1, j - k + 1, k) else best)%Z
  end.

Definition flm_rows (alo ahi blo bhi : Z) : gmap Z Z * block :=
  foldl (fun '(j2len, best) i =>
           let js := match at_index a i with
                     | Some x => default [] (b2j !! x)
                     | None => []
                     end in
           flm_row i blo bhi j2len js ∅ best)
        (∅, (alo, blo, 0%Z)) (seqZ alo (ahi - alo)).

(** [while besti > alo and bestj > blo and junk(b[bestj-1]) == want and
    a[besti-1] == b[bestj-1]]: grow the block to the left. *)
Fixpoint extend_left (fuel : nat) (want : bool) (alo blo : Z) (best : block) : block :=
  match fuel with
  | O => best
  | S fuel' =>
      let '(besti, bestj, bestsize) := best in
      if (alo <? besti)%Z && (blo <? bestj)%Z then
        match at_index a (besti - 1), at_index b (bestj - 1) with
        | Some x, Some y =>
            if bool_decide (isbjunk y = want) && bool_decide (x = y)
            then extend_left fuel' want alo blo (besti - 1, bestj - 1, bestsize + 1)%Z
            else best
        | _, _ => best
        end
      else best
  end.

(** [while besti+bestsize < ahi and bestj+bestsize < bhi and
    junk(b[bestj+bestsize]) == want and a[besti+bestsize] == b[bestj+bestsize]]:
    grow the block to the right. *)
Fixpoint extend_right (fuel : nat) (want : bool) (ahi bhi : Z) (best : block) : block :=
  match fuel with
  | O => best
  | S fuel' =>
      let '(besti, bestj, bestsize) := best in
      if (besti + bestsize <? ahi)%Z && (bestj + bestsize <? bhi)%Z then
        match at_index a (besti + bestsize), at_index b (bestj + bestsize) with
        | Some x, Some y =>
            if bool_decide (isbjunk y = want) && bool_decide (x = y)
            then extend_right fuel' want ahi bhi (besti, bestj, bestsize + 1)%Z
            else best
        | _, _ => best
        end
      else best
  end.

Definition find_longest_match (alo ahi blo bhi : Z) : block :=
  let best := snd (flm_rows alo ahi blo bhi) in
  let fuel := S (length a) in
  let best := extend_left fuel false alo blo best in
  let best := extend_right fuel false ahi bhi best in
  let best := extend_left fuel true alo blo best in
  extend_right fuel true ahi bhi best.

(** The work list of [get_matching_blocks]; [queue.pop()] takes the entry
    pushed last, kept at the head here. Each entry taken either yields no
    block or removes at least one element of [a] from the ranges left, so
    [2 * len(a) + 1] rounds empty the queue. *)
Fixpoint gmb_loop (fuel : nat) (queue : list (Z * Z * Z * Z)) (acc : list block)
    : list block :=
  match fuel, queue with
  | S fuel', (alo, ahi, blo, bhi) :: queue' =>
      let '(i, j, k) := find_longest_match alo ahi blo bhi in
      if (k =? 0)%Z then gmb_loop fuel' queue' acc
      else
        let q1 := if (alo <? i)%Z && (blo <? j)%Z
                  then (alo, i, blo, j) :: queue' else queue' in
        let q2 := if (i + k <? ahi)%Z && (j + k <? bhi)%Z
                  then (i + k, ahi, j + k, bhi)%Z :: q1 else q1 in
        gmb_loop fuel' q2 (acc ++ [(i, j, k)])
  | _, _ => acc
  end.

(** The order of tuples: lexicographic. *)
Definition block_leb (x y : block) : bool :=
  let '(i1, j1, k1) := x in
  let '(i2, j2, k2) := y in
  (i1 <? i2)%Z || ((i1 =? i2)%Z && ((j1 <? j2)%Z || ((j1 =? j2)%Z && (k1 <=? k2)%Z))).

Fixpoint insert_sorted (x : block) (l : list block) : list block :=
  match l with
  | [] => [x]
  | y :: l' => if block_leb x y then x :: l else y :: insert_sorted x l'
  end.

Definition sort_blocks (l : list block) : list block := foldr insert_sorted [] l.

(** Adjacent equal blocks are merged into one. *)
Fixpoint collapse (cur : block) (l : list block) : list block :=
  let '(i1, j1, k1) := cur in
  match l with
  | [] => if (k1 =? 0)%Z then [] else [cur]
  | (i2, j2, k2) :: l' =>
      if (i1 + k1 =? i2)%Z && (j1 + k1 =? j2)%Z
      then collapse (i1, j1, k1 + k2)%Z l'
      else (if (k1 =? 0)%Z then [] else [cur]) ++ collapse (i2, j2, k2) l'
  end.

Definition get_matching_blocks : list block :=
  let found := gmb_loop (2 * length a + 1) [(0, la, 0, lb)%Z] [] in
  collapse (0, 0, 0)%Z (sort_blocks found) ++ [(la, lb, 0%Z)].

Fixpoint opcodes_from (i j : Z) (blocks : list block) : list opcode :=
  match blocks with
  | [] => []
  | (ai, bj, size) :: rest =>
      let change :=
        if (i <? ai)%Z && (j <? bj)%Z then [(Replace, i, ai, j, bj)]
        else if (i <? ai)%Z then [(Delete, i, ai, j, bj)]
        else if (j <? bj)%Z then [(Insert, i, ai, j, bj)]
        else [] in
      let same :=
        if (size =? 0)%Z then [] else [(Equal, ai, ai + size, bj, bj + size)%Z] in
      change ++ same ++ opcodes_from (ai + size) (bj + size) rest
  end.

Definition get_opcodes : list opcode := opcodes_from 0 0 get_matching_blocks.

Definition ratio : float :=
  calculate_ratio (foldr (fun '(_, _, k) acc => k + acc)%Z 0%Z get_matching_blocks)
                  (la + lb).

(** [get_grouped_opcodes(n)] *)
Definition trim_first (n : Z) (codes : list opcode) : list opcode :=
  match codes with
  | (Equal, i1, i2, j1, j2) :: rest =>
      (Equal, Z.max i1 (i2 - n), i2, Z.max j1 (j2 - n), j2) :: rest
  | _ => codes
  end.

Definition trim_last (n : Z) (codes : list opcode) : list opcode :=
  match reverse codes with
  | (Equal, i1, i2, j1, j2) :: rest =>
      reverse ((Equal, i1, Z.min i2 (i1 + n), j1, Z.min j2 (j1 + n))%Z :: rest)
  | _ => codes
  end.

Fixpoint group_loop (n : Z) (codes : list opcode) (group : list opcode)
    : list (list opcode) :=
  match codes with
  | [] =>
      match group with
      | [] => []
      | [(Equal, _, _, _, _)] => []
      | _ => [group]
      end
  | (tg, i1, i2, j1, j2) :: rest =>
      if bool_decide (tg = Equal) && (n + n <? i2 - i1)%Z then
        (group ++ [(tg, i1, Z.min i2 (i1 + n), j1, Z.min j2 (j1 + n))%Z])
        :: group_loop n rest [(tg, Z.max i1 (i2 - n), i2, Z.max j1 (j2 - n), j2)]
      else group_loop n rest (group ++ [(tg, i1, i2, j1, j2)])
  end.

Definition get_grouped_opcodes (n : Z) : list (list opcode) :=
  let codes := match get_opcodes with
               | [] => [(Equal, 0, 1, 0, 1)%Z]
               | codes => codes
               end in
  group_loop n (trim_last n (trim_first n codes)) [].

End Matcher.

(** [_format_range_unified] *)
Definition format_range_unified (start stop : Z) : str :=
  let beginning := (start + 1)%Z in
  let length := (stop - start)%Z in
  if (length =? 1)%Z then PyStr.str_of_Z beginning
  else
    let beginning := if (length =? 0)%Z then (beginning - 1)%Z else beginning in
    PyStr.str_of_Z beginning ++ lit "," ++ PyStr.str_of_Z length.

Definition first_start (g : list opcode) : Z * Z :=
  match g with
  | (_, i1, _, j1, _) :: _ => (i1, j1)
  | [] => (0, 0)%Z
  end.

Definition last_stop (g : list opcode) : Z * Z :=
  match reverse g with
  | (_, _, i2, _, j2) :: _ => (i2, j2)
  | [] => (0, 0)%Z
  end.

Definition opcode_lines (a b : list str) (c : opcode) : list str :=
  let '(tg, i1, i2, j1, j2) := c in
  match tg with
  | Equal => map (fun line => lit " " ++ line) (slice a i1 i2)
  | _ =>
      (if bool_decide (tg = Replace \/ tg = Delete)
       then map (fun line => lit "-" ++ line) (slice a i1 i2) else [])
      ++ (if bool_decide (tg = Replace \/ tg = Insert)
          then map (fun line => lit "+" ++ line) (slice b j1 j2) else [])
  end.

Definition group_lines (a b : list str) (g : list opcode) : list str :=
  let '(i1, j1) := first_start g in
  let '(i2, j2) := last_stop g in
  (lit "@@ -" ++ format_range_unified i1 i2 ++ lit " +"
     ++ format_range_unified j1 j2 ++ lit " @@")
  :: flat_map (opcode_lines a b) g.

(** [unified_diff(a, b, fromfile, tofile, lineterm='')] with no file dates
    and three lines of context. *)
Definition unified_diff (a b : list str) (fromfile tofile : str) : list str :=
  match get_grouped_opcodes a b 3 with
  | [] => []
  | groups =>
      (lit "--- " ++ fromfile) :: (lit "+++ " ++ tofile)
      :: flat_map (group_lines a b) groups
  end.

End Difflib.

(** ** [zlib]

    The compressor is the zlib C library; it is a parameter here. *)

Class Zlib := {
  zlib_compress : bytes -> bytes;
  zlib_decompress : bytes -> result bytes;
}.

(** What zlib promises: inflating a deflated stream gives the input back. *)
Definition zlib_lossless `{Zlib} : Prop :=
  forall b : bytes, zlib_decompress (zlib_compress b) = Ok b.

(** A codec that stores the octets as they are, to instantiate the parameter. *)
Definition stored_zlib : Zlib :=
  {| zlib_compress := fun b => b; zlib_decompress := fun b => Ok b |}.

(** ** Python lists indexed by integers *)

Module PyList.

(** The largest [Py_ssize_t] (64-bit builds). *)
Definition ssize_max : Z := (2 ^ 63 - 1)%Z.

(** [l[i]] *)
Definition get {A} (l : list A) (i : Z) : result A :=
  let n := Z.of_nat (length l) in
  let i' := if (i <? 0)%Z then (i + n)%Z else i in
  if (i' <? 0)%Z || (n <=? i')%Z then Raise IndexError
  else match l !! Z.to_nat i' with
       | Some x => Ok x
       | None => Raise IndexError
       end.

(** [l.pop(i)]: the list left. *)
Definition pop {A} (l : list A) (i : Z) : result (list A) :=
  let n := Z.of_nat (length l) in
  let i' := if (i <? 0)%Z then (i + n)%Z else i in
  if (i' <? 0)%Z || (n <=? i')%Z then Raise IndexError
  else Ok (delete (Z.to_nat i') l).

(** [l.insert(i, x)]: the index is clamped to the list; one that does not fit
    a [Py_ssize_t] raises [OverflowError]. *)
Definition insert {A} (l : list A) (i : Z) (x : A) : result (list A) :=
  if (ssize_max <? i)%Z || (i <? - ssize_max - 1)%Z then Raise OverflowError
  else
    let n := Z.of_nat (length l) in
    let i' := if (i <? 0)%Z then Z.max 0 (i + n) else Z.min i n in
    Ok (take (Z.to_nat i') l ++ x :: drop (Z.to_nat i') l).

End PyList.

(** ** Numbers

    The values of a dictionary that holds integers and floats. *)

Inductive number : Type :=
| Int (z : Z)
| Float (f : float).

Module PyFloat.

(** The quotient of [num] by [den > 0] rounded to the nearest integer, ties
    to the even one. *)
Definition round_half_even (num den : Z) : Z :=
  let q := (num / den)%Z in
  let r := (num mod den)%Z in
  if (2 * r <? den)%Z then q
  else if (den <? 2 * r)%Z then (q + 1)%Z
  else if Z.even q then q else (q + 1)%Z.

(** [round(x, 2)]: the exact value of [x] is rounded to two decimals, ties
    to even, and the double nearest to that decimal is returned; zeros,
    infinities and NaN are returned as they are. *)
Definition round2 (x : float) : float :=
  match Prim2SF x with
  | S754_finite s m e =>
      let hundredths :=
        if (0 <=? e)%Z then (Zpos m * 2 ^ e * 100)%Z
        else round_half_even (Zpos m * 100) (2 ^ (- e)) in
      match hundredths with
      | Zpos q =>
          SF2Prim (SFdiv prec emax (S754_finite s q 0) (S754_finite false 100 0))
      | _ => SF2Prim (S754_zero s)
      end
  | _ => x
  end.

(** [a / b] of two integers, for [b > 0]: the double nearest to the
    quotient. (A quotient of 2^1024 or more makes Python raise
    [OverflowError], and gives an infinity here.) *)
Definition truediv (a : Z) (b : positive) : float :=
  let num :=
    match a with
    | Z0 => S754_zero false
    | Zpos p => S754_finite false p 0
    | Zneg p => S754_finite true p 0
    end in
  SF2Prim (SFdiv prec emax num (S754_finite false b 0)).

End PyFloat.

Module PyNum.

(** [float(z)]: the nearest double, [OverflowError] past the largest one. *)
Definition to_float (z : Z) : result float :=
  match binary_normalize prec emax z 0 false with
  | S754_infinity _ => Raise OverflowError
  | x => Ok (SF2Prim x)
  end.

(** The value of the float [f] is the integer [z]. *)
Definition float_is_Z (f : float) (z : Z) : bool :=
  match Prim2SF f with
  | S754_zero _ => (z =? 0)%Z
  | S754_finite s m e =>
      let v := if s then Zneg m else Zpos m in
      if (0 <=? e)%Z then (v * 2 ^ e =? z)%Z else (v =? z * 2 ^ (- e))%Z
  | _ => false
  end.

(** [a == b]: floats as IEEE 754 has it, an integer and a float by their
    exact values. *)
Definition eqb (a b : number) : bool :=
  match a, b with
  | Int x, Int y => (x =? y)%Z
  | Float x, Float y => (x =? y)%float
  | Int x, Float y => float_is_Z y x
  | Float x, Int y => float_is_Z x y
  end.

(** [a - b]: an integer next to a float is converted first. *)
Definition sub (a b : number) : result number :=
  match a, b with
  | Int x, Int y => Ok (Int (x - y))
  | Float x, Float y => Ok (Float (x - y))
  | Int x, Float y => x' ← to_float x; Ok (Float (x' - y))
  | Float x, Int y => y' ← to_float y; Ok (Float (x - y'))
  end.

(** [round(a, 2)]: an integer is returned as it is. *)
Definition round2 (a : number) : number :=
  match a with
  | Int z => Int z
  | Float f => Float (PyFloat.round2 f)
  end.

End PyNum.

(** ** [os.path]

    [os.path] is [posixpath] or [ntpath], by the platform. The drive that
    [ntpath.splitdrive] splits off a path (a drive letter, a UNC share, a
    device) is a parameter: its rules differ from one version of Python to
    the next. *)

Inductive flavour : Type := posixpath | ntpath.

Class OsPath := {
  os_path : flavour;
  (** [ntpath.splitdrive(p)[1]] *)
  ntpath_after_drive : str -> str;
}.

Definition posix : OsPath :=
  {| os_path := posixpath; ntpath_after_drive := fun p => p |}.

(** ** The utilities of [ultis.py] *)

Inductive smell_kind : Type :=
| long_line | global_variable | long_function | deep_nesting | magic_number | short_name.

Inductive severity_level : Type := low | medium | high.

#[global] Instance smell_kind_eq_dec : EqDecision smell_kind.
Proof. solve_decision. Defined.

#[global] Instance severity_level_eq_dec : EqDecision severity_level.
Proof. solve_decision. Defined.

(** A code smell: [{'type', 'line', 'message', 'severity'}]. *)
Record smell : Type := Smell {
  smell_type : smell_kind;
  smell_line : Z;
  smell_message : str;
  smell_severity : severity_level;
}.

(** The counters of the metrics scan and its docstring state. *)
Record scan_state : Type := ScanState {
  blank_lines : Z;
  comment_lines : Z;
  docstring_lines : Z;
  function_count : Z;
  class_count : Z;
  import_count : Z;
  todo_count : Z;
  line_lengths : list Z;
  in_docstring : bool;
  docstring_delimiter : str;
}.

(** The state of the first pass of the smell detector. *)
Record smell_state : Type := SmellState {
  smells : list smell;
  current_function : str;
  function_start_line : Z;
  function_lines : Z;
  in_function : bool;
}.

(** A snapshot: the dictionary [create_snapshot] builds. *)
Record snapshot : Type := Snapshot {
  snap_file_path : str;
  snap_file_name : str;
  snap_timestamp : str;
  snap_file_modified : option str;
  snap_hash : str;
  snap_language : str;
  snap_size : Z;
  snap_metrics : gmap string number;
  snap_content : str;
  snap_compressed_content : option str;
}.

(** An entry of [metrics_changes]: [{'old', 'new', 'change'}]. *)
Record metric_change : Type := MetricChange {
  mc_old : number;
  mc_new : number;
  mc_change : number;
}.

(** The report of [compare_snapshots]. *)
Record report : Type := Report {
  rep_file_path : str;
  rep_file_name : str;
  rep_old_timestamp : str;
  rep_new_timestamp : str;
  rep_old_hash : str;
  rep_new_hash : str;
  rep_is_significant : bool;
  rep_diff : str;
  rep_metrics_changes : gmap string metric_change;
  rep_size_change : Z;
}.

(** What [create_snapshot] reads of the world: the file system and the
    clock ([now k] is the [k]-th reading, in ISO format). *)
Record world : Type := World {
  safe_read_file : str -> option str;
  path_exists : str -> bool;
  get_file_age : str -> option str;
  now : nat -> str;
}.

Definition nl : str := [10].
Definition triple_double : str := [34; 34; 34].
Definition triple_single : str := [39; 39; 39].

(** The index of the last separator of [p], or -1: [/] for [posixpath],
    [\] or [/] for [ntpath]. *)
Definition sep_index `{OsPath} (p : str) : Z :=
  match os_path with
  | posixpath => PyStr.rfind p 47
  | ntpath => Z.max (PyStr.rfind p 92) (PyStr.rfind p 47)
  end.

(** [os.path.splitext(p)[1]] ([genericpath._splitext]): from the last dot
    of the last component, unless that component is dots up to it. *)
Definition splitext_ext `{OsPath} (p : str) : str :=
  let sepIndex := sep_index p in
  let dotIndex := PyStr.rfind p 46 in
  if (sepIndex <? dotIndex)%Z then
    let between := Difflib.slice p (sepIndex + 1) dotIndex in
    if forallb (N.eqb 46) between then [] else drop (Z.to_nat dotIndex) p
  else [].

(** [os.path.basename(p)]: what follows the last separator; [ntpath] looks
    for it after the drive. *)
Definition basename `{OsPath} (p : str) : str :=
  let p := match os_path with posixpath => p | ntpath => ntpath_after_drive p end in
  drop (Z.to_nat (sep_index p + 1)) p.

Definition language_map : list (string * string) :=
  [(".py", "Python"); (".js", "JavaScript"); (".html", "HTML"); (".css", "CSS");
   (".java", "Java"); (".c", "C"); (".cpp", "C++"); (".h", "C/C++ Header");
   (".cs", "C#"); (".go", "Go"); (".rb", "Ruby"); (".php", "PHP");
   (".ts", "TypeScript"); (".jsx", "React JSX"); (".tsx", "React TSX");
   (".md", "Markdown"); (".json", "JSON"); (".xml", "XML"); (".sql", "SQL");
   (".sh", "Shell"); (".bat", "Batch"); (".ps1", "PowerShell")]%string.

Fixpoint map_get (m : list (string * string)) (k : str) (dflt : str) : str :=
  match m with
  | [] => dflt
  | (k', v) :: m' => if PyStr.eqb (lit k') k then lit v else map_get m' k dflt
  end.

Section Ultis.
Context `{UnicodeDB} `{Zlib} `{OsPath}.

Definition compute_file_hash (content : str) : result str :=
  b ← Utf8.encode content; Ok (MD5.hexdigest b).

Definition compress_content (content : str) : result bytes :=
  b ← Utf8.encode content; Ok (zlib_compress b).

Definition decompress_content (compressed_data : bytes) : result str :=
  b ← zlib_decompress compressed_data; Utf8.decode b.

Definition generate_diff (old_content new_content : str) : str :=
  let old_lines := PyStr.splitlines old_content in
  let new_lines := PyStr.splitlines new_content in
  PyStr.join nl (Difflib.unified_diff old_lines new_lines (lit "previous") (lit "current")).

Definition is_file_header (line : str) : bool :=
  PyStr.startswith line (lit "+++") || PyStr.startswith line (lit "---").

(** The header scan of [apply_diff]: [start_idx] after the loop. *)
Fixpoint find_start (i : nat) (lines : list str) (start_idx : nat) : nat :=
  match lines with
  | [] => start_idx
  | line :: rest =>
      if is_file_header line then
        match rest with
        | next :: _ =>
            if is_file_header next then (i + 2)%nat
            else find_start (S i) rest (i + 1)%nat
        | [] => (i + 1)%nat
        end
      else find_start (S i) rest start_idx
  end.

(** One round of the replay loop of [apply_diff]. *)
Definition apply_line (st : list str * Z) (diff_line : str) : result (list str * Z) :=
  let '(result_lines, line_idx) := st in
  if PyStr.startswith diff_line (lit "@@") then
    match Re.rematch Re.hunk_header diff_line with
    | Some groups =>
        n ← PyStr.int (nth 2 groups []);
        Ok (result_lines, (n - 1)%Z)
    | None => Ok st
    end
  else if PyStr.startswith diff_line (lit "+") then
    l ← PyList.insert result_lines line_idx (drop 1 diff_line);
    Ok (l, (line_idx + 1)%Z)
  else if PyStr.startswith diff_line (lit "-") then
    if (line_idx <? Z.of_nat (length result_lines))%Z then
      x ← PyList.get result_lines line_idx;
      if PyStr.eqb x (drop 1 diff_line) then
        l ← PyList.pop result_lines line_idx;
        Ok (l, line_idx)
      else Ok st
    else Ok st
  else if negb (PyStr.startswith diff_line [92]) then
    Ok (result_lines, (line_idx + 1)%Z)
  else Ok st.

Fixpoint apply_lines (st : list str * Z) (diff_lines : list str) : result (list str * Z) :=
  match diff_lines with
  | [] => Ok st
  | diff_line :: rest => st' ← apply_line st diff_line; apply_lines st' rest
  end.

Definition apply_diff (original_content diff_content : str) : result str :=
  let diff_lines := PyStr.splitlines diff_content in
  let start_idx := find_start 0 diff_lines 0 in
  let original_lines := PyStr.splitlines original_content in
  st ← apply_lines (original_lines, 0%Z) (drop start_idx diff_lines);
  Ok (PyStr.join nl (fst st)).

(** The default [threshold=0.05]: the double nearest to it. *)
Definition default_threshold : float := 0x1.999999999999ap-5%float.

Definition is_significant_change (old_content new_content : str) (threshold : float) : bool :=
  match old_content, new_content with
  | [], _ | _, [] => true
  | _, _ =>
      let ratio := Difflib.ratio old_content new_content in
      let change_ratio := (1 - ratio)%float in
      (threshold <? change_ratio)%float
  end.

(** *** [count_code_metrics] *)

Definition scan_init : scan_state :=
  ScanState 0 0 0 0 0 0 0 [] false [].

Definition is_some {A} (o : option A) : bool :=
  match o with Some _ => true | None => false end.

Definition scan_line (st : scan_state) (line : str) : scan_state :=
  let stripped := PyStr.strip line in
  let '(ScanState bl cm ds fc cc ic td lens ind delim) := st in
  let lens := lens ++ [Z.of_nat (length line)] in
  match stripped with
  | [] => ScanState (bl + 1) cm ds fc cc ic td lens ind delim
  | _ =>
      if ind then
        ScanState bl cm (ds + 1) fc cc ic td lens
                  (negb (PyStr.endswith stripped delim)) delim
      else if PyStr.startswith stripped triple_double
              || PyStr.startswith stripped triple_single then
        let delim := take 3 stripped in
        ScanState bl cm (ds + 1) fc cc ic td lens
                  (negb ((3 <? Z.of_nat (length stripped))%Z
                         && PyStr.endswith stripped delim)) delim
      else if PyStr.startswith stripped (lit "#") then
        ScanState bl (cm + 1) ds fc cc ic
                  (if PyStr.contains (PyStr.upper stripped) (lit "TODO")
                   then td + 1 else td) lens ind delim
      else if is_some (Re.rematch Re.def_line line) then
        ScanState bl cm ds (fc + 1) cc ic td lens ind delim
      else if is_some (Re.rematch Re.class_line line) then
        ScanState bl cm ds fc (cc + 1) ic td lens ind delim
      else if is_some (Re.rematch Re.import_line line) then
        ScanState bl cm ds fc cc (ic + 1) td lens ind delim
      else ScanState bl cm ds fc cc ic td lens ind delim
  end%Z.

(** The dictionary returned: ten integers, and two entries that are floats
    unless they are the integer 0. *)
Definition metrics_dict (total code comment blank docstring functions classes
    imports todos maxlen : Z) (avg ratio : number) : gmap string number :=
  list_to_map
    [("total_lines", Int total); ("code_lines", Int code);
     ("comment_lines", Int comment); ("blank_lines", Int blank);
     ("docstring_lines", Int docstring); ("function_count", Int functions);
     ("class_count", Int classes); ("import_count", Int imports);
     ("todo_count", Int todos); ("max_line_length", Int maxlen);
     ("avg_line_length", avg); ("comment_ratio", ratio)]%string.

Definition count_code_metrics (content : str) : gmap string number :=
  match content with
  | [] => metrics_dict 0 0 0 0 0 0 0 0 0 0 (Int 0) (Int 0)
  | _ =>
      let lines := PyStr.splitlines content in
      let total_lines := Z.of_nat (length lines) in
      let st := foldl scan_line scan_init lines in
      let code_lines :=
        (total_lines - blank_lines st - comment_lines st - docstring_lines st)%Z in
      let max_line_length := foldr Z.max 0%Z (line_lengths st) in
      let avg_line_length :=
        match Z.of_nat (length (line_lengths st)) with
        | Zpos n => Float (PyFloat.truediv (foldr Z.add 0%Z (line_lengths st)) n)
        | _ => Int 0
        end in
      let comment_ratio :=
        match total_lines with
        | Zpos n =>
            Float (PyFloat.round2
                     (PyFloat.truediv (comment_lines st + docstring_lines st) n * 100))
        | _ => Int 0
        end in
      metrics_dict total_lines code_lines (comment_lines st) (blank_lines st)
        (docstring_lines st) (function_count st) (class_count st)
        (import_count st) (todo_count st) max_line_length
        (PyNum.round2 avg_line_length) comment_ratio
  end.

(** *** [detect_code_smells] *)

Definition long_function_smell (st : smell_state) : list smell :=
  if in_function st && (50 <? function_lines st)%Z then
    [Smell long_function (function_start_line st + 1)
       (lit "Hàm " ++ current_function st ++ lit " quá dài ("
          ++ PyStr.str_of_Z (function_lines st) ++ lit " dòng)") medium]
  else [].

(** The checks of the first loop that look at one line only; [i] is the
    index of [line]. *)
Definition long_line_smell (i : Z) (line : str) : list smell :=
  let len := Z.of_nat (length line) in
  if (100 <? len)%Z then
    [Smell long_line (i + 1)
       (lit "Dòng quá dài (" ++ PyStr.str_of_Z len ++ lit " ký tự)") low]
  else [].

Definition global_variable_smell (i : Z) (line : str) : list smell :=
  if is_some (Re.search Re.global_kw line) then
    [Smell global_variable (i + 1) (lit "Sử dụng biến toàn cục") medium]
  else [].

Definition deep_nesting_smell (i : Z) (line : str) : list smell :=
  let indent := (Z.of_nat (length line) - Z.of_nat (length (PyStr.lstrip line)))%Z in
  if (16 <=? indent)%Z then
    [Smell deep_nesting (i + 1)
       (lit "Độ sâu lồng nhau quá lớn (" ++ PyStr.str_of_Z (indent / 4)
          ++ lit " cấp)") medium]
  else [].

Definition magic_number_smell (i : Z) (line : str) : list smell :=
  if is_some (Re.search Re.magic_number line)
     && negb (PyStr.startswith (PyStr.strip line) (lit "#")) then
    [Smell magic_number (i + 1) (lit "Sử dụng magic number") low]
  else [].

(** Blank lines and comment lines are passed over by the first loop. *)
Definition skipped (line : str) : bool :=
  let stripped := PyStr.strip line in
  bool_decide (stripped = []) || PyStr.startswith stripped (lit "#").

(** One round of the first loop. *)
Definition smell_line_step (st : smell_state) (i : Z) (line : str) : smell_state :=
  if skipped line then st
  else
    let '(s3, cur, start, flines, inf) :=
      match Re.rematch Re.def_line line with
      | Some groups =>
          (long_function_smell st, nth 0 groups [], i, 0%Z, true)
      | None =>
          ([], current_function st, function_start_line st,
           if in_function st then (function_lines st + 1)%Z else function_lines st,
           in_function st)
      end in
    SmellState (smells st ++ long_line_smell i line ++ global_variable_smell i line
                  ++ s3 ++ deep_nesting_smell i line ++ magic_number_smell i line)
               cur start flines inf.

Fixpoint smell_pass1 (st : smell_state) (i : Z) (lines : list str) : smell_state :=
  match lines with
  | [] => st
  | line :: rest => smell_pass1 (smell_line_step st i line) (i + 1)%Z rest
  end.

(** One round of the second loop: short names of functions and classes. *)
Definition short_name_step (i : Z) (line : str) : list smell :=
  (match Re.rematch Re.short_def_line line with
   | Some groups =>
       [Smell short_name (i + 1) (lit "Tên hàm quá ngắn: " ++ nth 0 groups []) low]
   | None => []
   end)
  ++ (match Re.rematch Re.short_class_line line with
      | Some groups =>
          [Smell short_name (i + 1) (lit "Tên lớp quá ngắn: " ++ nth 0 groups []) low]
      | None => []
      end).

Fixpoint smell_pass2 (i : Z) (lines : list str) : list smell :=
  match lines with
  | [] => []
  | line :: rest => short_name_step i line ++ smell_pass2 (i + 1)%Z rest
  end.

Definition detect_code_smells (content : str) : list smell :=
  match content with
  | [] => []
  | _ =>
      let lines := PyStr.splitlines content in
      let st := smell_pass1 (SmellState [] [] 0 0 false) 0%Z lines in
      smells st ++ long_function_smell st ++ smell_pass2 0%Z lines
  end.

(** *** Snapshots *)

Definition identify_code_language (filename : str) (content : option str) : str :=
  let ext := PyStr.lower (splitext_ext filename) in
  map_get language_map ext (lit "Unknown").

(** [create_snapshot(file_path, content)]; [None] is the empty dictionary the
    function returns when it gives up. *)
Definition create_snapshot (w : world) (file_path : str) (content : option str)
    : option snapshot :=
  match (match content with Some c => Some c | None => safe_read_file w file_path end) with
  | None => None
  | Some content =>
      match compute_file_hash content with
      | Raise _ => None
      | Ok content_hash =>
          let '(file_time, stamp) :=
            if path_exists w file_path
            then (get_file_age w file_path, now w 0)
            else (Some (now w 0), now w 1) in
          let language := identify_code_language file_path (Some content) in
          let metrics :=
            match language with
            | [] => ∅
            | _ => count_code_metrics content
            end in
          match (match content with
                 | [] => Ok None
                 | _ => c ← compress_content content; Ok (Some (bytes_hex c))
                 end) with
          | Raise _ => None
          | Ok compressed =>
              Some (Snapshot file_path (basename file_path) stamp file_time
                      content_hash language (Z.of_nat (length content)) metrics
                      content compressed)
          end
      end
  end.

(** One round of the loop over the keys: the entry of [metrics_changes]
    for a key of either dictionary, if the values differ; the subtraction
    can raise. *)
Definition metric_delta (old_value new_value : option number)
    : option (result metric_change) :=
  match old_value, new_value with
  | None, None => None
  | _, _ =>
      let o := default (Int 0) old_value in
      let n := default (Int 0) new_value in
      if negb (PyNum.eqb o n) then
        Some (change ← PyNum.sub n o; Ok (MetricChange o n change))
      else None
  end.

(** The loop over the keys: [metrics_changes], unless a round raises. *)
Definition metrics_delta (old_metrics new_metrics : gmap string number)
    : result (gmap string metric_change) :=
  let rounds := merge metric_delta old_metrics new_metrics in
  if bool_decide (map_Forall (fun _ r => is_ok r = true) rounds) then
    Ok (omap (fun r => match r with Ok e => Some e | Raise _ => None end) rounds)
  else Raise OverflowError.

(** [compare_snapshots(old_snapshot, new_snapshot)]; [None] is the empty
    dictionary, returned also when the body raises. *)
Definition compare_snapshots (old_snapshot new_snapshot : option snapshot)
    : option report :=
  match old_snapshot, new_snapshot with
  | Some old, Some new =>
      let old_content := snap_content old in
      let new_content := snap_content new in
      let diff := generate_diff old_content new_content in
      match metrics_delta (snap_metrics old) (snap_metrics new) with
      | Raise _ => None
      | Ok metrics_changes =>
          let is_significant :=
            is_significant_change old_content new_content default_threshold in
          Some (Report (snap_file_path new) (snap_file_name new)
                  (snap_timestamp old) (snap_timestamp new)
                  (snap_hash old) (snap_hash new)
                  is_significant diff metrics_changes
                  (snap_size new - snap_size old))
      end
  | _, _ => None
  end.

End Ultis.

(** * Vocabulary of the statements *)

(** Lowercase hexadecimal digits. *)
Definition is_lower_hex (c : N) : bool :=
  ((48 <=? c) && (c <=? 57)) || ((97 <=? c) && (c <=? 102)).

(** A string that holds one lone surrogate: ['\ud800']. *)
Definition lone_surrogate : str := [0xD800].

(** The texts of the round-trip scenario. *)
Definition example_old : str :=
  lit "Line 1" ++ nl ++ lit "Line 2" ++ nl ++ lit "Line 3" ++ nl.

Definition example_new : str :=
  lit "Line 1" ++ nl ++ lit "Line 2 modified" ++ nl ++ lit "Line 3" ++ nl.

Definition example_diff : list str :=
  [lit "--- previous"; lit "+++ current"; lit "@@ -1,3 +1,3 @@"; lit " Line 1";
   lit "-Line 2"; lit "+Line 2 modified"; lit " Line 3"].

(** A world with no files, whose clock ticks once a reading. *)
Definition example_world : world :=
  World (fun _ => None) (fun _ => false) (fun _ => None)
        (fun k => lit "2025-04-20T22:00:0" ++ PyStr.str_of_Z (Z.of_nat k)).

(** Rounding of an exact mantissa to binary64. *)
Definition round_exact (s : bool) (m : positive) (e : Z) : spec_float :=
  binary_round_aux prec emax s (Zpos m) e loc_Exact.

(** The three counted buckets never exceed the lines read so far. *)
Definition buckets_within (st : scan_state) (n : Z) : Prop :=
  (0 <= blank_lines st /\ 0 <= comment_lines st /\ 0 <= docstring_lines st
   /\ blank_lines st + comment_lines st + docstring_lines st <= n)%Z.

(** A number that is a float, or an integer below [2 ^ 63] in absolute
    value, as a counter is. *)
Definition small (v : number) : Prop :=
  match v with
  | Int z => (Z.abs z < 2 ^ 63)%Z
  | Float _ => True
  end.

(** A dictionary of counters and floats. *)
Definition counters (m : gmap string number) : Prop :=
  map_Forall (fun _ v => small v) m.

(** The value compared for a key: 0 when the key is absent. *)
Definition metric (m : gmap string number) (key : string) : number :=
  default (Int 0) (m !! key).

(** The kinds raised by the checks of one line. *)
Definition line_kind (k : smell_kind) : bool :=
  match k with
  | long_line | global_variable | deep_nesting | magic_number => true
  | long_function | short_name => false
  end.

Definition is_kind (k0 k : smell_kind) : bool := bool_decide (k = k0).

(** The kinds raised by the first loop. *)
Definition first_loop_kind (k : smell_kind) : bool := negb (is_kind short_name k).

(** The records of [l] whose kind satisfies [p], in the order of [l]. *)
Definition of_kind (p : smell_kind -> bool) (l : list smell) : list smell :=
  filter (fun s => p (smell_type s) = true) l.

Definition sorted_by_line (l : list smell) : Prop :=
  StronglySorted Z.le (map smell_line l).

(** Every record of [l] has kind [k] and points at the line of index [i]. *)
Definition raises (k : smell_kind) (i : Z) (l : list smell) : Prop :=
  Forall (fun s => smell_type s = k /\ smell_line s = (i + 1)%Z) l.

(** The long functions met so far are in line order, none after the
    function being read. *)
Definition long_functions_ordered (st : smell_state) (i : Z) : Prop :=
  sorted_by_line (of_kind (is_kind long_function) (smells st))
  /\ Forall (fun z => z <= function_start_line st + 1)%Z
            (map smell_line (of_kind (is_kind long_function) (smells st)))
  /\ (function_start_line st <= i)%Z.

(** The entries of a row of [find_longest_match]: lengths of blocks that end
    at row [r] and lie inside the ranges searched. *)
Definition entries_within (lo_a lo_b hi_b r : Z) (row : gmap Z Z) : Prop :=
  forall j v, row !! j = Some v ->
    (1 <= v /\ v <= r - lo_a + 1 /\ v <= j - lo_b + 1 /\ j < hi_b)%Z.

(** A block inside the ranges [lo_a, hi_a) and [lo_b, hi_b). *)
Definition block_within (lo_a hi_a lo_b hi_b : Z) (best : Difflib.block) : Prop :=
  let '(bi, bj, bs) := best in
  (lo_a <= bi /\ lo_b <= bj /\ 0 <= bs /\ bi + bs <= hi_a /\ bj + bs <= hi_b)%Z.

(** An entry of the work list of [get_matching_blocks], and what it weighs. *)
Definition range_ok (q : Z * Z * Z * Z) : Prop :=
  let '(alo, ahi, blo, bhi) := q in (alo <= ahi /\ blo <= bhi)%Z.

Definition range_weight (q : Z * Z * Z * Z) : nat :=
  let '(alo, ahi, _, _) := q in (2 * Z.to_nat (ahi - alo) + 1)%nat.

Definition queue_weight (queue : list (Z * Z * Z * Z)) : nat :=
  foldr (fun q w => (range_weight q + w)%nat) 0%nat queue.

Section SmellVocabulary.
Context `{UnicodeDB}.

(** A line the first loop reads: not blank, and no comment. *)
Definition is_read (line : str) : bool :=
  let stripped := PyStr.strip line in
  negb (bool_decide (stripped = []) || PyStr.startswith stripped (lit "#")).

(** What the one-line checks raise on line [i]: one record for each check
    that fires, in the order of the checks. The checks: more than 100
    characters; the word [global]; 16 columns of indentation or more; a
    number of three digits or more between characters that are no word
    characters. *)
Definition line_heuristics (i : Z) (line : str) : list smell :=
  if is_read line then
    (if (100 <? Z.of_nat (length line))%Z then
       [Smell long_line (i + 1)
          (lit "Dòng quá dài (" ++ PyStr.str_of_Z (Z.of_nat (length line))
             ++ lit " ký tự)") low]
     else [])
    ++ (if is_some (Re.search Re.global_kw line) then
          [Smell global_variable (i + 1) (lit "Sử dụng biến toàn cục") medium]
        else [])
    ++ (let indent := (Z.of_nat (length line) - Z.of_nat (length (PyStr.lstrip line)))%Z in
        if (16 <=? indent)%Z then
          [Smell deep_nesting (i + 1)
             (lit "Độ sâu lồng nhau quá lớn (" ++ PyStr.str_of_Z (indent / 4)
                ++ lit " cấp)") medium]
        else [])
    ++ (if is_some (Re.search Re.magic_number line) then
          [Smell magic_number (i + 1) (lit "Sử dụng magic number") low]
        else [])
  else [].

Fixpoint scan_heuristics (i : Z) (lines : list str) : list smell :=
  match lines with
  | [] => []
  | line :: rest => line_heuristics i line ++ scan_heuristics (i + 1)%Z rest
  end.

(** The long-function record one round of the first loop adds. *)
Definition step_long_function (st : smell_state) (line : str) : list smell :=
  if skipped line then []
  else match Re.rematch Re.def_line line with
       | Some _ => long_function_smell st
       | None => []
       end.

(** The name a line gives to a function, when the first loop reads the
    line and it starts a definition. *)
Definition defines (line : str) : option str :=
  if is_read line then
    match Re.rematch Re.def_line line with
    | Some groups => Some (nth 0 groups [])
    | None => None
    end
  else None.

(** The lines counted for a function whose definition is followed by
    [rest]: the lines read up to the next definition, or to the end. *)
Fixpoint body_length (rest : list str) : Z :=
  match rest with
  | [] => 0
  | line :: rest' =>
      if is_read line then
        if is_some (Re.rematch Re.def_line line) then 0
        else (1 + body_length rest')%Z
      else body_length rest'
  end.

(** The [long_function] records a text calls for: one for each function of
    more than 50 counted lines, at the line of its definition. *)
Fixpoint long_functions (i : Z) (lines : list str) : list smell :=
  match lines with
  | [] => []
  | line :: rest =>
      match defines line with
      | Some name =>
          if (50 <? body_length rest)%Z then
            [Smell long_function (i + 1)
               (lit "Hàm " ++ name ++ lit " quá dài ("
                  ++ PyStr.str_of_Z (body_length rest) ++ lit " dòng)") medium]
          else []
      | None => []
      end ++ long_functions (i + 1)%Z rest
  end.

(** The record owed to the function being read in state [st], when [rest]
    is still to be read. *)
Definition pending (st : smell_state) (rest : list str) : list smell :=
  if in_function st && (50 <? function_lines st + body_length rest)%Z then
    [Smell long_function (function_start_line st + 1)
       (lit "Hàm " ++ current_function st ++ lit " quá dài ("
          ++ PyStr.str_of_Z (function_lines st + body_length rest) ++ lit " dòng)") medium]
  else [].

(** The [short_name] records a line calls for: one if it defines a function
    whose name has one or two characters, one if it defines such a class. *)
Definition short_names (i : Z) (line : str) : list smell :=
  (match Re.rematch Re.short_def_line line with
   | Some groups =>
       [Smell short_name (i + 1) (lit "Tên hàm quá ngắn: " ++ nth 0 groups []) low]
   | None => []
   end)
  ++ (match Re.rematch Re.short_class_line line with
      | Some groups =>
          [Smell short_name (i + 1) (lit "Tên lớp quá ngắn: " ++ nth 0 groups []) low]
      | None => []
      end).

Fixpoint scan_short_names (i : Z) (lines : list str) : list smell :=
  match lines with
  | [] => []
  | line :: rest => short_names i line ++ scan_short_names (i + 1)%Z rest
  end.

End SmellVocabulary.

Section MatcherVocabulary.
Context {E : Type} `{Countable E}.

(** The index list of an element: increasing, and exactly its positions. *)
Definition index_list (l : list E) (x : E) (js : list Z) : Prop :=
  StronglySorted Z.lt js /\ forall j, j ∈ js <-> Difflib.at_index l j = Some x.

(** The value [find_longest_match] computes at column [j]: one more than the
    entry of the previous row at [j - 1]. *)
Definition cell (prev : gmap Z Z) (j : Z) : Z := (default 0 (prev !! (j - 1)) + 1)%Z.

(** One round of the inner loop, for a column inside the range. *)
Definition row_step (i : Z) (prev : gmap Z Z) (acc : gmap Z Z * Difflib.block) (j : Z)
    : gmap Z Z * Difflib.block :=
  let '(new, (besti, bestj, bestsize)) := acc in
  (<[j := cell prev j]> new,
   if (bestsize <? cell prev j)%Z
   then (i - cell prev j + 1, j - cell prev j + 1, cell prev j)%Z
   else (besti, bestj, bestsize)).

Variable s : list E.

(** An element is rare when [b2j] lists it: it occurs, and not too often. *)
Definition rare (x : E) : bool :=
  bool_decide (default [] (Difflib.b2j s !! x) ≠ []).

(** The number of rare elements in a row at the head of [l]. *)
Fixpoint lead (l : list E) : Z :=
  match l with
  | [] => 0
  | x :: l' => if rare x then lead l' + 1 else 0
  end%Z.

(** The number of rare elements in a row ending at position [i]. *)
Definition run (i : Z) : Z := lead (reverse (take (Z.to_nat (i + 1)) s)).

(** What is known of a row once it has been read. *)
Definition row_ok (r : Z) (row : gmap Z Z) : Prop :=
  (forall j, 0 <= default 0 (row !! j) /\ default 0 (row !! j) <= run j
             /\ default 0 (row !! j) <= run r)%Z
  /\ default 0%Z (row !! r) = run r.

(** The best block stays on the diagonal, and is no shorter than any run of
    rare elements read so far. *)
Definition best_ok (r : Z) (best : Difflib.block) : Prop :=
  let '(bi, bj, bs) := best in
  (bi = bj /\ 0 <= bi /\ 0 <= bs /\ bi + bs <= r + 1
   /\ forall i, 0 <= i <= r -> run i <= bs)%Z.

End MatcherVocabulary.

(** Division and remainder by constants, for [lia]. *)
Ltac Zify.zify_post_hook ::= Z.to_euclidean_division_equations.

(** Settle the comparisons of the goal by [lia]. *)
Ltac n_tests :=
  repeat match goal with
  | |- context [(?a <? ?b)%N] =>
      first [ replace (a <? b)%N with true by (symmetry; apply N.ltb_lt; lia)
            | replace (a <? b)%N with false by (symmetry; apply N.ltb_ge; lia) ]
  | |- context [(?a <=? ?b)%N] =>
      first [ replace (a <=? b)%N with true by (symmetry; apply N.leb_le; lia)
            | replace (a <=? b)%N with false by (symmetry; apply N.leb_gt; lia) ]
  | |- context [(?a =? ?b)%N] =>
      first [ replace (a =? b)%N with true by (symmetry; apply N.eqb_eq; lia)
            | replace (a =? b)%N with false by (symmetry; apply N.eqb_neq; lia) ]
  end.

(** ** More of [str] and [re]

    What the remaining utilities of [ultis.py] call. *)

Module PyText.

(** [s[:k]]: a negative [k] counts from the end; out of range is clamped. *)
Definition slice_to {A} (l : list A) (k : Z) : list A :=
  take (Z.to_nat (if (k <? 0)%Z then (k + Z.of_nat (length l))%Z else k)) l.

(** [s.replace(old, new)] for a one-character [old]. *)
Definition replace_char (s : str) (old : N) (new : str) : str :=
  flat_map (fun c => if c =? old then new else [c]) s.

(** [s.strip(chars)] *)
Fixpoint lstrip_chars (chars : str) (s : str) : str :=
  match s with
  | c :: s' => if bool_decide (c ∈ chars) then lstrip_chars chars s' else s
  | [] => []
  end.

Definition rstrip_chars (chars : str) (s : str) : str :=
  rev (lstrip_chars chars (rev s)).

Definition strip_chars (chars : str) (s : str) : str :=
  rstrip_chars chars (lstrip_chars chars s).

(** [s.split()]: the runs of characters that are not whitespace. [cur] is
    the run being read, reversed. *)
Fixpoint split_from (cur : str) (s : str) : list str :=
  match s with
  | [] => match cur with [] => [] | _ => [rev cur] end
  | c :: s' =>
      if PyStr.isspace c then
        match cur with
        | [] => split_from [] s'
        | _ => rev cur :: split_from [] s'
        end
      else split_from (c :: cur) s'
  end.

Definition split (s : str) : list str := split_from [] s.

(** [format(z, '03d')]: at least three characters, the sign included, filled
    with zeros after the sign. *)
Definition format_03d (z : Z) : str :=
  let sign : str := if (z <? 0)%Z then [45] else [] in
  let digits := PyStr.str_of_N (Z.to_N (Z.abs z)) in
  sign ++ repeat 48 (3 - length sign - length digits)%nat ++ digits.

End PyText.

Module ReScan.

(** What [re.sub] and [re.findall] see of a subject: the characters outside
    every match, and the matches with their groups. *)
Inductive token : Type :=
| Text (c : N)
| Match (groups : list str).

Section WithUnicode.
Context `{UnicodeDB}.

(** The end of the first match of [r] at the position [(prev, s)]; an empty
    match is passed over when [must_advance] is set. *)
Definition match_at (r : Re.regex) (prev : option N) (s : str) (must_advance : bool)
    : option Re.mstate :=
  Re.rmatch r (Re.MState prev s [])
    (fun st' =>
       if must_advance && bool_decide (length (Re.ms_rest st') = length s)
       then None else Some st').

(** The scan shared by [re.sub], [re.findall] and [re.finditer]: leftmost
    matches that do not overlap. After an empty match the search resumes at
    the same position for a match that is not empty, then moves on. [skip]
    counts the characters still inside the last match. *)
Fixpoint scan (r : Re.regex) (prev : option N) (s : str) (skip : nat) : list token :=
  let inside (k : nat) : list token :=
    match s with
    | c :: s' => scan r (Some c) s' k
    | [] => []
    end in
  let outside : list token :=
    match s with
    | c :: s' => Text c :: scan r (Some c) s' 0
    | [] => []
    end in
  match skip with
  | S k => inside k
  | O =>
      match match_at r prev s false with
      | None => outside
      | Some st1 =>
          match (length s - length (Re.ms_rest st1))%nat with
          | S k1 => Match (Re.ms_groups st1) :: inside k1
          | O =>
              Match (Re.ms_groups st1) ::
              match match_at r prev s true with
              | Some st2 =>
                  Match (Re.ms_groups st2)
                  :: inside (length s - length (Re.ms_rest st2) - 1)%nat
              | None => outside
              end
          end
      end
  end.

(** [re.sub(r, repl, s)] for a replacement without group references. *)
Definition sub (r : Re.regex) (repl : str) (s : str) : str :=
  flat_map (fun t => match t with Text c => [c] | Match _ => repl end)
           (scan r None s 0).

(** [re.findall(r, s)] for a pattern with one group: the group of each match. *)
Definition findall (r : Re.regex) (s : str) : list str :=
  omap (fun t => match t with Text _ => None | Match g => Some (nth 0 g []) end)
       (scan r None s 0).

(** [[^a-z0-9]+] *)
Definition not_slug_char (c : N) : bool :=
  negb (((97 <=? c) && (c <=? 122)) || ((48 <=? c) && (c <=? 57))).

Definition not_slug : Re.regex := Re.Plus (Re.Cls not_slug_char).

(** [[^@]+@[^@]+\.[^@]+] *)
Definition not_at (c : N) : bool := negb (c =? 64).

Definition email : Re.regex :=
  Re.Seq (Re.Plus (Re.Cls not_at)) (Re.Seq (Re.Chr 64)
  (Re.Seq (Re.Plus (Re.Cls not_at)) (Re.Seq (Re.Chr 46) (Re.Plus (Re.Cls not_at))))).

(** [(TASK-\d{3})] *)
Definition task_reference : Re.regex :=
  Re.Grp (Re.Seq (Re.Lit "TASK-") (Re.Seq Re.digit (Re.Seq Re.digit Re.digit))).

(** [r'\b' + keyword + r'\b'] *)
Definition keyword (kw : string) : Re.regex :=
  Re.Seq Re.WordB (Re.Seq (Re.Lit kw) Re.WordB).

End WithUnicode.

End ReScan.


(** ** The other utilities of [ultis.py] *)

(** The order in which [list(set(l))] enumerates the distinct elements of
    [l] follows the hashes of the strings, which change from one run to the
    next; it is a parameter. *)
Class SetOrder := {
  list_of_set : list str -> list str;
}.

(** What Python promises of it: every element once, and no other. *)
Definition set_order_lawful `{SetOrder} : Prop :=
  forall l : list str,
    NoDup (list_of_set l) /\ forall x, x ∈ list_of_set l <-> x ∈ l.

(** An order to instantiate the parameter: by first occurrence. *)
Fixpoint first_seen (seen : list str) (l : list str) : list str :=
  match l with
  | [] => []
  | x :: l' =>
      if bool_decide (x ∈ seen) then first_seen seen l'
      else x :: first_seen (x :: seen) l'
  end.

Definition insertion_order : SetOrder := {| list_of_set := first_seen [] |}.

(** A task of [task_list]: the keys [guess_related_tasks] reads. *)
Record task : Type := Task {
  task_id : str;
  task_title : str;
}.


(** The loop state of [calculate_code_complexity]. *)
Record complexity_state : Type := ComplexityState {
  indent_stack : list Z;
  max_indent : Z;
  branch_count : Z;
}.

(** [invalid_chars] of [sanitize_filename]: the characters of
    [<>:/\|?*] and the double quote. *)
Definition invalid_chars : str := [60; 62; 58; 34; 47; 92; 124; 63; 42].

(** [os.path.splitext(p)] ([genericpath._splitext]): the extension starts at
    the last dot of the last component, unless that component is dots up to
    it. *)
Definition splitext `{OsPath} (p : str) : str * str :=
  let sepIndex := sep_index p in
  let dotIndex := PyStr.rfind p 46 in
  if (sepIndex <? dotIndex)%Z then
    let between := Difflib.slice p (sepIndex + 1) dotIndex in
    if forallb (N.eqb 46) between then (p, [])
    else (take (Z.to_nat dotIndex) p, drop (Z.to_nat dotIndex) p)
  else (p, []).

Definition branch_keywords : list string :=
  ["if"; "elif"; "for"; "while"; "except"; "case"]%string.

(** The literals [0.7] and [0.3]: the doubles nearest to them. *)
Definition weight_cyclomatic : float := 0x1.6666666666666p-1%float.
Definition weight_nesting : float := 0x1.3333333333333p-2%float.

Section MoreUltis.
Context `{UnicodeDB} `{SetOrder} `{OsPath}.

Definition slugify (text : str) : str :=
  let text := PyStr.lower text in
  let text := ReScan.sub ReScan.not_slug (lit "-") text in
  PyText.strip_chars (lit "-") text.

Definition validate_email (email : str) : bool :=
  is_some (Re.rematch ReScan.email email).

(** [timestamp] is what the clock gives: [int(time.time() * 1000)]. *)
Definition generate_task_id (timestamp : Z) (prefix : str) : str :=
  let task_number := (timestamp mod 1000)%Z in
  prefix ++ lit "-" ++ PyText.format_03d task_number.

Definition extract_task_references (content : str) : list str :=
  let matches := ReScan.findall ReScan.task_reference content in
  list_of_set matches.

(** One round of the loop of [guess_related_tasks]. *)
Definition guess_step (content : str) (related_tasks : list str) (t : task) : list str :=
  if bool_decide (task_id t ∈ related_tasks) then related_tasks
  else
    let title_words := PyText.split (PyStr.lower (task_title t)) in
    let significant_words := filter (fun w => (3 < length w)%nat) title_words in
    match significant_words with
    | [] => related_tasks
    | _ =>
        let matches :=
          length (filter (fun word =>
                            PyStr.contains (PyStr.lower content) (PyStr.lower word) = true)
                         significant_words) in
        if (2 <=? matches)%nat
           || ((length significant_words =? 1)%nat && (matches =? 1)%nat)
        then related_tasks ++ [task_id t]
        else related_tasks
    end.

Definition guess_related_tasks (content : str) (task_list : list task) : list str :=
  let direct_refs := extract_task_references content in
  foldl (guess_step content) direct_refs task_list.

(** *** [calculate_code_complexity] *)

(** [while indent_stack and indent < indent_stack[-1]: indent_stack.pop()],
    on the stack read from its top. *)
Fixpoint pop_above (indent : Z) (rstack : list Z) : list Z :=
  match rstack with
  | top :: rest => if (indent <? top)%Z then pop_above indent rest else rstack
  | [] => []
  end.

(** The update of [indent_stack] for a line indented by [indent]. *)
Definition update_indent_stack (indent : Z) (stack : list Z) : result (list Z) :=
  top ← PyList.get stack (-1);
  if (top <? indent)%Z then Ok (stack ++ [indent])
  else if (indent <? top)%Z then
    let stack := rev (pop_above indent (rev stack)) in
    match stack with
    | [] => Ok (stack ++ [indent])
    | _ =>
        top ← PyList.get stack (-1);
        if bool_decide (indent ≠ top) then Ok (stack ++ [indent]) else Ok stack
    end
  else Ok stack.

(** The branch keywords counted on a stripped line. *)
Definition count_branches (stripped : str) : Z :=
  Z.of_nat (length (filter (fun kw =>
      is_some (Re.search (ReScan.keyword kw) stripped)
      && negb (PyStr.startswith stripped (lit "def "))
      && negb (PyStr.startswith stripped (lit "class ")) = true) branch_keywords)).

(** One round of the loop over the lines. *)
Definition complexity_step (st : complexity_state) (line : str) : result complexity_state :=
  let stripped := PyStr.strip line in
  if bool_decide (stripped = []) || PyStr.startswith stripped (lit "#") then Ok st
  else
    let indent := (Z.of_nat (length line) - Z.of_nat (length (PyStr.lstrip line)))%Z in
    stack ← update_indent_stack indent (indent_stack st);
    Ok (ComplexityState stack
          (Z.max (max_indent st) (Z.of_nat (length stack) - 1))
          (branch_count st + count_branches stripped)%Z).

Fixpoint complexity_loop (st : complexity_state) (lines : list str) : result complexity_state :=
  match lines with
  | [] => Ok st
  | line :: rest => st' ← complexity_step st line; complexity_loop st' rest
  end.

Definition calculate_code_complexity (content : str) : result (gmap string number) :=
  match content with
  | [] =>
      Ok (list_to_map [("cyclomatic_complexity", Int 0); ("nesting_depth", Int 0);
                       ("complexity_score", Int 0)]%string)
  | _ =>
      let lines := PyStr.splitlines content in
      st ← complexity_loop (ComplexityState [0%Z] 0 0) lines;
      let cyclomatic_complexity := (branch_count st + 1)%Z in
      let complexity_score :=
        (Difflib.float_of_Z cyclomatic_complexity * weight_cyclomatic
         + Difflib.float_of_Z (max_indent st) * weight_nesting)%float in
      Ok (list_to_map [("cyclomatic_complexity", Int cyclomatic_complexity);
                       ("nesting_depth", Int (max_indent st));
                       ("branch_count", Int (branch_count st));
                       ("complexity_score", Float (PyFloat.round2 complexity_score))]%string)
  end.

(** *** Text and file names *)

(** [truncate_text(text, max_length=100, suffix='...')] *)
Definition truncate_text (text : str) (max_length : Z) (suffix : str) : str :=
  match text with
  | [] => []
  | _ =>
      if (Z.of_nat (length text) <=? max_length)%Z then text
      else PyText.slice_to text (max_length - Z.of_nat (length suffix)) ++ suffix
  end.

Definition sanitize_filename (filename : str) : str :=
  let filename :=
    foldl (fun name char => PyText.replace_char name char (lit "_")) filename invalid_chars in
  let filename :=
    if (255 <? Z.of_nat (length filename))%Z then
      let '(name, ext) := splitext filename in
      PyText.slice_to name (255 - Z.of_nat (length ext)) ++ ext
    else filename in
  let filename := PyStr.strip filename in
  match filename with
  | [] => lit "untitled"
  | _ => filename
  end.

End MoreUltis.

(** * Vocabulary of the statements on the other utilities *)

(** The index of the last dot of a name, or -1. *)
Definition last_dot (filename : str) : Z := PyStr.rfind filename 46.

(** The last dot of [filename], if any, is among its last 255 characters:
    its extension has at most 255 characters. *)
Definition short_extension (filename : str) : Prop :=
  (last_dot filename < 0 \/ Z.of_nat (length filename) - 255 <= last_dot filename)%Z.

(** A database that knows the Greek alphabet only: the capitals from alpha
    to omega, and their small letters. *)
Definition greek_capital (c : N) : bool :=
  (0x391 <=? c) && (c <=? 0x3A9) && negb (c =? 0x3A2).

Definition greek_small (c : N) : bool := (0x3B1 <=? c) && (c <=? 0x3C9).

Definition greek_db : UnicodeDB :=
  {| uni_alnum := fun c => greek_capital c || greek_small c;
     uni_decimal := fun _ => None;
     uni_upper := fun c =>
       if c =? 0x3C2 then [0x3A3] else if greek_small c then [c - 32] else [c];
     uni_lower := fun c => if greek_capital c then [c + 32] else [c];
     uni_cased := fun c => greek_capital c || greek_small c;
     uni_case_ignorable := fun _ => false |}.

(** A dictionary without NaN: every value equals itself. *)
Definition no_nan (m : gmap string number) : Prop :=
  map_Forall (fun _ v => PyNum.eqb v v = true) m.

(** What the replacements of [sanitize_filename] do to one character. *)
Definition clean_char (c : N) : N :=
  if bool_decide (c ∈ invalid_chars) then 95 else c.

(** A text whose only line terminator is the newline, and which does not end
    with one: what ['\n'.join(text.splitlines())] gives back unchanged. *)
Definition plain_lines (s : str) : Prop :=
  Forall (fun c => PyStr.is_linebreak c = true -> c = 10) s /\ last s <> Some 10.

(** The counters of the metrics scan after [n] lines: the lines counted as
    functions, classes or imports are lines of no other bucket, and a TODO
    is counted on a comment line. *)
Definition counters_within (st : scan_state) (n : Z) : Prop :=
  (0 <= blank_lines st /\ 0 <= comment_lines st /\ 0 <= docstring_lines st
   /\ 0 <= function_count st /\ 0 <= class_count st /\ 0 <= import_count st
   /\ 0 <= todo_count st <= comment_lines st
   /\ blank_lines st + comment_lines st + docstring_lines st
      + function_count st + class_count st + import_count st <= n)%Z.

(** The severity the detector gives to each kind of smell. *)
Definition severity_of (k : smell_kind) : severity_level :=
  match k with
  | long_line | magic_number | short_name => low
  | global_variable | long_function | deep_nesting => medium
  end.

(** A record that points at one of the [n] lines, with the severity of its
    kind. *)
Definition well_placed (n : Z) (s : smell) : Prop :=
  (1 <= smell_line s <= n)%Z /\ smell_severity s = severity_of (smell_type s).

(** The state of the first loop of the detector before the line of index
    [i]: its records point at earlier lines, and so does the function being
    read. *)
Definition pass1_within (st : smell_state) (i : Z) : Prop :=
  Forall (well_placed i) (smells st)
  /\ (in_function st = true -> 0 <= function_start_line st < i)%Z.

(** ** What the matcher finds

    A relational reading of the patterns, against which the backtracking
    matcher is checked. *)

(** The repetition loop of the matcher, by itself. *)
Definition star_loop {A} (m : Re.mstate -> (Re.mstate -> option A) -> option A)
    (k : Re.mstate -> option A) : nat -> Re.mstate -> option A :=
  fix loop (fuel : nat) (st : Re.mstate) : option A :=
    match fuel with
    | O => k st
    | S fuel' =>
        match m st (fun st' =>
                if bool_decide (length (Re.ms_rest st') < length (Re.ms_rest st))%nat
                then loop fuel' st' else None) with
        | Some a => Some a
        | None => k st
        end
    end.

Section RegexSemantics.
Context `{UnicodeDB}.

(** [matches r st st']: the pattern [r] can take the matcher from the
    position [st] to the position [st']. *)
Inductive matches : Re.regex -> Re.mstate -> Re.mstate -> Prop :=
| matches_eps st : matches Re.Eps st st
| matches_chr c st st' :
    Re.step_char (N.eqb c) st = Some st' -> matches (Re.Chr c) st st'
| matches_cls p st st' :
    Re.step_char p st = Some st' -> matches (Re.Cls p) st st'
| matches_seq r1 r2 st st1 st2 :
    matches r1 st st1 -> matches r2 st1 st2 -> matches (Re.Seq r1 r2) st st2
| matches_alt_l r1 r2 st st' : matches r1 st st' -> matches (Re.Alt r1 r2) st st'
| matches_alt_r r1 r2 st st' : matches r2 st st' -> matches (Re.Alt r1 r2) st st'
| matches_star_stop r st : matches (Re.Star r) st st
| matches_star_more r st st1 st2 :
    matches r st st1 ->
    (length (Re.ms_rest st1) < length (Re.ms_rest st))%nat ->
    matches (Re.Star r) st1 st2 ->
    matches (Re.Star r) st st2
| matches_grp r st st' :
    matches r st st' ->
    matches (Re.Grp r) st
      (Re.MState (Re.ms_prev st') (Re.ms_rest st')
                 (Re.ms_groups st' ++ [Re.consumed st st']))
| matches_bol st : Re.ms_prev st = None -> matches Re.Bol st st
| matches_wordb st : Re.at_word_boundary st = true -> matches Re.WordB st st.

End RegexSemantics.

(** The position reached from [st] by reading the word [w]. *)
Definition advance (st : Re.mstate) (w : str) : Re.mstate :=
  Re.MState (match last w with Some c => Some c | None => Re.ms_prev st end)
            (drop (length w) (Re.ms_rest st)) (Re.ms_groups st).

(** Patterns without groups and anchors, and the words they read. *)
Fixpoint plain (r : Re.regex) : bool :=
  match r with
  | Re.Eps | Re.Chr _ | Re.Cls _ => true
  | Re.Seq r1 r2 | Re.Alt r1 r2 => plain r1 && plain r2
  | Re.Star r' => plain r'
  | Re.Grp _ | Re.Bol | Re.WordB => false
  end.

Inductive reads : Re.regex -> str -> Prop :=
| reads_eps : reads Re.Eps []
| reads_chr c : reads (Re.Chr c) [c]
| reads_cls (p : N -> bool) c : p c = true -> reads (Re.Cls p) [c]
| reads_seq r1 r2 w1 w2 : reads r1 w1 -> reads r2 w2 -> reads (Re.Seq r1 r2) (w1 ++ w2)
| reads_alt_l r1 r2 w : reads r1 w -> reads (Re.Alt r1 r2) w
| reads_alt_r r1 r2 w : reads r2 w -> reads (Re.Alt r1 r2) w
| reads_star_stop r : reads (Re.Star r) []
| reads_star_more r w1 w2 :
    reads r w1 -> w1 <> [] -> reads (Re.Star r) w2 -> reads (Re.Star r) (w1 ++ w2).

Section TaskVocabulary.
Context `{UnicodeDB}.

(** A task reference: [TASK-] and three decimal digits. *)
Definition is_task_reference (x : str) : Prop :=
  exists d1 d2 d3, x = lit "TASK-" ++ [d1; d2; d3]
    /\ PyStr.isdecimal d1 = true /\ PyStr.isdecimal d2 = true /\ PyStr.isdecimal d3 = true.

(** The text starts with a task reference. *)
Definition task_shape (s : str) : bool :=
  match s with
  | c1 :: c2 :: c3 :: c4 :: c5 :: d1 :: d2 :: d3 :: _ =>
      (84 =? c1) && (65 =? c2) && (83 =? c3) && (75 =? c4) && (45 =? c5)
      && PyStr.isdecimal d1 && PyStr.isdecimal d2 && PyStr.isdecimal d3
  | _ => false
  end.

(** The references [re.findall] meets, from left to right; [skip] counts
    the characters still inside the last one. *)
Fixpoint task_scan (s : str) (skip : nat) : list str :=
  match s with
  | [] => []
  | c :: s' =>
      match skip with
      | S k => task_scan s' k
      | O => if task_shape s then take 8 s :: task_scan s' 7 else task_scan s' 0
      end
  end.

(** The test of [guess_related_tasks] on the title of a task. *)
Definition title_matches (content : str) (t : task) : bool :=
  let significant_words :=
    filter (fun w => (3 < length w)%nat) (PyText.split (PyStr.lower (task_title t))) in
  let matches :=
    length (filter (fun word =>
                      PyStr.contains (PyStr.lower content) (PyStr.lower word) = true)
                   significant_words) in
  bool_decide (significant_words <> [])
  && ((2 <=? matches)%nat || ((length significant_words =? 1)%nat && (matches =? 1)%nat)).

End TaskVocabulary.

(** ** Slugs *)

(** A character a slug keeps: [a-z0-9]. *)
Definition is_slug_char (c : N) : bool := negb (ReScan.not_slug_char c).

(** What [re.sub(r'[^a-z0-9]+', '-', s)] returns: every other run becomes
    one hyphen. [in_run] tells that the run being read has its hyphen. *)
Fixpoint dashed (in_run : bool) (s : str) : str :=
  match s with
  | [] => []
  | c :: s' =>
      if ReScan.not_slug_char c
      then if in_run then dashed true s' else 45 :: dashed true s'
      else c :: dashed false s'
  end.

(** Slug characters and hyphens, no two hyphens in a row; no hyphen first
    when [after_dash] is set. *)
Fixpoint hyphenated (after_dash : bool) (t : str) : bool :=
  match t with
  | [] => true
  | c :: t' =>
      if c =? 45 then negb after_dash && hyphenated true t'
      else is_slug_char c && hyphenated false t'
  end.

(** The text left after the characters of the class [p] at its head. *)
Fixpoint drop_while (p : N -> bool) (s : str) : str :=
  match s with
  | c :: s' => if p c then drop_while p s' else s
  | [] => []
  end.

(** The last character of that run, or [prev] if the run is empty. *)
Fixpoint run_last (p : N -> bool) (prev : option N) (s : str) : option N :=
  match s with
  | c :: s' => if p c then run_last p (Some c) s' else prev
  | [] => prev
  end.

(** ** Complexity *)

(** The width of the whitespace a line starts with. *)
Definition indentation (line : str) : Z :=
  (Z.of_nat (length line) - Z.of_nat (length (PyStr.lstrip line)))%Z.

(** The stack of indentations, read from its top [top]: it decreases
    strictly, down to zero. *)
Definition stack_ok (stack : list Z) (top : Z) : Prop :=
  exists below, rev stack = top :: below
    /\ StronglySorted (fun a b => b < a)%Z (top :: below)
    /\ last (top :: below) = Some 0%Z.

(** The state of the complexity loop after [n] lines indented by at most
    [deepest]. *)
Definition complexity_within (st : complexity_state) (n deepest : Z) : Prop :=
  (exists top, stack_ok (indent_stack st) top /\ top <= deepest)%Z
  /\ (0 <= max_indent st <= deepest)%Z
  /\ (0 <= branch_count st <= 6 * n)%Z.

(** ** Snapshots *)

(** The content [create_snapshot] works on: the one it is given, or else
    the one it reads. *)
Definition snapshot_text (w : world) (file_path : str) (content : option str) : option str :=
  match content with
  | Some c => Some c
  | None => safe_read_file w file_path
  end.

(** ** Replaying a diff *)

(** A line that, if it is a hunk header, gives a start in the new text of
    at least one (and of a size a list index can have). *)
Definition header_start_ok `{UnicodeDB} (line : str) : Prop :=
  forall groups, Re.rematch Re.hunk_header line = Some groups ->
    exists n, PyStr.int (nth 2 groups []) = Ok n /\ (1 <= n <= 2 ^ 62)%Z.

(** ** Matching blocks *)

Section BlockVocabulary.
Context {E : Type} `{Countable E}.
Variables a b : list E.

(** The [k] elements of [a] from [i] are the [k] elements of [b] from [j]. *)
Definition agree (i j k : Z) : Prop :=
  forall t, (0 <= t < k)%Z ->
    exists x, Difflib.at_index a (i + t) = Some x /\ Difflib.at_index b (j + t) = Some x.

(** A block that matches. *)
Definition block_sound (blk : Difflib.block) : Prop :=
  let '(i, j, k) := blk in (0 <= k)%Z /\ agree i j k.

(** The entries of a row of [find_longest_match] are lengths of matches
    that end on row [r]. *)
Definition row_sound (r : Z) (row : gmap Z Z) : Prop :=
  forall j v, row !! j = Some v -> (1 <= v)%Z /\ agree (r - v + 1) (j - v + 1) v.

End BlockVocabulary.

(** A range of the work list ends before another starts, in both
    sequences. *)
Definition range_before (q1 q2 : Z * Z * Z * Z) : Prop :=
  let '(_, ahi1, _, bhi1) := q1 in
  let '(alo2, _, blo2, _) := q2 in
  (ahi1 <= alo2 /\ bhi1 <= blo2)%Z.

Definition range_apart (q1 q2 : Z * Z * Z * Z) : Prop :=
  range_before q1 q2 \/ range_before q2 q1.

(** The range a block covers. *)
Definition block_range (blk : Difflib.block) : Z * Z * Z * Z :=
  let '(i, j, k) := blk in (i, i + k, j, j + k)%Z.

Definition block_before (x y : Difflib.block) : Prop :=
  range_before (block_range x) (block_range y).

Definition block_apart (x y : Difflib.block) : Prop :=
  range_apart (block_range x) (block_range y).

(** A block that is not empty. *)
Definition block_full (blk : Difflib.block) : Prop := (1 <= blk.2)%Z.

(** A range inside another. *)
Definition range_inside (q1 q2 : Z * Z * Z * Z) : Prop :=
  let '(alo1, ahi1, blo1, bhi1) := q1 in
  let '(alo2, ahi2, blo2, bhi2) := q2 in
  (alo2 <= alo1 /\ ahi1 <= ahi2 /\ blo2 <= blo1 /\ bhi1 <= bhi2)%Z.

(** The work list and the blocks found so far: the ranges are in order and
    inside the sequences, and ranges and blocks are pairwise apart. *)
Definition worklist_ok (la lb : Z) (queue : list (Z * Z * Z * Z))
    (acc : list Difflib.block) : Prop :=
  Forall (fun q => range_ok q /\ range_inside q (0, la, 0, lb)%Z) queue
  /\ Forall (fun blk => block_full blk /\ range_inside (block_range blk) (0, la, 0, lb)%Z) acc
  /\ ForallOrdPairs range_apart queue
  /\ ForallOrdPairs block_apart acc
  /\ Forall (fun q => Forall (fun blk => range_apart q (block_range blk)) acc) queue.

(** An opcode that copies. *)
Definition is_equal (c : Difflib.opcode) : Prop := c.1.1.1.1 = Difflib.Equal.

(** Where the opcodes end after the blocks, from the cursor [(i, j)]. *)
Fixpoint cursor_after (i j : Z) (blocks : list Difflib.block) : Z * Z :=
  match blocks with
  | [] => (i, j)
  | (ai, bj, size) :: rest => cursor_after (ai + size) (bj + size) rest
  end.

(** * Properties *)

(** * UTF-8 *)

Section Utf8Facts.
#[local] Open Scope N_scope.





Lemma decode_encode_char (c : N) (b : bytes) (rest : bytes) :
  Utf8.encode_char c = Ok b ->
  Utf8.decode (b ++ rest) = (s ← Utf8.decode rest; Ok (c :: s)).
Proof.
  unfold Utf8.encode_char, is_surrogate, max_code_point.
  destruct (c <? 128) eqn:H1.
  { intros [= <-]. simpl. rewrite H1. reflexivity. }
  apply N.ltb_ge in H1.
  destruct (c <? 2048) eqn:H2.
  { apply N.ltb_lt in H2. intros [= <-].
    cbn [app Utf8.decode]. unfold Utf8.in_range, Utf8.is_cont, Utf8.cont.
    n_tests. cbn [andb].
    replace ((192 + c / 64 - 192) * 64 + (128 + c mod 64 - 128)) with c by lia.
    reflexivity. }
  apply N.ltb_ge in H2.
  destruct (c <? 65536) eqn:H3.
  { apply N.ltb_lt in H3.
    destruct ((55296 <=? c) && (c <=? 57343)) eqn:H4; [discriminate|].
    intros [= <-].
    assert (c < 55296 \/ 57343 < c) as Hs.
    { apply andb_false_iff in H4 as [H4|H4]; [left; apply N.leb_gt in H4|right; apply N.leb_gt in H4]; lia. }
    cbn [app Utf8.decode]. unfold Utf8.in_range, Utf8.is_cont, Utf8.cont.
    n_tests. cbn [andb].
    destruct (N.eqb_spec (224 + c / 4096) 224); destruct (N.eqb_spec (224 + c / 4096) 237);
      n_tests; cbn [andb];
      replace ((224 + c / 4096 - 224) * 4096 + (128 + (c / 64) mod 64 - 128) * 64 + (128 + c mod 64 - 128)) with c by lia;
      reflexivity. }
  apply N.ltb_ge in H3.
  destruct (c <=? 1114111) eqn:H5; [|discriminate].
  apply N.leb_le in H5. intros [= <-].
  cbn [app Utf8.decode]. unfold Utf8.in_range, Utf8.is_cont, Utf8.cont.
  n_tests. cbn [andb].
  destruct (N.eqb_spec (240 + c / 262144) 240); destruct (N.eqb_spec (240 + c / 262144) 244);
    n_tests; cbn [andb];
    replace ((240 + c / 262144 - 240) * 262144 + (128 + (c / 4096) mod 64 - 128) * 4096
             + (128 + (c / 64) mod 64 - 128) * 64 + (128 + c mod 64 - 128)) with c by lia;
    reflexivity.
Qed.

Lemma encode_char_scalar (c : N) :
  is_scalar c = true -> exists b, Utf8.encode_char c = Ok b.
Proof.
  unfold is_scalar, is_code_point, Utf8.encode_char.
  intros [Hc Hs]%andb_true_iff. apply negb_true_iff in Hs.
  rewrite Hs, Hc. repeat case_match; eauto.
Qed.

Lemma encode_char_raises (c : N) :
  is_scalar c = false -> Utf8.encode_char c = Raise UnicodeEncodeError.
Proof.
  unfold is_scalar, is_code_point, Utf8.encode_char, is_surrogate, max_code_point.
  intros Hc.
  destruct (c <=? 1114111) eqn:H1; cbn [andb] in Hc.
  - apply negb_false_iff in Hc. rewrite Hc.
    apply andb_true_iff in Hc as [Ha Hb].
    apply N.leb_le in Ha, Hb. apply N.leb_le in H1.
    n_tests. reflexivity.
  - apply N.leb_gt in H1. n_tests. cbn [andb]. reflexivity.
Qed.

Lemma encode_encodable (s : str) :
  encodable s -> exists b, Utf8.encode s = Ok b.
Proof.
  induction 1 as [|c s Hc Hs [bs IH]]; cbn [Utf8.encode]; [eauto|].
  destruct (encode_char_scalar c Hc) as [b ->]. rewrite IH. cbn. eauto.
Qed.

(** Strict encoding succeeds exactly on the strings without lone surrogates
    (and without values above U+10FFFF, which no [str] holds). *)
Lemma encode_ok_iff (s : str) :
  is_ok (Utf8.encode s) = true <-> encodable s.
Proof.
  split.
  - induction s as [|c s IH]; cbn [Utf8.encode]; intros Hok; [constructor|].
    destruct (is_scalar c) eqn:Hc.
    + destruct (Utf8.encode_char c); [|discriminate].
      cbn in Hok. destruct (Utf8.encode s); [|discriminate].
      constructor; [exact Hc|]. apply IH. reflexivity.
    + rewrite (encode_char_raises c Hc) in Hok. discriminate.
  - intros [b ->]%encode_encodable. reflexivity.
Qed.

Lemma decode_encode (s : str) (b : bytes) :
  Utf8.encode s = Ok b -> Utf8.decode b = Ok s.
Proof.
  revert b. induction s as [|c s IH]; cbn [Utf8.encode]; intros b.
  - intros [= <-]. reflexivity.
  - destruct (Utf8.encode_char c) as [bc|] eqn:Hc; [|discriminate].
    cbn. destruct (Utf8.encode s) as [bs|]; [|discriminate].
    cbn. intros [= <-].
    rewrite (decode_encode_char c bc bs Hc), (IH bs eq_refl). reflexivity.
Qed.

End Utf8Facts.

(** * MD5 digests *)

Section Digests.
#[local] Open Scope N_scope.



Lemma hex_digit_lower (n : N) : n < 16 -> is_lower_hex (hex_digit n) = true.
Proof.
  intros Hn. unfold is_lower_hex, hex_digit.
  destruct (N.ltb_spec n 10); n_tests; reflexivity.
Qed.

Lemma bytes_hex_length (bs : bytes) : length (bytes_hex bs) = (2 * length bs)%nat.
Proof.
  unfold bytes_hex. induction bs as [|b bs IH]; cbn [flat_map app length]; lia.
Qed.

Lemma bytes_hex_lower (bs : bytes) :
  Forall (fun c => is_lower_hex c = true) (bytes_hex bs).
Proof.
  unfold bytes_hex. induction bs as [|b bs IH]; cbn [flat_map app]; [constructor|].
  repeat constructor; [apply hex_digit_lower; lia..|exact IH].
Qed.

Lemma digest_length (msg : bytes) : length (MD5.digest msg) = 16%nat.
Proof.
  unfold MD5.digest. destruct (MD5.blocks _ _ _) as [a b c d].
  rewrite !length_app. unfold MD5.le_bytes. rewrite !length_map, !length_seq. reflexivity.
Qed.

Lemma hexdigest_length (msg : bytes) : length (MD5.hexdigest msg) = 32%nat.
Proof. unfold MD5.hexdigest. rewrite bytes_hex_length, digest_length. reflexivity. Qed.

End Digests.

Section Codec.
Context `{UnicodeDB} `{Zlib}.

(** C2 (as amended): with a lossless zlib, [decompress_content] undoes
    [compress_content] on every string that strict UTF-8 can encode, that is,
    every string without a lone surrogate; the empty string and non-ASCII
    text are among them. *)
Theorem C2_codec_roundtrip (s : str) :
  zlib_lossless -> encodable s ->
  compress_content s ≫= decompress_content = Ok s.
Proof.
  intros Hz [b Hb]%encode_encodable.
  unfold compress_content, decompress_content.
  rewrite Hb. cbn. rewrite Hz. cbn. apply decode_encode, Hb.
Qed.

(** C10 (as amended): on every string that strict UTF-8 can encode,
    [compute_file_hash] returns the MD5 digest of the UTF-8 encoding, written
    as exactly 32 lowercase hexadecimal characters; equal strings get equal
    digests. *)
Theorem C10_hash_shape (s : str) :
  encodable s ->
  exists b h,
    Utf8.encode s = Ok b /\ compute_file_hash s = Ok h /\ h = MD5.hexdigest b
    /\ length h = 32%nat /\ Forall (fun c => is_lower_hex c = true) h
    /\ forall s' : str, s' = s -> compute_file_hash s' = Ok h.
Proof.
  intros [b Hb]%encode_encodable.
  exists b, (MD5.hexdigest b). unfold compute_file_hash. rewrite Hb. cbn.
  repeat split; [apply hexdigest_length|apply bytes_hex_lower|].
  intros s' ->. by rewrite Hb.
Qed.

End Codec.

(** * Line metrics *)


Section Metrics.
Context `{UnicodeDB}.
#[local] Open Scope Z_scope.

Lemma scan_line_buckets (st : scan_state) (line : str) (n : Z) :
  buckets_within st n -> buckets_within (scan_line st line) (n + 1).
Proof.
  unfold buckets_within, scan_line. destruct st as [bl cm ds fc cc ic td lens ind delim].
  cbn [blank_lines comment_lines docstring_lines].
  intros (Hb & Hc & Hd & Hsum).
  repeat case_match; cbn [blank_lines comment_lines docstring_lines]; lia.
Qed.

Lemma scan_lines_buckets (lines : list str) (st : scan_state) (n : Z) :
  buckets_within st n ->
  buckets_within (foldl scan_line st lines) (n + Z.of_nat (length lines)).
Proof.
  revert st n. induction lines as [|line lines IH]; intros st n Hst; cbn [foldl length].
  - replace (n + Z.of_nat 0) with n by lia. exact Hst.
  - replace (n + Z.of_nat (S (length lines))) with (n + 1 + Z.of_nat (length lines)) by lia.
    apply IH, scan_line_buckets, Hst.
Qed.

Lemma metrics_dict_lookup (t c cm b d f cl im td mx : Z) (avg ratio : number) :
  let m := metrics_dict t c cm b d f cl im td mx avg ratio in
  m !! "total_lines"%string = Some (Int t) /\ m !! "code_lines"%string = Some (Int c)
  /\ m !! "comment_lines"%string = Some (Int cm) /\ m !! "blank_lines"%string = Some (Int b)
  /\ m !! "docstring_lines"%string = Some (Int d).
Proof. repeat split; reflexivity. Qed.

(** C3: in the dictionary [count_code_metrics] returns, [total_lines] is the
    sum of [code_lines], [comment_lines], [blank_lines] and [docstring_lines],
    and none of the four is negative. *)
Theorem C3_metrics_buckets (content : str) :
  exists total code comment blank docstring : Z,
    let m := count_code_metrics content in
    m !! "total_lines"%string = Some (Int total)
    /\ m !! "code_lines"%string = Some (Int code)
    /\ m !! "comment_lines"%string = Some (Int comment)
    /\ m !! "blank_lines"%string = Some (Int blank)
    /\ m !! "docstring_lines"%string = Some (Int docstring)
    /\ total = code + comment + blank + docstring
    /\ 0 <= code /\ 0 <= comment /\ 0 <= blank /\ 0 <= docstring.
Proof.
  unfold count_code_metrics. destruct content as [|c content].
  - exists 0, 0, 0, 0, 0. cbn zeta. 
    destruct (metrics_dict_lookup 0 0 0 0 0 0 0 0 0 0 (Int 0) (Int 0))
      as (-> & -> & -> & -> & ->).
    repeat split; lia.
  - set (lines := PyStr.splitlines (c :: content)).
    set (st := foldl scan_line scan_init lines).
    assert (buckets_within st (0 + Z.of_nat (length lines))) as (Hb & Hc & Hd & Hsum).
    { apply scan_lines_buckets. unfold buckets_within, scan_init. cbn. lia. }
    eexists _, _, _, _, _. cbn zeta.
    match goal with |- context [metrics_dict ?t ?c ?cm ?b ?d ?f ?cl ?im ?td ?mx ?av ?ra] =>
      destruct (metrics_dict_lookup t c cm b d f cl im td mx av ra)
        as (-> & -> & -> & -> & ->) end.
    repeat split; lia.
Qed.

End Metrics.

(** * Order of the smell records *)


Section Smells.
Context `{UnicodeDB}.
#[local] Open Scope Z_scope.


Lemma of_kind_app p l1 l2 : of_kind p (l1 ++ l2) = of_kind p l1 ++ of_kind p l2.
Proof. apply filter_app. Qed.

Lemma of_kind_all p l :
  Forall (fun s => p (smell_type s) = true) l -> of_kind p l = l.
Proof.
  induction 1 as [|s l Hs Hl IH]; [reflexivity|].
  unfold of_kind in *. rewrite filter_cons_True by exact Hs. by rewrite IH.
Qed.

Lemma of_kind_none p l :
  Forall (fun s => p (smell_type s) = false) l -> of_kind p l = [].
Proof.
  induction 1 as [|s l Hs Hl IH]; [reflexivity|].
  unfold of_kind in *. rewrite filter_cons_False by (rewrite Hs; discriminate). exact IH.
Qed.


Lemma long_line_raises i line : raises long_line i (long_line_smell i line).
Proof. unfold raises, long_line_smell. case_match; repeat constructor. Qed.

Lemma global_variable_raises i line : raises global_variable i (global_variable_smell i line).
Proof. unfold raises, global_variable_smell. case_match; repeat constructor. Qed.

Lemma deep_nesting_raises i line : raises deep_nesting i (deep_nesting_smell i line).
Proof. unfold raises, deep_nesting_smell. case_match; repeat constructor. Qed.

Lemma magic_number_raises i line : raises magic_number i (magic_number_smell i line).
Proof. unfold raises, magic_number_smell. case_match; repeat constructor. Qed.

Lemma long_function_raises st :
  raises long_function (function_start_line st) (long_function_smell st).
Proof. unfold raises, long_function_smell. case_match; repeat constructor. Qed.

Lemma short_name_raises i line : raises short_name i (short_name_step i line).
Proof. unfold raises, short_name_step. repeat case_match; repeat constructor. Qed.

Lemma raises_of_kind p k i l :
  raises k i l -> of_kind p l = if p k then l else [].
Proof.
  intros Hl. destruct (p k) eqn:Hk.
  - apply of_kind_all. eapply Forall_impl; [exact Hl|]. by intros s [-> _].
  - apply of_kind_none. eapply Forall_impl; [exact Hl|]. by intros s [-> _].
Qed.

Lemma raises_lines k i l : raises k i l -> Forall (eq (i + 1)) (map smell_line l).
Proof.
  intros Hl. apply Forall_fmap. eapply Forall_impl; [exact Hl|].
  intros s [_ Hs]. cbn. by rewrite Hs.
Qed.


Lemma smell_line_step_of_kind p st i line :
  of_kind p (smells (smell_line_step st i line)) =
  of_kind p (smells st)
  ++ (if skipped line then []
      else of_kind p (long_line_smell i line) ++ of_kind p (global_variable_smell i line)
           ++ of_kind p (step_long_function st line)
           ++ of_kind p (deep_nesting_smell i line) ++ of_kind p (magic_number_smell i line)).
Proof.
  unfold smell_line_step, step_long_function.
  destruct (skipped line); [by rewrite app_nil_r|].
  destruct (Re.rematch Re.def_line line); cbn [smells]; by rewrite !of_kind_app.
Qed.

(** The lines the first loop reads, and what its one-line checks raise. *)
Lemma is_read_skipped line : is_read line = negb (skipped line).
Proof. reflexivity. Qed.

Lemma line_heuristics_eq i line :
  line_heuristics i line
  = if skipped line then []
    else long_line_smell i line ++ global_variable_smell i line
         ++ deep_nesting_smell i line ++ magic_number_smell i line.
Proof.
  unfold line_heuristics. rewrite is_read_skipped.
  destruct (skipped line) eqn:Hs; cbn [negb]; [done|].
  unfold magic_number_smell. unfold skipped in Hs. cbn zeta in Hs.
  apply orb_false_iff in Hs as [_ ->]. cbn [negb]. by rewrite andb_true_r.
Qed.

(** Part 1: the records of the one-line checks. *)
Lemma pass1_line_kinds lines st i :
  of_kind line_kind (smells (smell_pass1 st i lines)) =
  of_kind line_kind (smells st) ++ scan_heuristics i lines.
Proof.
  revert st i. induction lines as [|line lines IH]; intros st i; cbn [smell_pass1 scan_heuristics].
  - by rewrite app_nil_r.
  - rewrite IH, smell_line_step_of_kind, <- app_assoc. f_equal. f_equal.
    rewrite line_heuristics_eq. unfold step_long_function. destruct (skipped line); [done|].
    rewrite (raises_of_kind _ _ _ _ (long_line_raises i line)),
      (raises_of_kind _ _ _ _ (global_variable_raises i line)),
      (raises_of_kind _ _ _ _ (deep_nesting_raises i line)),
      (raises_of_kind _ _ _ _ (magic_number_raises i line)).
    cbn [line_kind].
    destruct (Re.rematch Re.def_line line);
      [rewrite (raises_of_kind _ _ _ _ (long_function_raises st))|]; done.
Qed.

Lemma line_heuristics_lines i line :
  Forall (eq (i + 1)) (map smell_line (line_heuristics i line)).
Proof.
  rewrite line_heuristics_eq. destruct (skipped line); [constructor|].
  rewrite !map_app, !Forall_app.
  repeat split; eapply raises_lines;
    [apply long_line_raises|apply global_variable_raises
    |apply deep_nesting_raises|apply magic_number_raises].
Qed.

Lemma scan_heuristics_lines i lines :
  Forall (Z.lt i) (map smell_line (scan_heuristics i lines)).
Proof.
  revert i. induction lines as [|line lines IH]; intros i; cbn [scan_heuristics]; [constructor|].
  rewrite map_app, Forall_app. split.
  - eapply Forall_impl; [apply line_heuristics_lines|]. intros; cbn beta in *; lia.
  - eapply Forall_impl; [apply IH|]. intros; cbn beta in *; lia.
Qed.

Lemma all_eq_sorted (z : Z) (l : list Z) : Forall (eq z) l -> StronglySorted Z.le l.
Proof.
  induction 1 as [|x l <- Hl IH]; constructor; [exact IH|].
  eapply Forall_impl; [exact Hl|]. intros; cbn beta in *; lia.
Qed.

Lemma scan_heuristics_sorted i lines : sorted_by_line (scan_heuristics i lines).
Proof.
  unfold sorted_by_line.
  revert i. induction lines as [|line lines IH]; intros i; cbn [scan_heuristics]; [constructor|].
  rewrite map_app. apply StronglySorted_app_2.
  - intros x1 x2 H1 H2.
    pose proof (line_heuristics_lines i line) as Ha. rewrite Forall_forall in Ha.
    pose proof (scan_heuristics_lines (i + 1) lines) as Hb. rewrite Forall_forall in Hb.
    specialize (Ha x1 H1). specialize (Hb x2 H2). lia.
  - eapply all_eq_sorted, line_heuristics_lines.
  - apply IH.
Qed.

(** Part 2: the long functions. A record is raised when the next [def] is
    met, for the line of the function that ends there. *)

Lemma long_function_smell_step st i line :
  long_functions_ordered st i ->
  long_functions_ordered (smell_line_step st i line) (i + 1).
Proof.
  intros (Hs & Hle & Hi). unfold long_functions_ordered.
  rewrite smell_line_step_of_kind. unfold sorted_by_line, step_long_function.
  unfold smell_line_step.
  destruct (skipped line); [rewrite app_nil_r; repeat split; auto; lia|].
  rewrite (raises_of_kind _ _ _ _ (long_line_raises i line)),
    (raises_of_kind _ _ _ _ (global_variable_raises i line)),
    (raises_of_kind _ _ _ _ (deep_nesting_raises i line)),
    (raises_of_kind _ _ _ _ (magic_number_raises i line)).
  cbn [is_kind bool_decide decide_rel app].
  destruct (Re.rematch Re.def_line line) as [groups|]; cbn [function_start_line].
  - rewrite (raises_of_kind _ _ _ _ (long_function_raises st)).
    cbn [is_kind bool_decide decide_rel app]. rewrite !app_nil_r.
    pose proof (raises_lines _ _ _ (long_function_raises st)) as Hlf.
    rewrite map_app. repeat split; [|rewrite Forall_app; split|lia].
    + apply StronglySorted_app_2; [|exact Hs|eapply all_eq_sorted, Hlf].
      intros x1 x2 H1 H2. rewrite Forall_forall in Hle, Hlf.
      specialize (Hle x1 H1). specialize (Hlf x2 H2). lia.
    + eapply Forall_impl; [exact Hle|]. intros; cbn beta in *; lia.
    + eapply Forall_impl; [exact Hlf|]. intros; cbn beta in *; lia.
  - cbn [of_kind filter app]. rewrite !app_nil_r. repeat split; auto; lia.
Qed.

Lemma pass1_long_functions lines st i :
  long_functions_ordered st i ->
  exists j, long_functions_ordered (smell_pass1 st i lines) j.
Proof.
  revert st i. induction lines as [|line lines IH]; intros st i Hst; cbn [smell_pass1]; [eauto|].
  eapply IH, long_function_smell_step, Hst.
Qed.

(** Part 3: the short names, raised by the second loop. *)
Lemma pass1_no_short_name lines st i :
  of_kind (is_kind short_name) (smells (smell_pass1 st i lines)) =
  of_kind (is_kind short_name) (smells st).
Proof.
  revert st i. induction lines as [|line lines IH]; intros st i; cbn [smell_pass1]; [done|].
  rewrite IH, smell_line_step_of_kind. unfold step_long_function.
  destruct (skipped line); [by rewrite app_nil_r|].
  rewrite (raises_of_kind _ _ _ _ (long_line_raises i line)),
    (raises_of_kind _ _ _ _ (global_variable_raises i line)),
    (raises_of_kind _ _ _ _ (deep_nesting_raises i line)),
    (raises_of_kind _ _ _ _ (magic_number_raises i line)).
  destruct (Re.rematch Re.def_line line);
    [rewrite (raises_of_kind _ _ _ _ (long_function_raises st))|];
    by rewrite app_nil_r.
Qed.

Lemma pass2_kind i lines :
  Forall (fun s => smell_type s = short_name) (smell_pass2 i lines).
Proof.
  revert i. induction lines as [|line lines IH]; intros i; cbn [smell_pass2]; [constructor|].
  rewrite Forall_app. split; [|apply IH].
  eapply Forall_impl; [apply short_name_raises|]. by intros s [-> _].
Qed.

Lemma pass2_lines i lines : Forall (Z.lt i) (map smell_line (smell_pass2 i lines)).
Proof.
  revert i. induction lines as [|line lines IH]; intros i; cbn [smell_pass2]; [constructor|].
  rewrite map_app, Forall_app. split.
  - eapply Forall_impl; [apply (raises_lines _ _ _ (short_name_raises i line))|]. intros; cbn beta in *; lia.
  - eapply Forall_impl; [apply IH|]. intros; cbn beta in *; lia.
Qed.

Lemma pass2_sorted i lines : sorted_by_line (smell_pass2 i lines).
Proof.
  unfold sorted_by_line.
  revert i. induction lines as [|line lines IH]; intros i; cbn [smell_pass2]; [constructor|].
  rewrite map_app. apply StronglySorted_app_2.
  - intros x1 x2 H1 H2.
    pose proof (raises_lines _ _ _ (short_name_raises i line)) as Ha. rewrite Forall_forall in Ha.
    pose proof (pass2_lines (i + 1) lines) as Hb. rewrite Forall_forall in Hb.
    specialize (Ha x1 H1). specialize (Hb x2 H2). lia.
  - eapply all_eq_sorted, raises_lines, short_name_raises.
  - apply IH.
Qed.

(** Part 4: no long function is missed. The records of the first loop and
    the record of the function it ends in are those the text calls for. *)
Lemma pass1_long_functions_all lines st i :
  of_kind (is_kind long_function)
    (smells (smell_pass1 st i lines) ++ long_function_smell (smell_pass1 st i lines))
  = of_kind (is_kind long_function) (smells st) ++ pending st lines ++ long_functions i lines.
Proof.
  revert st i. induction lines as [|line lines IH]; intros st i;
    cbn [smell_pass1 long_functions body_length].
  - rewrite of_kind_app, (raises_of_kind _ _ _ _ (long_function_raises st)), app_nil_r.
    cbn [is_kind bool_decide decide_rel].
    f_equal. unfold pending, long_function_smell. cbn [body_length].
    by rewrite Z.add_0_r.
  - rewrite IH, smell_line_step_of_kind. unfold step_long_function, defines, pending.
    unfold smell_line_step. cbn [body_length]. rewrite is_read_skipped.
    destruct (skipped line); cbn [negb]; [cbn [app]; by rewrite app_nil_r|].
    rewrite (raises_of_kind _ _ _ _ (long_line_raises i line)),
      (raises_of_kind _ _ _ _ (global_variable_raises i line)),
      (raises_of_kind _ _ _ _ (deep_nesting_raises i line)),
      (raises_of_kind _ _ _ _ (magic_number_raises i line)).
    change (is_kind long_function long_line) with false.
    change (is_kind long_function global_variable) with false.
    change (is_kind long_function deep_nesting) with false.
    change (is_kind long_function magic_number) with false.
    destruct (Re.rematch Re.def_line line) as [groups|];
      cbn [is_some in_function function_lines function_start_line current_function
           andb app].
    + rewrite (raises_of_kind _ _ _ _ (long_function_raises st)).
      change (is_kind long_function long_function) with true. cbv iota.
      rewrite !app_nil_r, Z.add_0_r, Z.add_0_l.
      rewrite <- !app_assoc. f_equal.
    + cbn [of_kind filter]. rewrite !app_nil_r. f_equal.
      destruct (in_function st); cbn [andb]; [|done].
      by replace (function_lines st + 1 + body_length lines)
        with (function_lines st + (1 + body_length lines)) by lia.
Qed.

Lemma long_functions_lines i lines :
  Forall (Z.lt i) (map smell_line (long_functions i lines)).
Proof.
  revert i. induction lines as [|line lines IH]; intros i; cbn [long_functions]; [constructor|].
  rewrite map_app, Forall_app. split.
  - destruct (defines line); [|constructor]. destruct (50 <? _); [|constructor].
    constructor; [cbn; lia|constructor].
  - eapply Forall_impl; [apply IH|]. intros; cbn beta in *; lia.
Qed.

(** Part 5: the second loop raises what the text calls for. *)
Lemma pass2_short_names i lines : smell_pass2 i lines = scan_short_names i lines.
Proof.
  revert i. induction lines as [|line lines IH]; intros i;
    cbn [smell_pass2 scan_short_names]; [done|].
  by rewrite IH.
Qed.

Lemma pass1_first_loop_kinds lines st i :
  Forall (fun s => first_loop_kind (smell_type s) = true) (smells st) ->
  Forall (fun s => first_loop_kind (smell_type s) = true)
         (smells (smell_pass1 st i lines)).
Proof.
  revert st i. induction lines as [|line lines IH]; intros st i Hst; cbn [smell_pass1]; [done|].
  apply IH. unfold smell_line_step. destruct (skipped line); [done|].
  assert (forall k j l, k <> short_name -> raises k j l ->
            Forall (fun s => first_loop_kind (smell_type s) = true) l) as Hk.
  { intros k j l Hne Hl. eapply Forall_impl; [exact Hl|]. intros s [-> _].
    unfold first_loop_kind, is_kind. by rewrite bool_decide_eq_false_2. }
  destruct (Re.rematch Re.def_line line); cbn [smells]; rewrite !Forall_app;
    repeat split; try done;
    first [ by eapply Hk, long_line_raises | by eapply Hk, global_variable_raises
          | by eapply Hk, deep_nesting_raises | by eapply Hk, magic_number_raises
          | by eapply Hk, long_function_raises | constructor ].
Qed.

(** C7 (as amended): the list [detect_code_smells] returns is in line order
    pass by pass, and no record is merged or dropped. The [short_name]
    records come last, after every record of the first loop. The records of
    the one-line checks are, in order, one record for each check that fires
    on each scanned line; the [long_function] records are, in order, one for
    each function of more than 50 counted lines; the [short_name] records
    are, in order, one for each short name of a function or a class. Each of
    the three lists is in non-decreasing line order. *)
Theorem C7_smells_order_per_pass (content : str) :
  let found := detect_code_smells content in
  let lines := PyStr.splitlines content in
  found = of_kind first_loop_kind found ++ of_kind (is_kind short_name) found
  /\ of_kind line_kind found = scan_heuristics 0 lines
  /\ of_kind (is_kind long_function) found = long_functions 0 lines
  /\ of_kind (is_kind short_name) found = scan_short_names 0 lines
  /\ sorted_by_line (of_kind line_kind found)
  /\ sorted_by_line (of_kind (is_kind long_function) found)
  /\ sorted_by_line (of_kind (is_kind short_name) found).
Proof.
  cbn zeta. unfold detect_code_smells.
  destruct content as [|c content].
  { cbn. repeat split; constructor. }
  set (lines := PyStr.splitlines (c :: content)).
  set (st0 := SmellState [] [] 0 0 false).
  set (st := smell_pass1 st0 0 lines).
  assert (of_kind line_kind (smells st ++ long_function_smell st ++ smell_pass2 0 lines)
          = scan_heuristics 0 lines) as Hscan.
  { rewrite !of_kind_app. unfold st. rewrite pass1_line_kinds.
    rewrite (raises_of_kind _ _ _ _ (long_function_raises _)).
    rewrite (of_kind_none _ (smell_pass2 0 lines))
      by (eapply Forall_impl; [apply pass2_kind|]; by intros s ->).
    cbn. by rewrite !app_nil_r. }
  assert (of_kind (is_kind long_function)
            (smells st ++ long_function_smell st ++ smell_pass2 0 lines)
          = long_functions 0 lines) as Hlong.
  { rewrite app_assoc, of_kind_app. unfold st. rewrite pass1_long_functions_all.
    rewrite (of_kind_none _ (smell_pass2 0 lines))
      by (eapply Forall_impl; [apply pass2_kind|]; by intros s ->).
    cbn. by rewrite !app_nil_r. }
  assert (of_kind (is_kind short_name)
            (smells st ++ long_function_smell st ++ smell_pass2 0 lines)
          = scan_short_names 0 lines) as Hshort.
  { rewrite !of_kind_app. unfold st. rewrite pass1_no_short_name.
    rewrite (raises_of_kind _ _ _ _ (long_function_raises _)).
    rewrite (of_kind_all _ (smell_pass2 0 lines))
      by (eapply Forall_impl; [apply pass2_kind|]; by intros s ->).
    cbn. apply pass2_short_names. }
  split.
  { rewrite Hshort. rewrite !of_kind_app.
    rewrite (of_kind_all first_loop_kind (smells st))
      by (apply pass1_first_loop_kinds; constructor).
    rewrite (raises_of_kind _ _ _ _ (long_function_raises st)).
    rewrite (of_kind_none _ (smell_pass2 0 lines)).
    2:{ eapply Forall_impl; [apply pass2_kind|]. by intros s ->. }
    cbn [first_loop_kind is_kind bool_decide decide_rel negb].
    by rewrite app_nil_r, <- app_assoc, pass2_short_names. }
  split; [exact Hscan|]. split; [exact Hlong|]. split; [exact Hshort|].
  split; [rewrite Hscan; apply scan_heuristics_sorted|]. split.
  - destruct (pass1_long_functions lines st0 0) as (j & Hs & Hle & _).
    { unfold long_functions_ordered, sorted_by_line. cbn. repeat split; try constructor; lia. }
    fold st in Hs, Hle.
    rewrite !of_kind_app.
    rewrite (raises_of_kind _ _ _ _ (long_function_raises st)).
    rewrite (of_kind_none _ (smell_pass2 0 lines))
      by (eapply Forall_impl; [apply pass2_kind|]; by intros s ->).
    cbn [is_kind bool_decide decide_rel]. rewrite app_nil_r.
    unfold sorted_by_line in *. rewrite map_app.
    pose proof (raises_lines _ _ _ (long_function_raises st)) as Hlf.
    apply StronglySorted_app_2; [|exact Hs|eapply all_eq_sorted, Hlf].
    intros x1 x2 H1 H2. rewrite Forall_forall in Hle, Hlf.
    specialize (Hle x1 H1). specialize (Hlf x2 H2). lia.
  - rewrite !of_kind_app. unfold st. rewrite pass1_no_short_name.
    rewrite (raises_of_kind _ _ _ _ (long_function_raises _)).
    rewrite (of_kind_all _ (smell_pass2 0 lines))
      by (eapply Forall_impl; [apply pass2_kind|]; by intros s ->).
    cbn. apply pass2_sorted.
Qed.

End Smells.

(** * Binary64 arithmetic behind [ratio] *)

Section Binary64.
#[local] Open Scope Z_scope.




Lemma fexp_normal (x : Z) : -1021 <= x -> fexp prec emax x = x - 53.
Proof. unfold fexp, emin, prec, emax. lia. Qed.

(** A mantissa of 53 bits is kept as it is. *)
Lemma round_exact_53 (s : bool) (m : positive) (e : Z) :
  Zpos (digits2_pos m) = 53 -> -1074 <= e <= 971 ->
  round_exact s m e = S754_finite s m e.
Proof.
  intros Hd He. unfold round_exact, binary_round_aux, shr_fexp. cbn [Zdigits2]. rewrite Hd.
  rewrite fexp_normal by lia. replace (53 + e - 53 - e) with 0 by lia.
  cbn [shr shr_record_of_loc shr_m loc_of_shr_record round_nearest_even Zdigits2].
  rewrite Hd, fexp_normal by lia. replace (53 + e - 53 - e) with 0 by lia.
  cbn [shr shr_record_of_loc shr_m].
  replace (e <=? emax - prec) with true; [reflexivity|].
  symmetry. apply Z.leb_le. unfold emax, prec. lia.
Qed.

Lemma digits2_pos_iter_xO (p : positive) (k : positive) :
  digits2_pos (Pos.iter xO p k) = (digits2_pos p + k)%positive.
Proof.
  induction k as [|k IH] using Pos.peano_ind.
  - cbn. lia.
  - rewrite Pos.iter_succ. cbn [digits2_pos]. rewrite IH. lia.
Qed.

Lemma iter_xO_value (p k : positive) :
  Zpos (Pos.iter xO p k) = Zpos p * 2 ^ Zpos k.
Proof.
  induction k as [|k IH] using Pos.peano_ind.
  - cbn. lia.
  - rewrite Pos.iter_succ, Pos2Z.inj_succ, Z.pow_succ_r by lia.
    rewrite Pos2Z.inj_xO, IH. lia.
Qed.

(** [float(n)] for [n] of at most 53 bits: the bits of [n], moved up to the
    top of the mantissa. *)
Lemma normalize_small (p : positive) :
  Zpos (digits2_pos p) <= 53 ->
  exists m : positive,
    Zpos (digits2_pos m) = 53
    /\ Zpos m = Zpos p * 2 ^ (53 - Zpos (digits2_pos p))
    /\ binary_normalize prec emax (Zpos p) 0 false
       = S754_finite false m (Zpos (digits2_pos p) - 53).
Proof.
  intros Hd. cbn [binary_normalize]. unfold binary_round.
  replace (Zpos (digits2_pos p) + 0) with (Zpos (digits2_pos p)) by lia.
  rewrite fexp_normal by lia. unfold shl_align.
  destruct (Zpos (digits2_pos p) - 53 - 0) as [|k|k] eqn:Hk; [|lia|].
  - exists p. replace (Zpos (digits2_pos p)) with 53 by lia.
    split; [lia|]. split; [cbn; lia|].
    fold (round_exact false p 0). rewrite round_exact_53 by lia. reflexivity.
  - assert (Zpos (digits2_pos (Pos.iter xO p k)) = 53) as Hdk
        by (rewrite digits2_pos_iter_xO; lia).
    exists (Pos.iter xO p k). split; [exact Hdk|]. split.
    + replace (53 - Zpos (digits2_pos p)) with (Zpos k) by lia.
      apply iter_xO_value.
    + fold (round_exact false (Pos.iter xO p k) (Zpos (digits2_pos p) - 53)).
      rewrite round_exact_53 by lia. reflexivity.
Qed.

Lemma digits2_pos_lower (p : positive) : 2 ^ (Zpos (digits2_pos p) - 1) <= Zpos p.
Proof.
  induction p as [p IH|p IH|]; cbn [digits2_pos]; [| |cbn; lia].
  all: replace (Zpos (Pos.succ (digits2_pos p)) - 1)
         with (Z.succ (Zpos (digits2_pos p) - 1)) by lia.
  all: rewrite Z.pow_succ_r by lia; lia.
Qed.

Lemma digits2_pos_upper (p : positive) : Zpos p < 2 ^ Zpos (digits2_pos p).
Proof.
  induction p as [p IH|p IH|]; cbn [digits2_pos]; [| |cbn; lia].
  all: rewrite Pos2Z.inj_succ, Z.pow_succ_r by lia; lia.
Qed.

(** Shifting right, one bit at a time. *)
Lemma iter_pos_nat {A} (f : A -> A) (k : positive) (x : A) :
  SpecFloat.iter_pos f k x = Nat.iter (Pos.to_nat k) f x.
Proof.
  revert x. induction k as [k IH|k IH|]; intros x; cbn [SpecFloat.iter_pos].
  - rewrite !IH, Pos2Nat.inj_xI. 
    replace (S (2 * Pos.to_nat k)) with (Pos.to_nat k + (Pos.to_nat k + 1))%nat by lia.
    rewrite !Nat.iter_add. reflexivity.
  - rewrite !IH, Pos2Nat.inj_xO.
    replace (2 * Pos.to_nat k)%nat with (Pos.to_nat k + Pos.to_nat k)%nat by lia.
    rewrite Nat.iter_add. reflexivity.
  - reflexivity.
Qed.

Lemma iter_pos_succ_r {A} (f : A -> A) (k : positive) (x : A) :
  SpecFloat.iter_pos f (Pos.succ k) x = SpecFloat.iter_pos f k (f x).
Proof. rewrite !iter_pos_nat, Pos2Nat.inj_succ. apply Nat.iter_succ_r. Qed.

Lemma shr_1_value (mrs : shr_record) :
  0 <= shr_m mrs -> shr_m (shr_1 mrs) = shr_m mrs / 2.
Proof.
  destruct mrs as [m r s]. cbn [shr_m]. intros Hm.
  destruct m as [|[q|q|]|q]; cbn [shr_1 shr_m]; [reflexivity| | |reflexivity|lia].
  - rewrite Pos2Z.inj_xI. lia.
  - rewrite Pos2Z.inj_xO. lia.
Qed.

Lemma shr_iter_value (k : nat) (mrs : shr_record) :
  0 <= shr_m mrs -> shr_m (Nat.iter k shr_1 mrs) = shr_m mrs / 2 ^ Z.of_nat k.
Proof.
  intros Hm. induction k as [|k IH].
  - cbn. by rewrite Z.div_1_r.
  - rewrite Nat.iter_succ, shr_1_value by (rewrite IH; apply Z.div_pos; lia).
    rewrite IH, Nat2Z.inj_succ, Z.pow_succ_r by lia.
    rewrite Z.div_div by lia. f_equal. lia.
Qed.

Lemma digits2_pos_unique (m : positive) (d : Z) :
  2 ^ (d - 1) <= Zpos m < 2 ^ d -> Zpos (digits2_pos m) = d.
Proof.
  intros [Hlo Hhi].
  pose proof (digits2_pos_lower m) as Hl. pose proof (digits2_pos_upper m) as Hu.
  destruct (Z.lt_trichotomy (Zpos (digits2_pos m)) d) as [Hlt|[Heq|Hgt]]; [|done|].
  - assert (2 ^ Zpos (digits2_pos m) <= 2 ^ (d - 1)) by (apply Z.pow_le_mono_r; lia). lia.
  - assert (0 <= d \/ d < 0) as [Hd|Hd] by lia.
    + assert (2 ^ d <= 2 ^ (Zpos (digits2_pos m) - 1)) by (apply Z.pow_le_mono_r; lia). lia.
    + rewrite (Z.pow_neg_r 2 d) in Hhi by lia. lia.
Qed.

Lemma round_nearest_even_cases (m : Z) (l : location) :
  round_nearest_even m l = m \/ round_nearest_even m l = m + 1.
Proof. destruct l as [|[]]; cbn [round_nearest_even]; try case_match; auto. Qed.

(** Rounding an integer of more than 53 bits: the mantissa does not depend
    on the exponent, and the exponent moves with it. *)
Lemma round_exact_long (s : bool) (p : positive) :
  54 <= Zpos (digits2_pos p) <= 900 ->
  exists (m : positive) (c : Z),
    Zpos (digits2_pos m) = 53 /\ 0 <= c <= 849
    /\ forall e, 0 <= e <= 1 -> round_exact s p e = S754_finite s m (e + c).
Proof.
  intros HD. set (D := Zpos (digits2_pos p)) in *.
  destruct (D - 53) as [|k|k] eqn:Hk; [lia| |lia].
  set (mrs' := SpecFloat.iter_pos shr_1 k (shr_record_of_loc (Zpos p) loc_Exact)).
  assert (shr_m mrs' = Zpos p / 2 ^ Zpos k) as Hm1.
  { unfold mrs'. rewrite iter_pos_nat, shr_iter_value by (cbn; lia).
    cbn [shr_record_of_loc shr_m]. by rewrite positive_nat_Z. }
  assert (2 ^ 52 <= shr_m mrs' < 2 ^ 53) as Hr1.
  { rewrite Hm1. pose proof (digits2_pos_lower p) as Hl. pose proof (digits2_pos_upper p) as Hu.
    fold D in Hl, Hu.
    replace (D - 1) with (52 + Zpos k) in Hl by lia.
    replace D with (53 + Zpos k) in Hu by lia.
    rewrite Z.pow_add_r in Hl, Hu by lia.
    assert (0 < 2 ^ Zpos k) by (apply Z.pow_pos_nonneg; lia).
    split.
    - apply Z.div_le_lower_bound; lia.
    - apply Z.div_lt_upper_bound; lia. }
  set (m2 := round_nearest_even (shr_m mrs') (loc_of_shr_record mrs')).
  assert (2 ^ 52 <= m2 < 2 ^ 53 \/ m2 = 2 ^ 53) as Hr2.
  { destruct (round_nearest_even_cases (shr_m mrs') (loc_of_shr_record mrs')) as [Hc|Hc];
      fold m2 in Hc; lia. }
  assert (forall e, 0 <= e <= 1 ->
            shr_fexp prec emax (Zpos p) e loc_Exact = (mrs', e + Zpos k)) as Hfirst.
  { intros e He. unfold shr_fexp. cbn [Zdigits2]. fold D.
    rewrite fexp_normal by lia. replace (D + e - 53 - e) with (Zpos k) by lia.
    reflexivity. }
  destruct Hr2 as [Hr2|Hr2].
  - destruct m2 as [|m|m] eqn:Hm2; [lia| |lia].
    assert (Zpos (digits2_pos m) = 53) as Hd by (apply digits2_pos_unique; lia).
    exists m, (Zpos k). split; [done|]. split; [lia|]. intros e He.
    unfold round_exact, binary_round_aux. rewrite (Hfirst e He). fold m2. rewrite Hm2.
    unfold shr_fexp. cbn [Zdigits2]. rewrite Hd, fexp_normal by lia.
    replace (53 + (e + Zpos k) - 53 - (e + Zpos k)) with 0 by lia.
    cbn [shr shr_record_of_loc shr_m].
    replace (e + Zpos k <=? emax - prec) with true
      by (symmetry; apply Z.leb_le; unfold emax, prec; lia).
    reflexivity.
  - exists 4503599627370496%positive, (Zpos k + 1). split; [reflexivity|]. split; [lia|].
    intros e He.
    unfold round_exact, binary_round_aux. rewrite (Hfirst e He). fold m2. rewrite Hr2.
    unfold shr_fexp. change (Zdigits2 (2 ^ 53)) with 54. rewrite fexp_normal by lia.
    replace (54 + (e + Zpos k) - 53 - (e + Zpos k)) with 1 by lia.
    cbn [shr SpecFloat.iter_pos]. change (shr_m (shr_1 (shr_record_of_loc (2 ^ 53) loc_Exact)))
      with 4503599627370496.
    replace (e + Zpos k + 1 <=? emax - prec) with true
      by (symmetry; apply Z.leb_le; unfold emax, prec; lia).
    f_equal. lia.
Qed.

(** An even integer of more than 53 bits rounds as its half does, one
    exponent up. *)
Lemma round_exact_even (s : bool) (p : positive) :
  53 <= Zpos (digits2_pos p) <= 900 ->
  round_exact s p~0 0 = round_exact s p 1.
Proof.
  intros HD. unfold round_exact, binary_round_aux.
  assert (shr_fexp prec emax (Zpos p~0) 0 loc_Exact = shr_fexp prec emax (Zpos p) 1 loc_Exact)
    as ->; [|reflexivity].
  unfold shr_fexp. cbn [Zdigits2 digits2_pos]. rewrite Pos2Z.inj_succ.
  rewrite !fexp_normal by lia.
  destruct (Zpos (digits2_pos p) - 53) as [|k|k] eqn:Hk; [| |lia].
  - replace (Z.succ (Zpos (digits2_pos p)) + 0 - 53 - 0) with 1 by lia.
    replace (Zpos (digits2_pos p) + 1 - 53 - 1) with 0 by lia.
    reflexivity.
  - replace (Z.succ (Zpos (digits2_pos p)) + 0 - 53 - 0) with (Zpos (Pos.succ k)) by lia.
    replace (Zpos (digits2_pos p) + 1 - 53 - 1) with (Zpos k) by lia.
    cbn [shr]. rewrite iter_pos_succ_r. f_equal. lia.
Qed.

Lemma binary_normalize_long (p : positive) :
  53 <= Zpos (digits2_pos p) <= 900 ->
  binary_normalize prec emax (Zpos p) 0 false = round_exact false p 0.
Proof.
  intros HD. cbn [binary_normalize]. unfold binary_round, round_exact.
  replace (Zpos (digits2_pos p) + 0) with (Zpos (digits2_pos p)) by lia.
  rewrite fexp_normal by lia. unfold shl_align.
  destruct (Zpos (digits2_pos p) - 53 - 0) eqn:Hk; [reflexivity|reflexivity|lia].
Qed.

(** [float(n)] and [float(2n)] have the same mantissa, and exponents one
    apart. *)
Lemma normalize_double (p : positive) :
  Zpos (digits2_pos p) <= 899 ->
  exists (m : positive) (e : Z),
    Zpos (digits2_pos m) = 53 /\ -52 <= e <= 850
    /\ binary_normalize prec emax (Zpos p) 0 false = S754_finite false m e
    /\ binary_normalize prec emax (Zpos p~0) 0 false = S754_finite false m (e + 1).
Proof.
  intros HD.
  destruct (Z_le_gt_dec (Zpos (digits2_pos p)) 52) as [Hsmall|Hbig].
  - destruct (normalize_small p) as (m & Hm & Hv & Hx); [lia|].
    destruct (normalize_small p~0) as (m' & Hm' & Hv' & Hy); [cbn [digits2_pos]; lia|].
    cbn [digits2_pos] in Hv', Hy.
    assert (m' = m) as ->.
    { apply Pos2Z.inj. rewrite Hv, Hv'.
      replace (53 - Zpos (digits2_pos p))
        with (Z.succ (53 - Z.pos (Pos.succ (digits2_pos p)))) by lia.
      rewrite Z.pow_succ_r by lia. lia. }
    exists m, (Zpos (digits2_pos p) - 53).
    split; [exact Hm|]. split; [lia|]. split; [exact Hx|].
    rewrite Hy. f_equal. lia.
  - rewrite binary_normalize_long by lia.
    rewrite (binary_normalize_long p~0) by (cbn [digits2_pos]; lia).
    rewrite round_exact_even by lia.
    destruct (Z_le_gt_dec (Zpos (digits2_pos p)) 53) as [H53|H54].
    + exists p, 0. split; [lia|]. split; [lia|].
      rewrite !round_exact_53 by lia. done.
    + destruct (round_exact_long false p) as (m & c & Hd & Hc & Hr); [lia|].
      exists m, c. split; [done|]. split; [lia|].
      rewrite (Hr 0), (Hr 1) by lia. split; f_equal; lia.
Qed.

(** Doubling a double moves its exponent. *)
Lemma SF64mul_two (m : positive) (e : Z) :
  Zpos (digits2_pos m) = 53 -> -1000 <= e <= 900 ->
  SF64mul (Prim2SF 2) (S754_finite false m e) = S754_finite false m (e + 1).
Proof.
  intros Hd He.
  change (Prim2SF 2) with (S754_finite false 4503599627370496 (-51)).
  unfold SF64mul, SFmul. cbn [xorb].
  set (q := Pos.mul _ m). cbv in q. subst q.
  unfold binary_round_aux, shr_fexp. cbn [Zdigits2 digits2_pos].
  assert (forall q, Zpos (Pos.succ q) = Zpos q + 1) as Hs by (intros; lia).
  rewrite !Hs, Hd.
  rewrite fexp_normal by lia.
  match goal with |- context [shr _ _ ?k] => replace k with 52 by lia end.
  cbn [shr shr_record_of_loc SpecFloat.iter_pos shr_1 orb shr_m loc_of_shr_record
       round_nearest_even Zdigits2].
  rewrite Hd, fexp_normal by lia.
  match goal with |- context [shr _ _ ?k] => replace k with 0 by lia end.
  cbn [shr shr_m].
  replace (-51 + e + 52 <=? emax - prec) with true
    by (symmetry; apply Z.leb_le; unfold emax, prec; lia).
  f_equal. lia.
Qed.

(** A double divided by itself is one. *)
Lemma SF64div_self (m : positive) (e : Z) :
  SF64div (S754_finite false m e) (S754_finite false m e) = Prim2SF 1.
Proof.
  unfold SF64div, SFdiv, SFdiv_core_binary. cbn [xorb].
  replace (Zdigits2 (Zpos m) + e - (Zdigits2 (Zpos m) + e)) with 0 by lia.
  replace (e - e) with 0 by lia.
  change (Z.min (fexp prec emax 0) 0) with (-53).
  change (0 - -53) with 53.
  cbv iota.
  assert (Z.div_eucl (Z.shiftl (Zpos m) 53) (Zpos m) = (2 ^ 53, 0)) as ->.
  { rewrite Z.shiftl_mul_pow2 by lia.
    pose proof (Z.div_eucl_eq (Zpos m * 2 ^ 53) (Zpos m) ltac:(lia)) as Heq.
    pose proof (Z.mod_pos_bound (Zpos m * 2 ^ 53) (Zpos m) ltac:(lia)) as Hb.
    unfold Z.modulo in Hb.
    destruct (Z.div_eucl (Zpos m * 2 ^ 53) (Zpos m)) as [q r].
    assert (r = 0) as ->.
    { assert (Zpos m * (2 ^ 53 - q) = r) as Hr by lia.
      destruct (Z.eq_dec (2 ^ 53 - q) 0) as [Hz|Hz]; [lia|]. nia. }
    f_equal. nia. }
  unfold new_location, new_location_even, new_location_odd.
  change (0 =? 0) with true. cbv iota.
  destruct (Z.even (Zpos m)); vm_compute; reflexivity.
Qed.

Lemma float_of_Z_spec (z : Z) (m : positive) (e : Z) :
  binary_normalize prec emax z 0 false = S754_finite false m e ->
  Zpos (digits2_pos m) = 53 -> -1000 <= e <= 900 ->
  Prim2SF (Difflib.float_of_Z z) = S754_finite false m e.
Proof.
  intros Hz Hd He. unfold Difflib.float_of_Z. rewrite Hz.
  apply Prim2SF_SF2Prim. cbn [valid_binary]. unfold bounded, canonical_mantissa.
  rewrite Hd, fexp_normal by lia. apply andb_true_iff. split.
  - apply Z.eqb_eq. lia.
  - apply Z.leb_le. unfold emax, prec. lia.
Qed.

(** The ratio of a sequence with itself: [2.0 * n / (n + n)] is exactly one. *)
Lemma calculate_ratio_self (n : Z) :
  0 < n < 2 ^ 63 -> Difflib.calculate_ratio n (n + n) = 1%float.
Proof.
  intros Hn. unfold Difflib.calculate_ratio.
  replace (n + n =? 0) with false by (symmetry; apply Z.eqb_neq; lia).
  destruct n as [|p|p]; [lia| |lia].
  replace (Zpos p + Zpos p) with (Zpos p~0) by lia.
  destruct (normalize_double p) as (m & e & Hd & He & Hx & Hy).
  { destruct (Z_le_gt_dec (Zpos (digits2_pos p)) 899) as [|Hgt]; [done|].
    pose proof (digits2_pos_lower p) as Hlow.
    assert (2 ^ 63 <= 2 ^ (Zpos (digits2_pos p) - 1)) by (apply Z.pow_le_mono_r; lia).
    lia. }
  apply Prim2SF_inj.
  rewrite div_spec, mul_spec.
  rewrite (float_of_Z_spec _ m e Hx Hd) by lia.
  rewrite (float_of_Z_spec _ m (e + 1) Hy Hd) by lia.
  rewrite SF64mul_two by lia.
  apply SF64div_self.
Qed.

End Binary64.

(** * Snapshot comparison *)

Section Compare.
Context `{UnicodeDB}.
#[local] Open Scope Z_scope.

(** The sign of an integer is the sign of its double. *)
Lemma binary_round_aux_sign (m e : Z) (l : location) :
  binary_round_aux prec emax true m e l
  = SFopp (binary_round_aux prec emax false m e l).
Proof.
  unfold binary_round_aux.
  destruct (shr_fexp prec emax m e l) as [mrs e'].
  destruct (shr_fexp prec emax _ e' loc_Exact) as [mrs' e''].
  destruct (shr_m mrs') as [|q|q]; [reflexivity| |reflexivity].
  by destruct (e'' <=? emax - prec).
Qed.

Lemma binary_normalize_opp (p : positive) :
  binary_normalize prec emax (Zneg p) 0 false
  = SFopp (binary_normalize prec emax (Zpos p) 0 false).
Proof.
  cbn [binary_normalize]. unfold binary_round.
  destruct (shl_align p 0 _) as [m e]. apply binary_round_aux_sign.
Qed.

Lemma digits_below (p : positive) (k : Z) : Zpos p < 2 ^ k -> Zpos (digits2_pos p) <= k.
Proof.
  intros Hp. destruct (Z_le_gt_dec (Zpos (digits2_pos p)) k) as [|Hgt]; [done|].
  assert (0 <= k) by (destruct (Z_lt_le_dec k 0); [rewrite Z.pow_neg_r in Hp by lia; lia|done]).
  pose proof (digits2_pos_lower p) as Hlow.
  assert (2 ^ k <= 2 ^ (Zpos (digits2_pos p) - 1)) by (apply Z.pow_le_mono_r; lia).
  lia.
Qed.

(** A counter has a double. *)
Lemma to_float_small (z : Z) :
  Z.abs z < 2 ^ 63 -> exists f, PyNum.to_float z = Ok f.
Proof.
  intros Hz. unfold PyNum.to_float. destruct z as [|p|p].
  - by eexists.
  - destruct (normalize_double p) as (m & e & _ & _ & Hp & _).
    { pose proof (digits_below p 63 ltac:(lia)). lia. }
    rewrite Hp. by eexists.
  - rewrite binary_normalize_opp.
    destruct (normalize_double p) as (m & e & _ & _ & Hp & _).
    { pose proof (digits_below p 63 ltac:(lia)). lia. }
    rewrite Hp. by eexists.
Qed.

Lemma sub_small (a b : number) :
  small a -> small b -> exists c, PyNum.sub a b = Ok c.
Proof.
  destruct a as [x|x], b as [y|y]; cbn [small PyNum.sub]; intros Ha Hb; try by eexists.
  - destruct (to_float_small x Ha) as [f ->]. by eexists.
  - destruct (to_float_small y Hb) as [f ->]. by eexists.
Qed.

Lemma metric_small (m : gmap string number) (key : string) :
  counters m -> small (metric m key).
Proof.
  intros Hm. unfold metric. destruct (m !! key) as [v|] eqn:Hv; cbn [default].
  - exact (Hm key v Hv).
  - cbn. lia.
Qed.

(** One round of the loop, when it does not raise. *)
Lemma round_spec (a b : number) (e : metric_change) :
  (if negb (PyNum.eqb a b)
   then Some (PyNum.sub b a ≫= fun change => Ok (MetricChange a b change))
   else None) = Some (Ok e)
  <-> PyNum.eqb a b = false /\ mc_old e = a /\ mc_new e = b
      /\ PyNum.sub b a = Ok (mc_change e).
Proof.
  destruct (PyNum.eqb a b); cbn [negb]; [split; [done|by intros [? _]]|].
  destruct (PyNum.sub b a) as [c|x]; cbn [mbind result_bind]; split.
  - intros [= <-]. done.
  - intros (_ & <- & <- & [= ->]). by destruct e.
  - done.
  - by intros (_ & _ & _ & ?).
Qed.

Lemma metric_delta_spec (o n : option number) (e : metric_change) :
  metric_delta o n = Some (Ok e) <->
  (is_Some o \/ is_Some n)
  /\ PyNum.eqb (default (Int 0) o) (default (Int 0) n) = false
  /\ mc_old e = default (Int 0) o /\ mc_new e = default (Int 0) n
  /\ PyNum.sub (default (Int 0) n) (default (Int 0) o) = Ok (mc_change e).
Proof.
  unfold metric_delta.
  destruct o as [o|], n as [n|]; cbn [default].
  4:{ split; [done|]. by intros ([[? [=]]|[? [=]]] & _). }
  all: rewrite round_spec; split; [intros ?; split; [eauto|done]|by intros [_ ?]].
Qed.

Lemma metric_delta_returns (o n : option number) (r : result metric_change) :
  small (default (Int 0) o) -> small (default (Int 0) n) ->
  metric_delta o n = Some r -> is_ok r = true.
Proof.
  intros Ho Hn. unfold metric_delta.
  destruct (sub_small _ _ Hn Ho) as [c Hc].
  destruct o as [o|], n as [n|]; cbn [default] in *; [| | |done].
  all: destruct (negb _); [|done]; rewrite Hc; by intros [= <-].
Qed.

Lemma metrics_delta_returns (old_metrics new_metrics : gmap string number) :
  counters old_metrics -> counters new_metrics ->
  exists changes,
    metrics_delta old_metrics new_metrics = Ok changes
    /\ forall key e,
         changes !! key = Some e
         <-> metric_delta (old_metrics !! key) (new_metrics !! key) = Some (Ok e).
Proof.
  intros Ho Hn. unfold metrics_delta.
  rewrite bool_decide_eq_true_2.
  - eexists. split; [reflexivity|]. intros key e.
    rewrite lookup_omap, lookup_merge.
    destruct (old_metrics !! key) as [o|], (new_metrics !! key) as [n|];
      cbn [diag_None]; [| | |done].
    all: destruct (metric_delta _ _) as [[e'|x]|]; cbn; split; congruence.
  - intros key r. rewrite lookup_merge. intros Hr.
    pose proof (metric_small old_metrics key Ho) as Hso.
    pose proof (metric_small new_metrics key Hn) as Hsn. unfold metric in *.
    destruct (old_metrics !! key) as [o|], (new_metrics !! key) as [n|];
      cbn [diag_None] in Hr; [| | |done].
    all: exact (metric_delta_returns _ _ r Hso Hsn Hr).
Qed.

(** C5 (as amended): [compare_snapshots] on two snapshots whose metrics are
    counters and floats gives a report whose [size_change] is the new size
    minus the old one, and whose [metrics_changes] holds an entry exactly for
    the keys of either snapshot's metrics whose values differ (an absent key
    counting as 0): the old value, the new value, and their difference. *)
Theorem C5_metrics_delta (old new : snapshot) :
  counters (snap_metrics old) -> counters (snap_metrics new) ->
  exists r : report,
    compare_snapshots (Some old) (Some new) = Some r
    /\ rep_size_change r = snap_size new - snap_size old
    /\ forall (key : string) (e : metric_change),
         rep_metrics_changes r !! key = Some e <->
         (is_Some (snap_metrics old !! key) \/ is_Some (snap_metrics new !! key))
         /\ PyNum.eqb (metric (snap_metrics old) key) (metric (snap_metrics new) key) = false
         /\ mc_old e = metric (snap_metrics old) key
         /\ mc_new e = metric (snap_metrics new) key
         /\ PyNum.sub (metric (snap_metrics new) key) (metric (snap_metrics old) key)
            = Ok (mc_change e).
Proof.
  intros Ho Hn. unfold compare_snapshots.
  destruct (metrics_delta_returns _ _ Ho Hn) as (changes & -> & Hchanges).
  eexists. split; [reflexivity|]. cbn [rep_size_change rep_metrics_changes].
  split; [reflexivity|]. intros key e.
  rewrite Hchanges. apply metric_delta_spec.
Qed.

(** The difference of two integers is their difference, and the difference
    of two floats is the float nearest to theirs. *)
Lemma sub_same_type :
  (forall x y : Z, PyNum.sub (Int x) (Int y) = Ok (Int (x - y)))
  /\ (forall x y : float, PyNum.sub (Float x) (Float y) = Ok (Float (x - y))).
Proof. done. Qed.

End Compare.

(** * [SequenceMatcher] on a sequence and itself *)

Section SelfMatch.
Context {E : Type} `{Countable E}.
#[local] Open Scope Z_scope.
#[local] Set Warnings "-clear-no-such-hyp".

Lemma at_index_Some (l : list E) (j : Z) (x : E) :
  Difflib.at_index l j = Some x <-> 0 <= j /\ l !! Z.to_nat j = Some x.
Proof.
  unfold Difflib.at_index. destruct (Z.ltb_spec j 0); split.
  - discriminate.
  - intros [? _]. lia.
  - intros ?. split; [lia|done].
  - by intros [_ ?].
Qed.

Lemma at_index_lt (l : list E) (j : Z) (x : E) :
  Difflib.at_index l j = Some x -> 0 <= j < Z.of_nat (length l).
Proof.
  intros [Hj Hx]%at_index_Some. apply lookup_lt_Some in Hx. lia.
Qed.

Lemma at_index_in_range (l : list E) (j : Z) :
  0 <= j < Z.of_nat (length l) -> exists x, Difflib.at_index l j = Some x.
Proof.
  intros Hj. destruct (lookup_lt_is_Some_2 l (Z.to_nat j)) as [x Hx]; [lia|].
  exists x. apply at_index_Some. split; [lia|done].
Qed.

Lemma at_index_snoc (l : list E) (y : E) (j : Z) (x : E) :
  Difflib.at_index (l ++ [y]) j = Some x <->
  Difflib.at_index l j = Some x \/ (j = Z.of_nat (length l) /\ x = y).
Proof.
  rewrite !at_index_Some. split.
  - intros [Hj Hx]. apply lookup_app_Some in Hx as [Hx|[Hlen Hx]]; [by left|right].
    apply list_lookup_singleton_Some in Hx as [Hz ->]. split; [lia|done].
  - intros [[Hj Hx]|[-> ->]].
    + split; [done|]. by apply lookup_app_l_Some.
    + split; [lia|]. rewrite Nat2Z.id. by rewrite list_lookup_middle.
Qed.


Lemma b2j_all_snoc (l : list E) (y : E) :
  Difflib.b2j_all (l ++ [y]) =
  <[y := default [] (Difflib.b2j_all l !! y) ++ [Z.of_nat (length l)]]> (Difflib.b2j_all l).
Proof.
  unfold Difflib.b2j_all. rewrite imap_app, foldl_app. cbn [imap foldl].
  by rewrite Nat.add_0_r.
Qed.

Lemma b2j_all_spec (l : list E) (x : E) :
  index_list l x (default [] (Difflib.b2j_all l !! x)).
Proof.
  induction l as [|y l IH] using rev_ind.
  - unfold Difflib.b2j_all. cbn. split; [constructor|].
    intros j. rewrite elem_of_nil, at_index_Some, lookup_nil. naive_solver.
  - rewrite b2j_all_snoc. destruct IH as [Hs Hm].
    destruct (decide (x = y)) as [->|Hne].
    + rewrite lookup_insert_eq. cbn. split.
      * apply StronglySorted_app_2; [|done|repeat constructor].
        intros j1 j2 H1%Hm%at_index_lt ->%list_elem_of_singleton. lia.
      * intros j. rewrite elem_of_app, list_elem_of_singleton, Hm, at_index_snoc.
        naive_solver.
    + rewrite lookup_insert_ne by done. split; [done|].
      intros j. rewrite Hm, at_index_snoc. naive_solver.
Qed.

Lemma b2j_spec (l : list E) (x : E) :
  default [] (Difflib.b2j l !! x) = []
  \/ index_list l x (default [] (Difflib.b2j l !! x)).
Proof.
  unfold Difflib.b2j. case_match; [|right; apply b2j_all_spec].
  rewrite map_lookup_filter.
  destruct (Difflib.b2j_all l !! x) as [js|] eqn:Hjs; [|by left]. cbn.
  case_guard; [|by left]. right.
  pose proof (b2j_all_spec l x) as Hspec. by rewrite Hjs in Hspec.
Qed.


Section Rows.
Variable s : list E.

#[local] Abbreviation n := (Z.of_nat (length s)).


Lemma lead_bounds (l : list E) : 0 <= lead s l <= Z.of_nat (length l).
Proof. induction l as [|x l IH]; cbn [lead length]; [lia|]. case_match; lia. Qed.

Lemma run_nonneg (i : Z) : 0 <= run s i.
Proof. apply lead_bounds. Qed.

Lemma run_neg (i : Z) : i < 0 -> run s i = 0.
Proof. intros Hi. unfold run. by replace (Z.to_nat (i + 1)) with 0%nat by lia. Qed.

Lemma run_le (i : Z) : 0 <= i -> run s i <= i + 1.
Proof.
  intros Hi. unfold run. pose proof (lead_bounds (reverse (take (Z.to_nat (i + 1)) s))) as Hb.
  rewrite length_reverse, length_take in Hb. lia.
Qed.

Lemma run_step (i : Z) (x : E) :
  Difflib.at_index s i = Some x ->
  run s i = if rare s x then run s (i - 1) + 1 else 0.
Proof.
  intros [Hi Hx]%at_index_Some. unfold run.
  replace (Z.to_nat (i + 1)) with (S (Z.to_nat i)) by lia.
  replace (Z.to_nat (i - 1 + 1)) with (Z.to_nat i) by lia.
  rewrite (take_S_r _ _ _ Hx), reverse_snoc. reflexivity.
Qed.


Lemma flm_row_fold (i lo hi : Z) (prev : gmap Z Z) (js : list Z)
    (new : gmap Z Z) (best : Difflib.block) :
  Forall (fun j => lo <= j < hi) js ->
  Difflib.flm_row i lo hi prev js new best = foldl (row_step i prev) (new, best) js.
Proof.
  intros Hjs. revert new best. induction Hjs as [|j js Hj Hjs IH]; intros new best; [done|].
  cbn [Difflib.flm_row foldl].
  replace (j <? lo) with false by (symmetry; apply Z.ltb_ge; lia).
  replace (hi <=? j) with false by (symmetry; apply Z.leb_gt; lia).
  destruct best as [[besti bestj] bestsize]. rewrite IH. reflexivity.
Qed.

Lemma row_fold_lookup (i : Z) (prev : gmap Z Z) (js : list Z)
    (new : gmap Z Z) (best : Difflib.block) (j : Z) :
  (foldl (row_step i prev) (new, best) js).1 !! j =
  if decide (j ∈ js) then Some (cell prev j) else new !! j.
Proof.
  revert new best. induction js as [|j' js IH]; intros new best; cbn [foldl].
  - by rewrite decide_False by apply not_elem_of_nil.
  - destruct best as [[besti bestj] bestsize]. cbn [row_step]. rewrite IH.
    destruct (decide (j ∈ js)) as [Hin|Hnin].
    + rewrite decide_True by (by right). done.
    + destruct (decide (j = j')) as [->|Hne].
      * rewrite decide_True by left. by rewrite lookup_insert_eq.
      * rewrite decide_False by (rewrite elem_of_cons; naive_solver).
        by rewrite lookup_insert_ne.
Qed.

Lemma row_fold_best_kept (i : Z) (prev : gmap Z Z) (js : list Z)
    (new : gmap Z Z) (bi bj bs : Z) :
  Forall (fun j => cell prev j <= bs) js ->
  (foldl (row_step i prev) (new, (bi, bj, bs)) js).2 = (bi, bj, bs).
Proof.
  intros Hjs. revert new. induction Hjs as [|j js Hj Hjs IH]; intros new; [done|].
  cbn [foldl row_step].
  replace (bs <? cell prev j) with false by (symmetry; apply Z.ltb_ge; lia).
  apply IH.
Qed.

Lemma row_fold_pair (i : Z) (prev : gmap Z Z) (js : list Z) (acc : gmap Z Z * Difflib.block) :
  foldl (row_step i prev) acc js =
  ((foldl (row_step i prev) acc js).1, (foldl (row_step i prev) acc js).2).
Proof. by destruct (foldl _ _ _). Qed.


Lemma row_ok_init : row_ok s (-1) ∅.
Proof.
  split; [|by rewrite lookup_empty, run_neg by lia].
  intros j. rewrite lookup_empty. cbn. rewrite (run_neg (-1)) by lia.
  pose proof (run_nonneg j). lia.
Qed.

Lemma sorted_split_lt (js1 js2 : list Z) (i : Z) :
  StronglySorted Z.lt (js1 ++ i :: js2) ->
  Forall (fun j => j < i) js1 /\ Forall (fun j => i < j) js2.
Proof.
  intros [Hcross [_ Hs2]]%StronglySorted_app. split.
  - apply Forall_forall. intros j Hj. apply Hcross; [done|left].
  - apply StronglySorted_cons in Hs2 as [Hs2 _]. done.
Qed.

Lemma row_step_ok (i : Z) (x : E) (prev : gmap Z Z) (best : Difflib.block) :
  Difflib.at_index s i = Some x ->
  row_ok s (i - 1) prev -> best_ok s (i - 1) best ->
  let res := Difflib.flm_row i 0 n prev (default [] (Difflib.b2j s !! x)) ∅ best in
  row_ok s i res.1 /\ best_ok s i res.2.
Proof.
  intros Hx [Hprev Hdiag] Hbest. cbn zeta.
  pose proof (at_index_lt _ _ _ Hx) as Hi.
  pose proof (run_step i x Hx) as Hrun. unfold rare in Hrun.
  destruct (b2j_spec s x) as [Hnil|[Hsorted Hmem]].
  { rewrite Hnil in *. rewrite bool_decide_false in Hrun by naive_solver.
    cbn [Difflib.flm_row fst snd]. split.
    - split; [|by rewrite lookup_empty, Hrun].
      intros j. rewrite lookup_empty, Hrun. cbn. pose proof (run_nonneg j). lia.
    - destruct best as [[bi bj] bs]. destruct Hbest as (-> & Hb0 & Hs0 & Hsum & Hruns).
      repeat split; try lia. intros i' Hi'.
      destruct (decide (i' = i)) as [->|]; [lia|]. apply Hruns. lia. }
  set (js := default [] (Difflib.b2j s !! x)) in *.
  assert (i ∈ js) as Hin by (by apply Hmem).
  rewrite bool_decide_true in Hrun by (intros Heq; rewrite Heq in Hin; by apply elem_of_nil in Hin).
  assert (Forall (fun j => 0 <= j < n) js) as Hrange.
  { apply Forall_forall. intros j Hj%Hmem%at_index_lt. done. }
  assert (forall j, j ∈ js -> cell prev j <= run s j /\ cell prev j <= run s i /\ 1 <= cell prev j)
    as Hcell.
  { intros j Hj. apply Hmem in Hj. pose proof (at_index_lt _ _ _ Hj).
    pose proof (run_step j x Hj) as Hrj. unfold rare in Hrj.
    rewrite bool_decide_true in Hrj
      by (intros Heq; fold js in Heq; rewrite Heq in Hin; by apply elem_of_nil in Hin).
    unfold cell. destruct (Hprev (j - 1)) as (? & ? & ?). lia. }
  rewrite flm_row_fold by done.
  split.
  - split.
    + intros j. rewrite row_fold_lookup. case_decide as Hj.
      * destruct (Hcell j Hj) as (? & ? & ?). cbn. lia.
      * rewrite lookup_empty. cbn. pose proof (run_nonneg j). pose proof (run_nonneg i). lia.
    + rewrite row_fold_lookup, decide_True by done. cbn. unfold cell. rewrite Hdiag. lia.
  - destruct (list_elem_of_split js i Hin) as (js1 & js2 & Hsplit).
    rewrite Hsplit in Hsorted. apply sorted_split_lt in Hsorted as [Hlt Hgt].
    assert (forall j, j ∈ js1 \/ j ∈ js2 -> j ∈ js) as Hsub.
    { intros j Hj. rewrite Hsplit, elem_of_app, elem_of_cons. naive_solver. }
    destruct best as [[bi bj] bs]. destruct Hbest as (-> & Hb0 & Hs0 & Hsum & Hruns).
    rewrite Hsplit, foldl_app. cbn [foldl].
    rewrite (row_fold_pair i prev js1), row_fold_best_kept; cycle 1.
    { apply Forall_forall. intros j Hj. rewrite Forall_forall in Hlt.
      specialize (Hlt j Hj). destruct (Hcell j (Hsub j (or_introl Hj))) as (? & ? & ?).
      rewrite Forall_forall in Hrange. specialize (Hrange j (Hsub j (or_introl Hj))).
      specialize (Hruns j). lia. }
    cbn [row_step].
    assert (cell prev i = run s i) as Hci by (unfold cell; rewrite Hdiag; lia).
    pose proof (run_le i ltac:(lia)) as Hle.
    destruct (Z.ltb_spec bs (cell prev i)) as [Hup|Hkeep].
    + rewrite row_fold_best_kept; cycle 1.
      { apply Forall_forall. intros j Hj.
        destruct (Hcell j (Hsub j (or_intror Hj))) as (? & ? & ?). lia. }
      repeat split; try lia. intros i' Hi'.
      destruct (decide (i' = i)) as [->|]; [lia|]. specialize (Hruns i'). lia.
    + rewrite row_fold_best_kept; cycle 1.
      { apply Forall_forall. intros j Hj.
        destruct (Hcell j (Hsub j (or_intror Hj))) as (? & ? & ?). lia. }
      repeat split; try lia. intros i' Hi'.
      destruct (decide (i' = i)) as [->|]; [lia|]. specialize (Hruns i'). lia.
Qed.


Lemma seqZ_snoc (k : nat) : seqZ 0 (Z.of_nat (S k)) = seqZ 0 (Z.of_nat k) ++ [Z.of_nat k].
Proof.
  unfold seqZ. rewrite !Nat2Z.id, seq_S, fmap_app. f_equal.
  cbn [fmap list_fmap]. f_equal. lia.
Qed.

Lemma rows_ok (k : nat) :
  (k <= length s)%nat ->
  let res := foldl (fun '(j2len, best) i =>
                      let js := match Difflib.at_index s i with
                                | Some x => default [] (Difflib.b2j s !! x)
                                | None => []
                                end in
                      Difflib.flm_row i 0 n j2len js ∅ best)
                   (∅, (0, 0, 0)) (seqZ 0 (Z.of_nat k)) in
  row_ok s (Z.of_nat k - 1) res.1 /\ best_ok s (Z.of_nat k - 1) res.2.
Proof.
  induction k as [|k IH]; intros Hk; cbn zeta.
  - cbn [seqZ foldl fst snd]. split; [apply row_ok_init|].
    cbn. repeat split; try lia. 
  - rewrite seqZ_snoc, foldl_app. cbn [foldl].
    destruct IH as [Hrow Hbest]; [lia|].
    destruct (foldl _ _ (seqZ 0 (Z.of_nat k))) as [prev best]. cbn [fst snd] in Hrow, Hbest.
    destruct (at_index_in_range s (Z.of_nat k)) as [x Hx]; [lia|]. rewrite Hx.
    replace (Z.of_nat (S k) - 1) with (Z.of_nat k) by lia.
    apply (row_step_ok (Z.of_nat k) x prev best Hx).
    + by replace (Z.of_nat k - 1) with (Z.of_nat k - 1) by lia.
    + done.
Qed.

Lemma isbjunk_false (x : E) : Difflib.isbjunk x = false.
Proof. unfold Difflib.isbjunk, Difflib.bjunk. apply bool_decide_false, not_elem_of_empty. Qed.

Lemma extend_left_diag (fuel : nat) (b bs : Z) :
  0 <= b -> 0 <= bs -> b + bs <= n -> (Z.to_nat b <= fuel)%nat ->
  Difflib.extend_left s s fuel false 0 0 (b, b, bs) = (0, 0, bs + b).
Proof.
  revert b bs. induction fuel as [|fuel IH]; intros b bs Hb Hbs Hsum Hfuel.
  - assert (b = 0) as -> by lia. cbn. f_equal; lia.
  - cbn [Difflib.extend_left]. destruct (Z.ltb_spec 0 b) as [Hpos|Hzero]; cbn [andb].
    + destruct (at_index_in_range s (b - 1)) as [x Hx]; [lia|]. rewrite Hx.
      rewrite isbjunk_false, !bool_decide_true by done. cbn [andb].
      rewrite IH by lia. f_equal; lia.
    + assert (b = 0) as -> by lia. f_equal; lia.
Qed.

Lemma extend_right_diag (fuel : nat) (k : Z) :
  0 <= k <= n -> (Z.to_nat (n - k) <= fuel)%nat ->
  Difflib.extend_right s s fuel false n n (0, 0, k) = (0, 0, n).
Proof.
  revert k. induction fuel as [|fuel IH]; intros k Hk Hfuel.
  - cbn. f_equal; lia.
  - cbn [Difflib.extend_right]. rewrite !Z.add_0_l.
    destruct (Z.ltb_spec k n) as [Hlt|Hge]; cbn [andb].
    + destruct (at_index_in_range s k) as [x Hx]; [lia|]. rewrite Hx.
      rewrite isbjunk_false, !bool_decide_true by done. cbn [andb].
      apply IH; lia.
    + f_equal; lia.
Qed.

(** The longest block of a sequence against itself is the whole of it. *)
Lemma find_longest_match_self :
  Difflib.find_longest_match s s 0 n 0 n = (0, 0, n).
Proof.
  unfold Difflib.find_longest_match, Difflib.flm_rows.
  replace (n - 0) with n by lia.
  destruct (rows_ok (length s)) as [_ Hbest]; [done|].
  destruct (foldl _ _ _) as [row [[bi bj] bs]]. cbn [fst snd] in *.
  destruct Hbest as (-> & Hb0 & Hs0 & Hsum & _).
  rewrite extend_left_diag by lia.
  rewrite extend_right_diag by lia.
  cbn [Difflib.extend_left Difflib.extend_right].
  rewrite Z.ltb_irrefl. cbn [andb]. rewrite Z.add_0_l, Z.ltb_irrefl. reflexivity.
Qed.

Lemma get_matching_blocks_self :
  s <> [] -> Difflib.get_matching_blocks s s = [(0, 0, n); (n, n, 0)].
Proof.
  intros Hs. assert (0 < n) as Hn by (destruct s; [done|cbn [length]; lia]).
  unfold Difflib.get_matching_blocks, Difflib.la, Difflib.lb.
  rewrite Nat.add_1_r. cbn [Difflib.gmb_loop].
  rewrite find_longest_match_self.
  replace (n =? 0) with false by (symmetry; apply Z.eqb_neq; lia).
  rewrite Z.ltb_irrefl, Z.add_0_l, Z.ltb_irrefl. cbn [andb app].
  replace (Difflib.gmb_loop s s (2 * length s)%nat [] [(0, 0, n)]) with [(0, 0, n)]
    by (by destruct (2 * length s)%nat).
  cbn [Difflib.sort_blocks foldr Difflib.insert_sorted Difflib.collapse].
  rewrite !Z.add_0_l. cbn [Z.eqb andb].
  replace (n =? 0) with false by (symmetry; apply Z.eqb_neq; lia).
  reflexivity.
Qed.

Lemma ratio_self :
  s <> [] -> Difflib.ratio s s = Difflib.calculate_ratio n (n + n).
Proof.
  intros Hs. unfold Difflib.ratio. rewrite get_matching_blocks_self by done.
  unfold Difflib.la, Difflib.lb. cbn [foldr]. f_equal. lia.
Qed.

End Rows.

End SelfMatch.

(** * The work list of [get_matching_blocks] runs dry *)

Section WorkList.
Context {E : Type} `{Countable E}.
Variables a b : list E.
#[local] Open Scope Z_scope.

(** The extension loops stop by themselves: [besti - alo], respectively
    [ahi - (besti + bestsize)], bounds their rounds, and more fuel changes
    nothing. *)
Lemma extend_left_fuel (fuel extra : nat) (want : bool) (alo blo : Z)
    (best : Difflib.block) :
  (Z.to_nat (best.1.1 - alo) <= fuel)%nat ->
  Difflib.extend_left a b (fuel + extra) want alo blo best
  = Difflib.extend_left a b fuel want alo blo best.
Proof.
  revert best. induction fuel as [|fuel IH]; intros [[bi bj] bs] Hf; cbn in Hf.
  - destruct extra as [|extra]; [done|]. cbn [Nat.add Difflib.extend_left].
    destruct (Z.ltb_spec alo bi); [lia|done].
  - cbn [Nat.add Difflib.extend_left].
    destruct (Z.ltb_spec alo bi); [|done].
    repeat case_match; try done. apply IH. cbn. lia.
Qed.

Lemma extend_right_fuel (fuel extra : nat) (want : bool) (ahi bhi : Z)
    (best : Difflib.block) :
  (Z.to_nat (ahi - (best.1.1 + best.2)) <= fuel)%nat ->
  Difflib.extend_right a b (fuel + extra) want ahi bhi best
  = Difflib.extend_right a b fuel want ahi bhi best.
Proof.
  revert best. induction fuel as [|fuel IH]; intros [[bi bj] bs] Hf; cbn in Hf.
  - destruct extra as [|extra]; [done|]. cbn [Nat.add Difflib.extend_right].
    destruct (Z.ltb_spec (bi + bs) ahi); [lia|done].
  - cbn [Nat.add Difflib.extend_right].
    destruct (Z.ltb_spec (bi + bs) ahi); [|done].
    repeat case_match; try done. apply IH. cbn. lia.
Qed.

Lemma flm_row_within (lo_a lo_b hi_b i : Z) (prev : gmap Z Z) (js : list Z)
    (new : gmap Z Z) (best : Difflib.block) :
  lo_a <= i ->
  entries_within lo_a lo_b hi_b (i - 1) prev ->
  entries_within lo_a lo_b hi_b i new ->
  block_within lo_a (i + 1) lo_b hi_b best ->
  let res := Difflib.flm_row i lo_b hi_b prev js new best in
  entries_within lo_a lo_b hi_b i res.1 /\ block_within lo_a (i + 1) lo_b hi_b res.2.
Proof.
  intros Hi Hprev. revert new best.
  induction js as [|j js IH]; intros new best Hnew Hbest; cbn zeta; [done|].
  cbn [Difflib.flm_row].
  destruct (Z.ltb_spec j lo_b) as [Hlo|Hlo]; [by apply IH|].
  destruct (Z.leb_spec hi_b j) as [Hhi|Hhi]; [done|].
  destruct best as [[bi bj] bs].
  assert (1 <= default 0 (prev !! (j - 1)) + 1 <= i - lo_a + 1
          /\ default 0 (prev !! (j - 1)) + 1 <= j - lo_b + 1) as Hv.
  { destruct (prev !! (j - 1)) as [v|] eqn:Hpj; cbn; [|lia].
    destruct (Hprev _ _ Hpj) as (? & ? & ? & ?). lia. }
  apply IH.
  - intros j' v'. rewrite lookup_insert. case_decide as Hj; [|apply Hnew].
    intros [= <-]. subst j'. lia.
  - destruct (Z.ltb_spec bs (default 0 (prev !! (j - 1)) + 1)); [|done].
    cbn. lia.
Qed.

Lemma flm_rows_within (alo ahi blo bhi : Z) (k : nat) :
  alo <= ahi -> blo <= bhi -> alo + Z.of_nat k <= ahi ->
  let res := foldl (fun '(j2len, best) i =>
                      let js := match Difflib.at_index a i with
                                | Some x => default [] (Difflib.b2j b !! x)
                                | None => []
                                end in
                      Difflib.flm_row i blo bhi j2len js ∅ best)
                   (∅, (alo, blo, 0)) (seqZ alo (Z.of_nat k)) in
  entries_within alo blo bhi (alo + Z.of_nat k - 1) res.1
  /\ block_within alo (alo + Z.of_nat k) blo bhi res.2.
Proof.
  intros Ha Hb. induction k as [|k IH]; intros Hk; cbn zeta.
  - rewrite seqZ_nil by lia. cbn [foldl fst snd].
    split; [intros j v Hv; by rewrite lookup_empty in Hv|].
    cbn. lia.
  - replace (seqZ alo (Z.of_nat (S k))) with (seqZ alo (Z.of_nat k) ++ [alo + Z.of_nat k]).
    2:{ unfold seqZ. rewrite !Nat2Z.id, seq_S, fmap_app. f_equal.
        cbn [fmap list_fmap]. f_equal. lia. }
    rewrite foldl_app. cbn [foldl].
    destruct IH as [Hrow Hbest]; [lia|].
    destruct (foldl _ _ (seqZ alo (Z.of_nat k))) as [prev best]. cbn [fst snd] in Hrow, Hbest.
    replace (alo + Z.of_nat (S k) - 1) with (alo + Z.of_nat k) by lia.
    replace (alo + Z.of_nat (S k)) with (alo + Z.of_nat k + 1) by lia.
    apply flm_row_within; [lia|done| |].
    + intros j v Hv. by rewrite lookup_empty in Hv.
    + destruct best as [[bi bj] bs]. cbn in *. lia.
Qed.

Lemma extend_left_within (fuel : nat) (want : bool) (alo ahi blo bhi : Z)
    (best : Difflib.block) :
  block_within alo ahi blo bhi best ->
  block_within alo ahi blo bhi (Difflib.extend_left a b fuel want alo blo best).
Proof.
  revert best. induction fuel as [|fuel IH]; intros [[bi bj] bs] Hbest; [done|].
  cbn [Difflib.extend_left].
  destruct (Z.ltb_spec alo bi), (Z.ltb_spec blo bj); cbn [andb]; try done.
  repeat case_match; try done. apply IH. cbn in *. lia.
Qed.

Lemma extend_right_within (fuel : nat) (want : bool) (alo ahi blo bhi : Z)
    (best : Difflib.block) :
  block_within alo ahi blo bhi best ->
  block_within alo ahi blo bhi (Difflib.extend_right a b fuel want ahi bhi best).
Proof.
  revert best. induction fuel as [|fuel IH]; intros [[bi bj] bs] Hbest; [done|].
  cbn [Difflib.extend_right].
  destruct (Z.ltb_spec (bi + bs) ahi), (Z.ltb_spec (bj + bs) bhi); cbn [andb]; try done.
  repeat case_match; try done. apply IH. cbn in *. lia.
Qed.

(** The block [find_longest_match] returns lies inside the ranges searched. *)
Lemma find_longest_match_within (alo ahi blo bhi : Z) :
  alo <= ahi -> blo <= bhi ->
  block_within alo ahi blo bhi (Difflib.find_longest_match a b alo ahi blo bhi).
Proof.
  intros Ha Hb. unfold Difflib.find_longest_match, Difflib.flm_rows.
  destruct (flm_rows_within alo ahi blo bhi (Z.to_nat (ahi - alo))) as [_ Hbest]; [lia..|].
  rewrite Z2Nat.id in Hbest by lia.
  replace (alo + (ahi - alo)) with ahi in Hbest by lia.
  by apply extend_right_within, extend_left_within, extend_right_within, extend_left_within.
Qed.

Lemma gmb_loop_nil (fuel : nat) (acc : list Difflib.block) :
  Difflib.gmb_loop a b fuel [] acc = acc.
Proof. by destruct fuel. Qed.

Lemma queue_weight_cons (q : Z * Z * Z * Z) (queue : list (Z * Z * Z * Z)) :
  queue_weight (q :: queue) = (range_weight q + queue_weight queue)%nat.
Proof. reflexivity. Qed.

(** Fuel beyond the weight of the queue is never used. *)
Lemma gmb_loop_fuel (fuel extra : nat) (queue : list (Z * Z * Z * Z))
    (acc : list Difflib.block) :
  Forall range_ok queue -> (queue_weight queue <= fuel)%nat ->
  Difflib.gmb_loop a b (fuel + extra) queue acc = Difflib.gmb_loop a b fuel queue acc.
Proof.
  revert queue acc. induction fuel as [|fuel IH]; intros queue acc Hq Hw.
  - destruct queue as [|[[[alo ahi] blo] bhi] queue]; [by rewrite !gmb_loop_nil|].
    cbn in Hw. lia.
  - destruct queue as [|[[[alo ahi] blo] bhi] queue]; [by rewrite !gmb_loop_nil|].
    apply Forall_cons in Hq as [[Ha Hb] Hq].
    rewrite queue_weight_cons in Hw. cbn [range_weight] in Hw.
    cbn [Nat.add Difflib.gmb_loop].
    pose proof (find_longest_match_within alo ahi blo bhi Ha Hb) as Hin.
    destruct (Difflib.find_longest_match a b alo ahi blo bhi) as [[i j] k].
    cbn in Hin.
    destruct (Z.eqb_spec k 0) as [Hk|Hk]; [apply IH; [done|lia]|].
    apply IH.
    + repeat case_match; repeat (apply Forall_cons; split); try done;
        unfold range_ok; lia.
    + repeat case_match; rewrite ?queue_weight_cons; cbn [range_weight]; lia.
Qed.

(** [get_matching_blocks] empties its work list: more rounds than the
    [2 * len(a) + 1] it is given change nothing. *)
Lemma get_matching_blocks_complete (extra : nat) :
  Difflib.gmb_loop a b (2 * length a + 1 + extra) [(0, Difflib.la a, 0, Difflib.lb b)] []
  = Difflib.gmb_loop a b (2 * length a + 1) [(0, Difflib.la a, 0, Difflib.lb b)] [].
Proof.
  apply gmb_loop_fuel.
  - repeat constructor; unfold Difflib.la, Difflib.lb; cbn; lia.
  - unfold Difflib.la. cbn. lia.
Qed.

End WorkList.

Section Evaluations.
#[local] Open Scope Z_scope.

(** C4: a non-empty string does not differ significantly from itself at the
    default threshold, and a change from or to the empty string is always
    significant. A [str] is shorter than [2 ^ 63]. *)
Theorem C4_significance_boundary (s t : str) (threshold : float) :
  s <> [] -> Z.of_nat (length s) < 2 ^ 63 ->
  is_significant_change s s default_threshold = false
  /\ is_significant_change [] t threshold = true
  /\ is_significant_change t [] threshold = true.
Proof.
  intros Hs Hlen. split; [|split; [reflexivity|by destruct t]].
  unfold is_significant_change. destruct s as [|c s']; [done|].
  rewrite ratio_self by done.
  rewrite calculate_ratio_self by (cbn [length] in *; lia).
  vm_compute. reflexivity.
Qed.

(** The boundary at ["abc"] and ["anything"]. *)
Lemma C4_witness :
  is_significant_change (lit "abc") (lit "abc") default_threshold = false
  /\ is_significant_change [] (lit "anything") default_threshold = true
  /\ is_significant_change (lit "anything") [] default_threshold = true.
Proof.
  apply (C4_significance_boundary (lit "abc") (lit "anything") default_threshold).
  - discriminate.
  - vm_compute. reflexivity.
Defined.


(** C1, at the scenario of the specification: the diff is the expected
    single hunk, and replaying it gives the new text without its final
    newline, which is not the new text. *)
Theorem C1_roundtrip_drops_final_newline `{UnicodeDB} :
  generate_diff example_old example_new = PyStr.join nl example_diff
  /\ apply_diff example_old (generate_diff example_old example_new)
     = Ok (lit "Line 1" ++ nl ++ lit "Line 2 modified" ++ nl ++ lit "Line 3")
  /\ apply_diff example_old (generate_diff example_old example_new) <> Ok example_new.
Proof.
  assert (generate_diff example_old example_new = PyStr.join nl example_diff) as ->
    by (vm_compute; reflexivity).
  split; [reflexivity|].
  assert (apply_diff example_old (PyStr.join nl example_diff)
          = Ok (lit "Line 1" ++ nl ++ lit "Line 2 modified" ++ nl ++ lit "Line 3")) as ->
    by (vm_compute; reflexivity).
  split; [reflexivity|]. vm_compute. discriminate.
Qed.

(** C6, at the scenario of the specification: no smell is reported for a
    number that ends its line. *)
Theorem C6_magic_number_at_line_end `{UnicodeDB} :
  detect_code_smells (lit "x = 12345" ++ nl) = [].
Proof. vm_compute. reflexivity. Qed.

(** C9: on an empty original, a hunk header with new start 0 followed by a
    removal makes [apply_diff] raise [IndexError]. *)
Theorem C9_apply_diff_raises `{UnicodeDB} :
  apply_diff [] (lit "@@ -1,1 +0,0 @@" ++ nl ++ lit "-a") = Raise IndexError.
Proof. vm_compute. reflexivity. Qed.

(** The language is never the empty string, so [create_snapshot] always
    takes the branch that counts the metrics. *)
Lemma map_get_nonempty (m : list (string * string)) (k dflt : str) :
  Forall (fun kv => lit kv.2 <> []) m -> dflt <> [] -> map_get m k dflt <> [].
Proof.
  intros Hm Hd. induction Hm as [|[k' v] m Hv Hm IH]; cbn [map_get]; [done|].
  case_match; [exact Hv|exact IH].
Qed.

Lemma identify_code_language_nonempty `{UnicodeDB} `{OsPath} (filename : str)
    (content : option str) :
  identify_code_language filename content <> [].
Proof.
  unfold identify_code_language. apply map_get_nonempty; [|vm_compute; discriminate].
  unfold language_map. repeat (apply Forall_cons; split; [vm_compute; discriminate|]).
  constructor.
Qed.

Lemma create_snapshot_metrics `{UnicodeDB} `{Zlib} `{OsPath} (w : world)
    (file_path content : str)
    (snap : snapshot) :
  create_snapshot w file_path (Some content) = Some snap ->
  snap_metrics snap = count_code_metrics content.
Proof.
  unfold create_snapshot.
  pose proof (identify_code_language_nonempty file_path (Some content)) as Hlang.
  destruct (compute_file_hash content) as [h|]; [|discriminate].
  destruct (identify_code_language file_path (Some content)) as [|c lang]; [done|].
  destruct (path_exists w file_path);
    (destruct content as [|c0 content];
       [|destruct (compress_content (c0 :: content)) as [data|]; [|discriminate]]);
    cbn; by intros [= <-].
Qed.

(** C8: a path whose extension is not in the table gets the language
    ["Unknown"], and its snapshot carries the full metrics of the content. *)
Theorem C8_metrics_not_gated `{UnicodeDB} `{Zlib} `{OsPath} (w : world) :
  exists snap : snapshot,
    create_snapshot w (lit "notes.xyz") (Some (lit "x = 1" ++ nl)) = Some snap
    /\ snap_language snap = lit "Unknown"
    /\ snap_metrics snap = count_code_metrics (lit "x = 1" ++ nl)
    /\ snap_metrics snap !! "total_lines"%string = Some (Int 1).
Proof.
  unfold create_snapshot.
  destruct H1 as [[|] after];
  destruct (path_exists w (lit "notes.xyz"));
    (eexists; split; [vm_compute; reflexivity|]);
    cbn [snap_language snap_metrics]; repeat split; vm_compute; reflexivity.
Qed.

End Evaluations.

Section Instances.
#[local] Open Scope Z_scope.

(** C2 fails on a lone surrogate: [compress_content] raises. *)
Lemma C2_lone_surrogate :
  (@compress_content stored_zlib lone_surrogate ≫= @decompress_content stored_zlib)
  = Raise UnicodeEncodeError
  /\ (@compress_content stored_zlib lone_surrogate ≫= @decompress_content stored_zlib)
     <> Ok lone_surrogate.
Proof. split; [reflexivity|discriminate]. Qed.

Lemma stored_zlib_lossless : @zlib_lossless stored_zlib.
Proof. intros b. reflexivity. Qed.

Lemma encodable_decide (s : str) : forallb is_scalar s = true -> encodable s.
Proof.
  unfold encodable. induction s as [|c s IH]; cbn [forallb]; [constructor|].
  intros [Hc Hs]%andb_true_iff. constructor; auto.
Qed.

(** The round trip on a Vietnamese greeting, through a codec that stores. *)
Lemma C2_witness :
  (@compress_content stored_zlib (lit "xin chào") ≫= @decompress_content stored_zlib)
  = Ok (lit "xin chào").
Proof.
  apply (@C2_codec_roundtrip stored_zlib (lit "xin chào")).
  - exact stored_zlib_lossless.
  - apply encodable_decide. vm_compute. reflexivity.
Defined.

(** C10 fails on a lone surrogate: [compute_file_hash] raises. *)
Lemma C10_lone_surrogate : compute_file_hash lone_surrogate = Raise UnicodeEncodeError.
Proof. reflexivity. Qed.

(** The digest of a Vietnamese greeting. *)
Lemma C10_witness :
  exists b h,
    Utf8.encode (lit "xin chào") = Ok b /\ compute_file_hash (lit "xin chào") = Ok h
    /\ h = MD5.hexdigest b /\ length h = 32%nat
    /\ Forall (fun c => is_lower_hex c = true) h
    /\ forall s' : str, s' = lit "xin chào" -> compute_file_hash s' = Ok h.
Proof.
  apply (C10_hash_shape (lit "xin chào")).
  apply encodable_decide. vm_compute. reflexivity.
Defined.


(** Deciding that a dictionary holds counters and floats. *)
Lemma counters_decide (m : gmap string number) :
  forallb (fun kv => match kv.2 with
                     | Int z => Z.abs z <? 2 ^ 63
                     | Float _ => true
                     end) (map_to_list m) = true ->
  counters m.
Proof.
  rewrite forallb_forall. intros Hall key v Hv.
  apply elem_of_map_to_list, list_elem_of_In in Hv. specialize (Hall _ Hv). cbn in Hall.
  destruct v as [z|f]; cbn; [|done]. by apply Z.ltb_lt.
Qed.

(** The comparison of two snapshots of one line each. *)
Lemma C5_witness :
  let old := Snapshot (lit "a.py") (lit "a.py") (lit "2025-04-20T22:00:01") None
               (lit "0cc175b9c0f1b6a831c399e269772661") (lit "Python") 6
               (@count_code_metrics ascii_db (lit "x = 1" ++ nl)) (lit "x = 1" ++ nl) None in
  let new := Snapshot (lit "a.py") (lit "a.py") (lit "2025-04-20T22:00:02") None
               (lit "900150983cd24fb0d6963f7d28e17f72") (lit "Python") 7
               (@count_code_metrics ascii_db (lit "y = 22" ++ nl)) (lit "y = 22" ++ nl) None in
  exists r : report,
    compare_snapshots (Some old) (Some new) = Some r
    /\ rep_size_change r = snap_size new - snap_size old
    /\ forall (key : string) (e : metric_change),
         rep_metrics_changes r !! key = Some e <->
         (is_Some (snap_metrics old !! key) \/ is_Some (snap_metrics new !! key))
         /\ PyNum.eqb (metric (snap_metrics old) key) (metric (snap_metrics new) key) = false
         /\ mc_old e = metric (snap_metrics old) key
         /\ mc_new e = metric (snap_metrics new) key
         /\ PyNum.sub (metric (snap_metrics new) key) (metric (snap_metrics old) key)
            = Ok (mc_change e).
Proof.
  apply C5_metrics_delta.
  - apply counters_decide. vm_compute. reflexivity.
  - apply counters_decide. vm_compute. reflexivity.
Defined.

(** C5 fails on two snapshots of one line each: [total_lines] is a key of
    both metrics and has no entry in [metrics_changes]; [max_line_length]
    and [avg_line_length] differ and have theirs. *)
Lemma C5_unchanged_metric_has_no_entry :
  exists (old new : snapshot) (r : report),
    @create_snapshot ascii_db stored_zlib posix example_world (lit "a.py")
      (Some (lit "x = 1" ++ nl)) = Some old
    /\ @create_snapshot ascii_db stored_zlib posix example_world (lit "a.py")
         (Some (lit "y = 22" ++ nl)) = Some new
    /\ compare_snapshots (Some old) (Some new) = Some r
    /\ snap_metrics old !! "total_lines"%string = Some (Int 1)
    /\ snap_metrics new !! "total_lines"%string = Some (Int 1)
    /\ rep_metrics_changes r !! "total_lines"%string = None
    /\ rep_metrics_changes r !! "max_line_length"%string
       = Some (MetricChange (Int 5) (Int 6) (Int 1))
    /\ rep_metrics_changes r !! "avg_line_length"%string
       = Some (MetricChange (Float 5) (Float 6) (Float 1)).
Proof.
  do 3 eexists. split; [vm_compute; reflexivity|]. split; [vm_compute; reflexivity|].
  split; [vm_compute; reflexivity|].
  repeat split; vm_compute; reflexivity.
Qed.

(** C7 fails on a short function that declares a global: the record of
    line 2 comes before the record of line 1. The first loop is out of line
    order too, on a function of 51 lines that declares a global: its record,
    for line 1, is raised after the loop. *)
Lemma C7_second_pass_restarts :
  map smell_line (@detect_code_smells ascii_db (lit "def f():" ++ nl ++ lit "    global x" ++ nl))
  = [2; 1]
  /\ ~ sorted_by_line
         (@detect_code_smells ascii_db (lit "def f():" ++ nl ++ lit "    global x" ++ nl))
  /\ map (fun s => (smell_type s, smell_line s))
         (@detect_code_smells ascii_db
            (lit "def work():" ++ nl ++ lit "    global x" ++ nl
               ++ concat (replicate 50 (lit "    x = 1" ++ nl))))
     = [(global_variable, 2); (long_function, 1)].
Proof.
  assert (map smell_line
            (@detect_code_smells ascii_db (lit "def f():" ++ nl ++ lit "    global x" ++ nl))
          = [2; 1]) as Hl by (vm_compute; reflexivity).
  split; [exact Hl|]. split; [|vm_compute; reflexivity].
  unfold sorted_by_line. rewrite Hl.
  intros Hs. apply StronglySorted_cons in Hs as [Hle _].
  apply Forall_cons in Hle as [Hle _]. lia.
Qed.

End Instances.

(** * The embedding at known values

    The library code embedded above, run on the examples of its own
    documentation, and the scenarios of the repository. *)

Section KnownValues.
#[local] Existing Instance ascii_db.
#[local] Existing Instance stored_zlib.
#[local] Existing Instance posix.
#[local] Open Scope Z_scope.

(** The test suite of RFC 1321. *)
Example md5_rfc1321 :
  MD5.hexdigest (lit "") = lit "d41d8cd98f00b204e9800998ecf8427e"
  /\ MD5.hexdigest (lit "a") = lit "0cc175b9c0f1b6a831c399e269772661"
  /\ MD5.hexdigest (lit "abc") = lit "900150983cd24fb0d6963f7d28e17f72"
  /\ MD5.hexdigest (lit "message digest") = lit "f96b697d7cb7938d525a2f31aaf161d0"
  /\ MD5.hexdigest (lit "abcdefghijklmnopqrstuvwxyz") = lit "c3fcd3d76192e4007dfb496cca67e13b"
  /\ MD5.hexdigest
       (lit "12345678901234567890123456789012345678901234567890123456789012345678901234567890")
     = lit "57edf4a22be3c955ac49da2e2107b67a".
Proof. repeat split; vm_compute; reflexivity. Qed.

Example utf8_known :
  Utf8.encode [0xE9%N] = Ok [0xC3; 0xA9]%N
  /\ Utf8.encode [0x20AC%N] = Ok [0xE2; 0x82; 0xAC]%N
  /\ Utf8.encode [0x1F600%N] = Ok [0xF0; 0x9F; 0x98; 0x80]%N
  /\ Utf8.decode [0xC0; 0x80]%N = Raise UnicodeDecodeError
  /\ Utf8.decode [0xED; 0xA0; 0x80]%N = Raise UnicodeDecodeError
  /\ Utf8.decode [0xF4; 0x90; 0x80; 0x80]%N = Raise UnicodeDecodeError.
Proof. repeat split; vm_compute; reflexivity. Qed.

Example splitlines_known :
  PyStr.splitlines (lit "ab c" ++ nl ++ nl ++ lit "de fg" ++ [13%N] ++ lit "kl" ++ [13; 10]%N)
  = [lit "ab c"; lit ""; lit "de fg"; lit "kl"]
  /\ PyStr.splitlines (lit "") = []
  /\ PyStr.splitlines (lit "One line" ++ nl) = [lit "One line"]
  /\ PyStr.strip (lit "   spacious   ") = lit "spacious".
Proof. repeat split; vm_compute; reflexivity. Qed.

Example re_known :
  Re.rematch Re.hunk_header (lit "@@ -1,3 +12,30 @@ def f") =
    Some [lit "1"; lit "3"; lit "12"; lit "30"]
  /\ Re.rematch Re.hunk_header (lit "@@ -1 +1 @@") = None
  /\ Re.rematch Re.def_line (lit "   def  foo_1 (x):") = Some [lit "foo_1"]
  /\ Re.rematch Re.short_def_line (lit "def foo(x):") = None
  /\ Re.rematch Re.short_def_line (lit "def fo(x):") = Some [lit "fo"]
  /\ Re.rematch Re.short_class_line (lit "class A:") = Some [lit "A"]
  /\ Re.search Re.magic_number (lit "x = 12345") = None
  /\ Re.search Re.magic_number (lit "x = 12345  # Magic number") = Some []
  /\ Re.search Re.magic_number (lit "x = a12345 ") = None
  /\ Re.search Re.global_kw (lit "  global x") = Some []
  /\ Re.search Re.global_kw (lit "  globals()") = None
  /\ Re.rematch Re.import_line (lit "from os import path") = Some []
  /\ Re.rematch Re.import_line (lit "important") = None.
Proof. repeat split; vm_compute; reflexivity. Qed.

(** The examples of the [difflib] documentation. *)
Example difflib_known :
  Difflib.get_matching_blocks (lit "abxcd") (lit "abcd") = [(0, 0, 2); (3, 2, 2); (5, 4, 0)]
  /\ Difflib.get_opcodes (lit "qabxcd") (lit "abycdf") =
     [(Difflib.Delete, 0, 1, 0, 0); (Difflib.Equal, 1, 3, 0, 2);
      (Difflib.Replace, 3, 4, 2, 3); (Difflib.Equal, 4, 6, 3, 5);
      (Difflib.Insert, 6, 6, 5, 6)]
  /\ Difflib.ratio (lit "abcd") (lit "bcde") = 0.75%float
  /\ Difflib.unified_diff [lit "one"; lit "two"; lit "three"; lit "four"]
       [lit "zero"; lit "one"; lit "tree"; lit "four"] (lit "Original") (lit "Current")
     = [lit "--- Original"; lit "+++ Current"; lit "@@ -1,4 +1,4 @@"; lit "+zero";
        lit " one"; lit "-two"; lit "-three"; lit "+tree"; lit " four"].
Proof. repeat split; vm_compute; reflexivity. Qed.

(** [count_code_metrics("def f():\n    return 1\n")]. *)
Example metrics_known :
  count_code_metrics (lit "def f():" ++ nl ++ lit "    return 1" ++ nl)
  = metrics_dict 2 2 0 0 0 1 0 0 0 12 (Float 10) (Float 0)
  /\ count_code_metrics (lit "# note" ++ nl ++ lit "x = 1" ++ nl ++ lit "y = 2" ++ nl)
     !! "avg_line_length"%string = Some (Float 0x1.551eb851eb852p+2)
  /\ count_code_metrics (lit "# note" ++ nl ++ lit "x = 1" ++ nl ++ lit "y = 2" ++ nl)
     !! "comment_ratio"%string = Some (Float 0x1.0aa3d70a3d70ap+5).
Proof. repeat split; vm_compute; reflexivity. Qed.

(** A function of sixty statements is long, and reported at its [def]. *)
Example long_function_known :
  detect_code_smells
    (lit "def compute():" ++ nl ++ concat (replicate 60 (lit "    x = 1" ++ nl)))
  = [Smell long_function 1 (lit "Hàm compute quá dài (60 dòng)") medium].
Proof. vm_compute. reflexivity. Qed.

Example significance_known :
  is_significant_change (lit "abc") (lit "abc") default_threshold = false
  /\ is_significant_change (lit "abc") (lit "xyz") default_threshold = true.
Proof. split; vm_compute; reflexivity. Qed.

Example language_known :
  identify_code_language (lit "src/ultis.py") None = lit "Python"
  /\ identify_code_language (lit "a/b.c/NOTES.MD") None = lit "Markdown"
  /\ identify_code_language (lit "a/b.c/notes") None = lit "Unknown"
  /\ identify_code_language (lit "a/.py") None = lit "Unknown"
  /\ basename (lit "src/ultis.py") = lit "ultis.py".
Proof. repeat split; vm_compute; reflexivity. Qed.

(** Under [ntpath] a backslash separates too, and a drive is no part of the
    last component. *)
Example language_ntpath_known (after_drive : str -> str) :
  let windows := {| os_path := ntpath; ntpath_after_drive := after_drive |} in
  @identify_code_language ascii_db windows (lit "a.py\notes") None = lit "Unknown"
  /\ @identify_code_language ascii_db posix (lit "a.py\notes") None = lit "Unknown"
  /\ @identify_code_language ascii_db windows (lit "a\.py") None = lit "Unknown"
  /\ @identify_code_language ascii_db posix (lit "a\.py") None = lit "Python"
  /\ @identify_code_language ascii_db windows (lit "C:.py") None = lit "Python".
Proof. repeat split; vm_compute; reflexivity. Qed.

(** The texts of [demo()]: the reconstruction lacks the final newline. *)
Example demo_known :
  apply_diff
    (lit "Line 1" ++ nl ++ lit "Line 2" ++ nl ++ lit "Line 3" ++ nl ++ lit "Line 4" ++ nl)
    (generate_diff
       (lit "Line 1" ++ nl ++ lit "Line 2" ++ nl ++ lit "Line 3" ++ nl ++ lit "Line 4" ++ nl)
       (lit "Line 1" ++ nl ++ lit "Line 2 modified" ++ nl ++ lit "Line 3" ++ nl
          ++ lit "New line" ++ nl ++ lit "Line 4" ++ nl))
  = Ok (lit "Line 1" ++ nl ++ lit "Line 2 modified" ++ nl ++ lit "Line 3" ++ nl
          ++ lit "New line" ++ nl ++ lit "Line 4").
Proof. vm_compute. reflexivity. Qed.

(** Emptying a text of two lines: the header [+0,0] puts the cursor at -1,
    and one line survives. *)
Example emptying_known :
  generate_diff (lit "a" ++ nl ++ lit "b") [] =
    PyStr.join nl [lit "--- previous"; lit "+++ current"; lit "@@ -1,2 +0,0 @@";
                   lit "-a"; lit "-b"]
  /\ apply_diff (lit "a" ++ nl ++ lit "b") (generate_diff (lit "a" ++ nl ++ lit "b") [])
     = Ok (lit "a").
Proof. split; vm_compute; reflexivity. Qed.

End KnownValues.

(** * Texts and file names *)

Section Texts.
Context `{OsPath}.
#[local] Open Scope Z_scope.

Lemma slice_to_length {A} (l : list A) (k : Z) :
  0 <= k -> Z.of_nat (length (PyText.slice_to l k)) = Z.min k (Z.of_nat (length l)).
Proof.
  intros Hk. unfold PyText.slice_to.
  replace (k <? 0) with false by (symmetry; apply Z.ltb_ge; lia).
  rewrite length_take. lia.
Qed.

Lemma slice_to_prefix {A} (l : list A) (k : Z) : PyText.slice_to l k `prefix_of` l.
Proof. unfold PyText.slice_to. apply prefix_take. Qed.

(** X16: [truncate_text] keeps its promise exactly when the text already fits or
    the suffix does. *)
Theorem truncate_text_fits (text suffix : str) (max_length : Z) :
  Z.of_nat (length (truncate_text text max_length suffix)) <= max_length
  <-> Z.of_nat (length text) <= max_length \/ Z.of_nat (length suffix) <= max_length.
Proof.
  unfold truncate_text.
  destruct text as [|c text]; [cbn; lia|].
  destruct (Z.leb_spec (Z.of_nat (length (c :: text))) max_length) as [Hfit|Hlong];
    [tauto|].
  set (t := c :: text) in *. rewrite length_app.
  destruct (Z.le_gt_cases (Z.of_nat (length suffix)) max_length) as [Hs|Hs].
  - pose proof (slice_to_length t (max_length - Z.of_nat (length suffix)) ltac:(lia)).
    split; [intros _; by right|intros _; lia].
  - split; [lia|intros [?|?]; lia].
Qed.

(** X17: A text longer than [max_length] is cut to [max_length] characters, the
    suffix included, when the suffix fits: what comes before the suffix is
    the start of the text. *)
Theorem truncate_text_cut (text suffix : str) (max_length : Z) :
  max_length < Z.of_nat (length text) -> Z.of_nat (length suffix) <= max_length ->
  exists kept, truncate_text text max_length suffix = kept ++ suffix
               /\ kept `prefix_of` text
               /\ Z.of_nat (length kept) + Z.of_nat (length suffix) = max_length.
Proof.
  intros Hlong Hs. unfold truncate_text.
  destruct text as [|c text]; [cbn in Hlong; lia|].
  replace (_ <=? _) with false by (symmetry; apply Z.leb_gt; lia).
  eexists. split; [done|]. split; [apply slice_to_prefix|].
  rewrite slice_to_length by lia. lia.
Qed.

(** Whitespace stripping. *)
Lemma lstrip_suffix (s : str) : PyStr.lstrip s `suffix_of` s.
Proof.
  induction s as [|c s IH]; cbn; [done|].
  destruct (PyStr.isspace c); [by apply suffix_cons_r|done].
Qed.

Lemma lstrip_head (s : str) (c : N) (t : str) :
  PyStr.lstrip s = c :: t -> PyStr.isspace c = false.
Proof.
  induction s as [|d s IH]; cbn; [done|].
  destruct (PyStr.isspace d) eqn:Hd; [done|]. by intros [= -> _].
Qed.

Lemma lstrip_fixed (s : str) :
  match s with c :: _ => PyStr.isspace c = false | [] => True end -> PyStr.lstrip s = s.
Proof. destruct s as [|c s]; cbn; [done|]. by intros ->. Qed.

Lemma lstrip_idem (s : str) : PyStr.lstrip (PyStr.lstrip s) = PyStr.lstrip s.
Proof.
  apply lstrip_fixed. destruct (PyStr.lstrip s) eqn:Hs; [done|]. by eapply lstrip_head.
Qed.

Lemma lstrip_length (s : str) : (length (PyStr.lstrip s) <= length s)%nat.
Proof. apply suffix_length, lstrip_suffix. Qed.

Lemma rstrip_prefix (s : str) : PyStr.rstrip s `prefix_of` s.
Proof.
  unfold PyStr.rstrip. destruct (lstrip_suffix (rev s)) as [k Hk].
  exists (rev k). rewrite <- (rev_involutive s), Hk at 1. by rewrite rev_app_distr.
Qed.

Lemma strip_infix (s : str) : exists a b, s = a ++ PyStr.strip s ++ b.
Proof.
  unfold PyStr.strip. destruct (lstrip_suffix s) as [a Ha].
  destruct (rstrip_prefix (PyStr.lstrip s)) as [b Hb].
  exists a, b. by rewrite <- Hb.
Qed.

Lemma strip_length (s : str) : (length (PyStr.strip s) <= length s)%nat.
Proof.
  destruct (strip_infix s) as (a & b & Hs). rewrite Hs at 2. rewrite !length_app. lia.
Qed.

Lemma strip_elem (s : str) (c : N) : c ∈ PyStr.strip s -> c ∈ s.
Proof.
  destruct (strip_infix s) as (a & b & Hs). rewrite Hs at 2.
  rewrite !elem_of_app. tauto.
Qed.

(** What is left of a string stripped at its end still starts as it did. *)
Lemma rstrip_head (s : str) (c : N) (t : str) :
  PyStr.rstrip s = c :: t -> exists t', s = c :: t'.
Proof.
  intros Hs. destruct (rstrip_prefix s) as [k Hk]. rewrite Hs in Hk. by exists (t ++ k).
Qed.

Lemma rstrip_idem (s : str) : PyStr.rstrip (PyStr.rstrip s) = PyStr.rstrip s.
Proof. unfold PyStr.rstrip. by rewrite rev_involutive, lstrip_idem. Qed.

Lemma lstrip_rstrip (s : str) :
  PyStr.lstrip (PyStr.rstrip (PyStr.lstrip s)) = PyStr.rstrip (PyStr.lstrip s).
Proof.
  apply lstrip_fixed. destruct (PyStr.rstrip (PyStr.lstrip s)) as [|c t] eqn:Hs; [done|].
  apply rstrip_head in Hs as [t' Ht']. by eapply lstrip_head.
Qed.

Lemma strip_idem (s : str) : PyStr.strip (PyStr.strip s) = PyStr.strip s.
Proof. unfold PyStr.strip. by rewrite lstrip_rstrip, rstrip_idem. Qed.

(** The replacement loop of [sanitize_filename], character by character. *)
Lemma replace_char_underscore (s : str) (old : N) :
  PyText.replace_char s old (lit "_") = map (fun c => if (c =? old)%N then 95%N else c) s.
Proof.
  unfold PyText.replace_char. induction s as [|c s IH]; [done|].
  cbn [flat_map map]. rewrite IH. by destruct (c =? old)%N.
Qed.

Lemma clean_char_spec (c : N) :
  foldl (fun d old => if (d =? old)%N then 95%N else d) c invalid_chars = clean_char c.
Proof.
  unfold clean_char, invalid_chars. cbn [foldl].
  repeat match goal with
         | |- context [(c =? ?y)%N] =>
             destruct (N.eqb_spec c y); [subst; vm_compute; reflexivity|]
         end.
  rewrite bool_decide_eq_false_2; [done|].
  rewrite !elem_of_cons, elem_of_nil. intros Hc. decompose [or] Hc; done.
Qed.

Lemma replaced_map (filename : str) :
  foldl (fun name char => PyText.replace_char name char (lit "_")) filename invalid_chars
  = map clean_char filename.
Proof.
  transitivity (map (fun c => foldl (fun d old => if (d =? old)%N then 95%N else d)
                               c invalid_chars) filename).
  - generalize invalid_chars. intros chars. revert filename.
    induction chars as [|old chars IH]; intros filename; cbn [foldl].
    + by rewrite map_id.
    + rewrite IH, replace_char_underscore, map_map. done.
  - apply map_ext. intros c. apply clean_char_spec.
Qed.

Lemma clean_char_valid (c : N) : clean_char c ∉ invalid_chars.
Proof.
  unfold clean_char. case_bool_decide as Hc; [|done].
  unfold invalid_chars. rewrite !elem_of_cons, elem_of_nil.
  intros Hd. decompose [or] Hd; done.
Qed.

Lemma clean_char_fixed (c : N) : c ∉ invalid_chars -> clean_char c = c.
Proof. intros Hc. unfold clean_char. by rewrite bool_decide_eq_false_2. Qed.

Lemma clean_char_dot (c : N) : (clean_char c =? 46)%N = (c =? 46)%N.
Proof.
  unfold clean_char. case_bool_decide as Hc; [|done].
  destruct (N.eqb_spec c 46) as [->|]; [|done].
  exfalso. revert Hc. unfold invalid_chars. rewrite !elem_of_cons, elem_of_nil.
  intros Hd. decompose [or] Hd; done.
Qed.

Lemma rfind_from_clean (s : str) (i last : Z) :
  PyStr.rfind_from 46 (map clean_char s) i last = PyStr.rfind_from 46 s i last.
Proof.
  revert i last. induction s as [|c s IH]; intros i last; cbn; [done|].
  by rewrite IH, clean_char_dot.
Qed.

Lemma rfind_from_bounds (c : N) (s : str) (i last : Z) :
  last < i ->
  let r := PyStr.rfind_from c s i last in
  (r = last \/ i <= r) /\ r < i + Z.of_nat (length s).
Proof.
  revert i last. induction s as [|d s IH]; intros i last Hl; cbn zeta; cbn [PyStr.rfind_from].
  - cbn. lia.
  - cbn [length]. destruct (d =? c)%N.
    + specialize (IH (i + 1) i ltac:(lia)). cbn zeta in IH. lia.
    + specialize (IH (i + 1) last ltac:(lia)). cbn zeta in IH. lia.
Qed.

Lemma sep_index_bounds (p : str) : -1 <= sep_index p.
Proof.
  unfold sep_index.
  pose proof (rfind_from_bounds 47 p 0 (-1) ltac:(lia)) as Hs.
  pose proof (rfind_from_bounds 92 p 0 (-1) ltac:(lia)) as Hb.
  cbn zeta in Hs, Hb. fold (PyStr.rfind p 47) in Hs. fold (PyStr.rfind p 92) in Hb.
  destruct os_path; lia.
Qed.

(** The two parts [splitext] returns make up the path, and the extension
    starts no earlier than the last dot. *)
Lemma splitext_parts (p : str) :
  (splitext p).1 ++ (splitext p).2 = p
  /\ ((splitext p).2 = []
      \/ (0 <= last_dot p
          /\ Z.of_nat (length (splitext p).2) = Z.of_nat (length p) - last_dot p)).
Proof.
  unfold splitext, last_dot.
  pose proof (rfind_from_bounds 46 p 0 (-1) ltac:(lia)) as Hd.
  cbn zeta in Hd. fold (PyStr.rfind p 46) in Hd.
  pose proof (sep_index_bounds p) as Hs.
  destruct (Z.ltb_spec (sep_index p) (PyStr.rfind p 46)) as [Hlt|Hge];
    [|by rewrite app_nil_r; auto].
  destruct (forallb _ _); [by rewrite app_nil_r; auto|].
  cbn [fst snd]. rewrite take_drop. split; [done|].
  right. rewrite length_drop. lia.
Qed.

Lemma sanitize_filename_unfold (filename : str) :
  sanitize_filename filename
  = let cleaned := map clean_char filename in
    let cut :=
      if (255 <? Z.of_nat (length cleaned))
      then PyText.slice_to (splitext cleaned).1
             (255 - Z.of_nat (length (splitext cleaned).2)) ++ (splitext cleaned).2
      else cleaned in
    match PyStr.strip cut with
    | [] => lit "untitled"
    | _ => PyStr.strip cut
    end.
Proof.
  unfold sanitize_filename. rewrite replaced_map. cbn zeta.
  by destruct (splitext (map clean_char filename)).
Qed.

Lemma untitled_chars : lit "untitled" = [117; 110; 116; 105; 116; 108; 101; 100]%N.
Proof. vm_compute. reflexivity. Qed.

Lemma sanitized_safe (filename : str) :
  let r := sanitize_filename filename in
  r <> [] /\ (forall c, c ∈ r -> c ∉ invalid_chars) /\ PyStr.strip r = r.
Proof.
  cbn zeta. rewrite sanitize_filename_unfold. cbn zeta.
  set (cleaned := map clean_char filename).
  set (cut := if 255 <? _ then _ else _).
  assert (forall c, c ∈ cut -> c ∉ invalid_chars) as Hcut.
  { assert (forall c, c ∈ cleaned -> c ∉ invalid_chars) as Hcl.
    { intros c [d [-> _]]%list_elem_of_fmap. apply clean_char_valid. }
    subst cut. destruct (255 <? _); [|done].
    intros c Hc. apply Hcl. destruct (splitext_parts cleaned) as [Hparts _].
    rewrite <- Hparts. rewrite elem_of_app in *. destruct Hc as [Hc|Hc]; [left|by right].
    destruct (slice_to_prefix (splitext cleaned).1
                (255 - Z.of_nat (length (splitext cleaned).2))) as [k Hk].
    rewrite Hk, elem_of_app. by left. }
  destruct (PyStr.strip cut) as [|c r] eqn:Hr.
  - split; [done|]. split; [|by vm_compute].
    intros c. rewrite untitled_chars. unfold invalid_chars.
    rewrite !elem_of_cons, !elem_of_nil.
    intros Hc Hd. decompose [or] Hc; subst; decompose [or] Hd; done.
  - split; [done|]. split.
    + intros d Hd. apply Hcut, strip_elem. by rewrite Hr.
    + rewrite <- Hr. apply strip_idem.
Qed.

Lemma sanitized_length (filename : str) :
  short_extension filename -> (length (sanitize_filename filename) <= 255)%nat.
Proof.
  intros Hext. rewrite sanitize_filename_unfold. cbn zeta.
  set (cleaned := map clean_char filename).
  set (cut := if 255 <? _ then _ else _).
  assert (length cut <= 255)%nat as Hcut.
  { subst cut. destruct (Z.ltb_spec 255 (Z.of_nat (length cleaned))) as [Hlong|Hfit]; [|lia].
    destruct (splitext_parts cleaned) as [Hparts Hdot].
    assert (Z.of_nat (length (splitext cleaned).2) <= 255) as Hshort.
    { destruct Hdot as [->|[Hpos Hlen]]; [cbn; lia|].
      rewrite Hlen. subst cleaned. unfold last_dot, PyStr.rfind in *.
      rewrite rfind_from_clean, length_map in *.
      destruct Hext as [Hno|Hlate]; unfold last_dot, PyStr.rfind in *; lia. }
    rewrite length_app.
    assert (0 <= 255 - Z.of_nat (length (splitext cleaned).2)) as Hk.
    { lia. }
    pose proof (slice_to_length (splitext cleaned).1
                  (255 - Z.of_nat (length (splitext cleaned).2)) Hk). lia. }
  pose proof (strip_length cut).
  destruct (PyStr.strip cut) as [|c r] eqn:Hr; [by vm_compute; lia|]. lia.
Qed.

(** X23: A sanitized name is never empty, holds none of the invalid characters,
    and neither starts nor ends with whitespace. *)
Theorem sanitize_filename_safe (filename : str) :
  sanitize_filename filename <> []
  /\ (forall c, c ∈ sanitize_filename filename -> c ∉ invalid_chars)
  /\ PyStr.strip (sanitize_filename filename) = sanitize_filename filename.
Proof. exact (sanitized_safe filename). Qed.

(** X24: A name whose last dot, if any, is among its last 255 characters is
    sanitized to at most 255 characters. *)
Theorem sanitize_filename_length (filename : str) :
  short_extension filename -> (length (sanitize_filename filename) <= 255)%nat.
Proof. exact (sanitized_length filename). Qed.

(** X25: On a name whose last dot, if any, is among its last 255 characters
    [sanitize_filename] is idempotent. *)
Theorem sanitize_filename_idempotent (filename : str) :
  short_extension filename ->
  sanitize_filename (sanitize_filename filename) = sanitize_filename filename.
Proof.
  intros Hext. pose proof (sanitized_length filename Hext) as Hlen.
  destruct (sanitized_safe filename) as (Hne & Hvalid & Hstrip).
  set (r := sanitize_filename filename) in *.
  rewrite sanitize_filename_unfold. cbn zeta.
  assert (map clean_char r = r) as ->.
  { rewrite <- (map_id r) at 2. apply map_ext_in. intros c Hc.
    apply clean_char_fixed, Hvalid. by apply list_elem_of_In. }
  replace (255 <? Z.of_nat (length r)) with false by (symmetry; apply Z.ltb_ge; lia).
  rewrite Hstrip. by destruct r.
Qed.

End Texts.

(** * A text against itself *)

Section SelfDiff.
Context `{UnicodeDB}.
#[local] Open Scope Z_scope.

(** The opcodes of a sequence against itself make no group. *)
Lemma get_grouped_opcodes_self {E : Type} `{Countable E} (a : list E) :
  Difflib.get_grouped_opcodes a a 3 = [].
Proof.
  destruct a as [|x a]; [by vm_compute|].
  unfold Difflib.get_grouped_opcodes, Difflib.get_opcodes.
  rewrite get_matching_blocks_self by done.
  set (n := Z.of_nat (length (x :: a))).
  assert (0 < n) as Hn by (subst n; cbn [length]; lia).
  cbn [Difflib.opcodes_from]. rewrite !Z.ltb_irrefl. cbn [andb app].
  replace (n =? 0) with false by (symmetry; apply Z.eqb_neq; lia).
  rewrite ?Z.add_0_l, ?Z.ltb_irrefl. cbn [andb Z.eqb app].
  cbn [Difflib.trim_first]. unfold Difflib.trim_last. cbn [reverse rev_append].
  cbn [Difflib.group_loop].
  rewrite bool_decide_eq_true_2 by done. cbn [andb].
  replace (_ <? _) with false by (symmetry; apply Z.ltb_ge; lia).
  reflexivity.
Qed.

Lemma unified_diff_self (a : list str) (fromfile tofile : str) :
  Difflib.unified_diff a a fromfile tofile = [].
Proof. unfold Difflib.unified_diff. by rewrite get_grouped_opcodes_self. Qed.

(** Joining the lines of a text. *)
Lemma splitlines_from_nonempty (cur : str) (started : bool) (s : str) :
  s <> [] -> PyStr.splitlines_from cur started s <> [].
Proof.
  revert cur started. induction s as [|c s IH]; intros cur started Hs; [done|].
  cbn [PyStr.splitlines_from]. destruct (PyStr.is_linebreak c).
  - destruct s as [|d s]; [done|]. by destruct (_ && _).
  - destruct s as [|d s]; [done|]. by apply IH.
Qed.

Lemma join_cons (sep x : str) (l : list str) :
  l <> [] -> PyStr.join sep (x :: l) = x ++ sep ++ PyStr.join sep l.
Proof. by destruct l. Qed.

Lemma join_splitlines_from (cur : str) (started : bool) (s : str) :
  plain_lines s -> (started = false -> cur = []) ->
  PyStr.join nl (PyStr.splitlines_from cur started s) = (rev cur ++ s)%list.
Proof.
  revert cur started. induction s as [|c s IH]; intros cur started [Hbr Hlast] Hcur.
  - cbn. destruct started; [by rewrite app_nil_r|]. by rewrite Hcur.
  - cbn [PyStr.splitlines_from]. apply Forall_cons in Hbr as [Hc Hbr].
    assert (plain_lines s \/ s = []) as Hs.
    { destruct s as [|d s]; [by right|left]. split; [done|].
      intros Hl. apply Hlast. by rewrite last_cons, Hl. }
    destruct (PyStr.is_linebreak c) eqn:Hlb.
    + rewrite (Hc eq_refl) in *. destruct s as [|d s]; [by destruct Hlast|].
      destruct Hs as [Hs|]; [|done]. cbn [N.eqb Pos.eqb andb].
      rewrite join_cons by (by apply splitlines_from_nonempty).
      by rewrite IH.
    + destruct Hs as [Hs| ->].
      * rewrite IH by done. cbn [rev]. by rewrite <- app_assoc.
      * by cbn.
Qed.

Lemma join_splitlines (s : str) :
  plain_lines s -> PyStr.join nl (PyStr.splitlines s) = s.
Proof. intros Hs. unfold PyStr.splitlines. by rewrite join_splitlines_from. Qed.

(** X5: Replaying the diff of a text against itself gives the text back, when
    its lines end with newlines only and the last line has none. *)
Theorem apply_diff_self (s : str) :
  plain_lines s -> apply_diff s (generate_diff s s) = Ok s.
Proof.
  intros Hs. unfold generate_diff. rewrite unified_diff_self.
  unfold apply_diff. cbn. by rewrite join_splitlines.
Qed.

End SelfDiff.

Section SelfCompare.
Context `{UnicodeDB}.
#[local] Open Scope Z_scope.

Lemma metric_delta_self (m : gmap string number) :
  no_nan m -> metrics_delta m m = Ok ∅.
Proof.
  intros Hm. unfold metrics_delta.
  assert (merge metric_delta m m = ∅) as ->.
  { apply map_eq. intros k. rewrite lookup_merge, lookup_empty.
    destruct (m !! k) as [v|] eqn:Hv; cbn; [|done].
    unfold metric_delta. cbn [default]. by rewrite (Hm k v Hv). }
  rewrite bool_decide_eq_true_2 by apply map_Forall_empty. by rewrite omap_empty.
Qed.

(** X22: A snapshot compared with itself: no diff, no metric change, no size
    change; the change is not significant, unless the content is empty. The
    metrics hold no NaN, which differs from itself. *)
Theorem compare_snapshots_self (snap : snapshot) :
  Z.of_nat (length (snap_content snap)) < 2 ^ 63 ->
  no_nan (snap_metrics snap) ->
  exists r, compare_snapshots (Some snap) (Some snap) = Some r
            /\ rep_diff r = []
            /\ rep_metrics_changes r = ∅
            /\ rep_size_change r = 0
            /\ rep_is_significant r = bool_decide (snap_content snap = []).
Proof.
  intros Hlen Hm. unfold compare_snapshots. rewrite metric_delta_self by done.
  eexists. split; [reflexivity|]. cbn [rep_diff rep_metrics_changes
    rep_size_change rep_is_significant].
  split; [unfold generate_diff; by rewrite unified_diff_self|].
  split; [done|]. split; [lia|].
  unfold is_significant_change. destruct (snap_content snap) as [|c s] eqn:Hc; [done|].
  rewrite ratio_self by done. rewrite calculate_ratio_self by (cbn [length] in *; lia).
  vm_compute. reflexivity.
Qed.

End SelfCompare.

(** * More on the metrics and the smells *)

Section Counters.
Context `{UnicodeDB}.
#[local] Open Scope Z_scope.

Lemma scan_line_counters (st : scan_state) (line : str) (n : Z) :
  counters_within st n -> counters_within (scan_line st line) (n + 1).
Proof.
  unfold counters_within, scan_line. destruct st as [bl cm ds fc cc ic td lens ind delim].
  cbn [blank_lines comment_lines docstring_lines function_count class_count
       import_count todo_count].
  intros (Hb & Hc & Hd & Hf & Hcl & Hi & Ht & Hsum).
  repeat case_match;
    cbn [blank_lines comment_lines docstring_lines function_count class_count
         import_count todo_count]; lia.
Qed.

Lemma scan_line_lengths (st : scan_state) (line : str) :
  line_lengths (scan_line st line) = line_lengths st ++ [Z.of_nat (length line)].
Proof.
  unfold scan_line. destruct st as [bl cm ds fc cc ic td lens ind delim].
  repeat case_match; reflexivity.
Qed.

Lemma scan_lines_counters (lines : list str) (st : scan_state) (n : Z) :
  counters_within st n ->
  counters_within (foldl scan_line st lines) (n + Z.of_nat (length lines))
  /\ line_lengths (foldl scan_line st lines)
     = line_lengths st ++ map (fun line => Z.of_nat (length line)) lines.
Proof.
  revert st n. induction lines as [|line lines IH]; intros st n Hst; cbn [foldl length map].
  - replace (n + Z.of_nat 0) with n by lia. by rewrite app_nil_r.
  - replace (n + Z.of_nat (S (length lines))) with (n + 1 + Z.of_nat (length lines)) by lia.
    destruct (IH (scan_line st line) (n + 1)) as [Hc Hl]; [by apply scan_line_counters|].
    split; [done|]. by rewrite Hl, scan_line_lengths, <- app_assoc.
Qed.

Lemma max_bounds (l : list Z) : 0 <= foldr Z.max 0 l /\ Forall (fun z => z <= foldr Z.max 0 l) l.
Proof.
  induction l as [|z l [IH0 IH]]; cbn [foldr]; [by split|].
  split; [lia|]. constructor; [lia|].
  eapply Forall_impl; [exact IH|]. cbn beta. intros; lia.
Qed.

Lemma metrics_dict_counters (t c cm b d f cl im td mx : Z) (avg ratio : number) :
  let m := metrics_dict t c cm b d f cl im td mx avg ratio in
  m !! "code_lines"%string = Some (Int c) /\ m !! "comment_lines"%string = Some (Int cm)
  /\ m !! "function_count"%string = Some (Int f)
  /\ m !! "class_count"%string = Some (Int cl)
  /\ m !! "import_count"%string = Some (Int im) /\ m !! "todo_count"%string = Some (Int td)
  /\ m !! "max_line_length"%string = Some (Int mx).
Proof. repeat split; reflexivity. Qed.

(** X18: In the result of [count_code_metrics] the lines counted as
    functions, classes and imports are code lines,
    each counted once; a TODO is counted on comment lines only; no line is
    longer than [max_line_length]. *)
Theorem count_code_metrics_counters (content : str) :
  exists code comment functions classes imports todos longest : Z,
    count_code_metrics content !! "code_lines"%string = Some (Int code)
    /\ count_code_metrics content !! "comment_lines"%string = Some (Int comment)
    /\ count_code_metrics content !! "function_count"%string = Some (Int functions)
    /\ count_code_metrics content !! "class_count"%string = Some (Int classes)
    /\ count_code_metrics content !! "import_count"%string = Some (Int imports)
    /\ count_code_metrics content !! "todo_count"%string = Some (Int todos)
    /\ count_code_metrics content !! "max_line_length"%string = Some (Int longest)
    /\ 0 <= functions /\ 0 <= classes /\ 0 <= imports
    /\ functions + classes + imports <= code
    /\ 0 <= todos <= comment
    /\ Forall (fun line => Z.of_nat (length line) <= longest) (PyStr.splitlines content).
Proof.
  unfold count_code_metrics. destruct content as [|c content].
  - exists 0, 0, 0, 0, 0, 0, 0.
    destruct (metrics_dict_counters 0 0 0 0 0 0 0 0 0 0 (Int 0) (Int 0))
      as (-> & -> & -> & -> & -> & -> & ->).
    repeat split; try lia. constructor.
  - set (lines := PyStr.splitlines (c :: content)).
    set (st := foldl scan_line scan_init lines).
    destruct (scan_lines_counters lines scan_init 0) as [Hc Hl].
    { unfold counters_within, scan_init. cbn. lia. }
    fold st in Hc, Hl. destruct Hc as (Hb & Hcm & Hd & Hf & Hcl & Hi & Ht & Hsum).
    eexists _, _, _, _, _, _, _. cbn zeta.
    match goal with |- context [metrics_dict ?t ?c ?cm ?b ?d ?f ?cl ?im ?td ?mx ?av ?ra] =>
      destruct (metrics_dict_counters t c cm b d f cl im td mx av ra)
        as (-> & -> & -> & -> & -> & -> & ->) end.
    repeat split; try lia.
    rewrite Hl. cbn [line_lengths scan_init app].
    destruct (max_bounds (map (fun line => Z.of_nat (length line)) lines)) as [_ Hmax].
    apply Forall_forall. intros line Hin. apply (proj1 (Forall_forall _ _) Hmax).
    exact (list_elem_of_fmap_2 (fun line : str => Z.of_nat (length line)) lines line Hin).
Qed.

End Counters.

Section Placement.
Context `{UnicodeDB}.
#[local] Open Scope Z_scope.

Lemma well_placed_mono (i j : Z) (s : smell) : i <= j -> well_placed i s -> well_placed j s.
Proof. unfold well_placed. intros Hij [Hl Hs]. split; [lia|done]. Qed.

Lemma raised_well_placed (k : smell_kind) (i n : Z) (l : list smell) :
  raises k i l -> 0 <= i < n ->
  Forall (fun s => smell_severity s = severity_of (smell_type s)) l ->
  Forall (well_placed n) l.
Proof.
  intros Hl Hi Hs. apply Forall_forall. intros s Hin.
  destruct (proj1 (Forall_forall _ _) Hl s Hin) as [_ Hline].
  split; [lia|exact (proj1 (Forall_forall _ _) Hs s Hin)].
Qed.

Lemma long_line_placed (i n : Z) (line : str) :
  0 <= i < n -> Forall (well_placed n) (long_line_smell i line).
Proof.
  intros Hi. eapply raised_well_placed; [apply long_line_raises|done|].
  unfold long_line_smell. case_match; repeat constructor.
Qed.

Lemma global_variable_placed (i n : Z) (line : str) :
  0 <= i < n -> Forall (well_placed n) (global_variable_smell i line).
Proof.
  intros Hi. eapply raised_well_placed; [apply global_variable_raises|done|].
  unfold global_variable_smell. case_match; repeat constructor.
Qed.

Lemma deep_nesting_placed (i n : Z) (line : str) :
  0 <= i < n -> Forall (well_placed n) (deep_nesting_smell i line).
Proof.
  intros Hi. eapply raised_well_placed; [apply deep_nesting_raises|done|].
  unfold deep_nesting_smell. case_match; repeat constructor.
Qed.

Lemma magic_number_placed (i n : Z) (line : str) :
  0 <= i < n -> Forall (well_placed n) (magic_number_smell i line).
Proof.
  intros Hi. eapply raised_well_placed; [apply magic_number_raises|done|].
  unfold magic_number_smell. case_match; repeat constructor.
Qed.

Lemma long_function_placed (st : smell_state) (i : Z) :
  pass1_within st i -> Forall (well_placed i) (long_function_smell st).
Proof.
  intros [_ Hf]. unfold long_function_smell.
  destruct (in_function st); [|constructor]. specialize (Hf eq_refl).
  case_match; repeat constructor; cbn; lia.
Qed.

Lemma short_name_placed (i n : Z) (line : str) :
  0 <= i < n -> Forall (well_placed n) (short_name_step i line).
Proof.
  intros Hi. eapply raised_well_placed; [apply short_name_raises|done|].
  unfold short_name_step. repeat case_match; repeat constructor.
Qed.

Lemma smell_line_step_within (st : smell_state) (i : Z) (line : str) :
  0 <= i -> pass1_within st i -> pass1_within (smell_line_step st i line) (i + 1).
Proof.
  intros Hi Hst. pose proof (long_function_placed st i Hst) as Hlong.
  destruct Hst as [Hsm Hf].
  assert (Forall (well_placed (i + 1)) (smells st)) as Hsm'.
  { eapply Forall_impl; [exact Hsm|]. intros s. apply well_placed_mono. lia. }
  assert (Forall (well_placed (i + 1)) (long_function_smell st)) as Hlong'.
  { eapply Forall_impl; [exact Hlong|]. intros s. apply well_placed_mono. lia. }
  unfold pass1_within, smell_line_step. destruct (skipped line).
  { split; [done|]. intros Hin. specialize (Hf Hin). lia. }
  destruct (Re.rematch Re.def_line line); cbn [smells in_function function_start_line];
    (split; [rewrite !Forall_app; repeat split; try done;
             first [ by apply long_line_placed; lia | by apply global_variable_placed; lia
                   | by apply deep_nesting_placed; lia | by apply magic_number_placed; lia
                   | constructor ]
            |]).
  - intros _. lia.
  - intros Hin. specialize (Hf Hin). lia.
Qed.

Lemma smell_pass1_within (lines : list str) (st : smell_state) (i : Z) :
  0 <= i -> pass1_within st i ->
  pass1_within (smell_pass1 st i lines) (i + Z.of_nat (length lines)).
Proof.
  revert st i. induction lines as [|line lines IH]; intros st i Hi Hst;
    cbn [smell_pass1 length].
  - by replace (i + Z.of_nat 0) with i by lia.
  - replace (i + Z.of_nat (S (length lines))) with (i + 1 + Z.of_nat (length lines)) by lia.
    apply IH; [lia|]. by apply smell_line_step_within.
Qed.

Lemma smell_pass2_within (lines : list str) (i n : Z) :
  0 <= i -> i + Z.of_nat (length lines) <= n ->
  Forall (well_placed n) (smell_pass2 i lines).
Proof.
  revert i. induction lines as [|line lines IH]; intros i Hi Hn; cbn [smell_pass2 length] in *.
  - constructor.
  - apply Forall_app. split; [apply short_name_placed; lia|apply IH; lia].
Qed.

(** X14: Every record of [detect_code_smells] points at a line of the text
    and has the severity of its kind; no record is of high severity. *)
Theorem detect_code_smells_placed (content : str) :
  Forall (fun s => (1 <= smell_line s <= Z.of_nat (length (PyStr.splitlines content)))
                   /\ smell_severity s = severity_of (smell_type s)
                   /\ smell_severity s <> high)
         (detect_code_smells content).
Proof.
  assert (Forall (well_placed (Z.of_nat (length (PyStr.splitlines content))))
                 (detect_code_smells content)) as Hall.
  { unfold detect_code_smells. destruct content as [|c content]; [constructor|].
    set (lines := PyStr.splitlines (c :: content)).
    pose proof (smell_pass1_within lines (SmellState [] [] 0 0 false) 0 ltac:(lia)) as Hst.
    rewrite Z.add_0_l in Hst.
    assert (pass1_within (SmellState [] [] 0 0 false) 0) as H0 by (split; [constructor|done]).
    specialize (Hst H0). rewrite !Forall_app. split; [apply Hst|].
    split; [by apply long_function_placed|]. apply smell_pass2_within; lia. }
  eapply Forall_impl; [exact Hall|]. intros s [Hl Hs]. split; [done|]. split; [done|].
  rewrite Hs. by destruct (smell_type s).
Qed.

End Placement.

(** * The matcher and the patterns *)

Section Matcher.
Context `{UnicodeDB}.

Lemma rmatch_star {A} (r : Re.regex) (st : Re.mstate) (k : Re.mstate -> option A) :
  Re.rmatch (Re.Star r) st k
  = star_loop (Re.rmatch r) k (length (Re.ms_rest st)) st.
Proof. reflexivity. Qed.

Lemma star_loop_sound {A} (r : Re.regex) (k : Re.mstate -> option A) (a : A) :
  (forall st (k' : Re.mstate -> option A), Re.rmatch r st k' = Some a ->
     exists st', matches r st st' /\ k' st' = Some a) ->
  forall fuel st, star_loop (Re.rmatch r) k fuel st = Some a ->
    exists st', matches (Re.Star r) st st' /\ k st' = Some a.
Proof.
  intros IHr. induction fuel as [|fuel IH]; intros st; cbn [star_loop].
  - intros Hk. exists st. split; [constructor|done].
  - destruct (Re.rmatch r st _) as [b|] eqn:Hr.
    + intros [= ->]. apply IHr in Hr as (st1 & Hm & Hk1).
      case_bool_decide as Hlen; [|done].
      apply IH in Hk1 as (st2 & Hm2 & Hk2).
      exists st2. split; [|done]. by eapply matches_star_more.
    + intros Hk. exists st. split; [constructor|done].
Qed.

(** The matcher finds only what the pattern allows. *)
Lemma rmatch_sound {A} (r : Re.regex) (st : Re.mstate) (k : Re.mstate -> option A) (a : A) :
  Re.rmatch r st k = Some a -> exists st', matches r st st' /\ k st' = Some a.
Proof.
  revert st k. induction r as [|c|p|r1 IH1 r2 IH2|r1 IH1 r2 IH2|r IH|r IH| |];
    intros st k; cbn [Re.rmatch].
  - intros Hk. exists st. split; [constructor|done].
  - destruct (Re.step_char _ st) as [st'|] eqn:Hs; [|done]. cbn.
    intros Hk. exists st'. split; [by constructor|done].
  - destruct (Re.step_char _ st) as [st'|] eqn:Hs; [|done]. cbn.
    intros Hk. exists st'. split; [by constructor|done].
  - intros (st1 & Hm1 & Hk1)%IH1. apply IH2 in Hk1 as (st2 & Hm2 & Hk2).
    exists st2. split; [by econstructor|done].
  - destruct (Re.rmatch r1 st k) as [b|] eqn:Hr.
    + intros [= ->]. apply IH1 in Hr as (st' & Hm & Hk). exists st'.
      split; [by apply matches_alt_l|done].
    + intros (st' & Hm & Hk)%IH2. exists st'. split; [by apply matches_alt_r|done].
  - apply (star_loop_sound r k a IH).
  - intros (st' & Hm & Hk)%IH. eexists. split; [by apply matches_grp|done].
  - destruct (Re.ms_prev st) eqn:Hp; [done|]. intros Hk. exists st.
    split; [by constructor|done].
  - destruct (Re.at_word_boundary st) eqn:Hb; [|done]. intros Hk. exists st.
    split; [by constructor|done].
Qed.

Lemma star_loop_complete {A} (r : Re.regex) (k : Re.mstate -> option A) (st' : Re.mstate) :
  (forall st st1, matches r st st1 -> forall k' : Re.mstate -> option A,
     is_Some (k' st1) -> is_Some (Re.rmatch r st k')) ->
  is_Some (k st') ->
  forall fuel st, (length (Re.ms_rest st) <= fuel)%nat -> matches (Re.Star r) st st' ->
    is_Some (star_loop (Re.rmatch r) k fuel st).
Proof.
  intros IHr Hk. induction fuel as [|fuel IH]; intros st Hlen Hm; cbn [star_loop].
  - inversion Hm; subst; [done|lia].
  - inversion Hm as [| | | | | |? ?|? ? st1 ? Hm1 Hshort Hm2| | |]; subst.
    + by destruct (Re.rmatch r st' _).
    + assert (is_Some (Re.rmatch r st (fun st2 =>
                if bool_decide (length (Re.ms_rest st2) < length (Re.ms_rest st))%nat
                then star_loop (Re.rmatch r) k fuel st2 else None))) as [b ->]; [|done].
      eapply IHr; [exact Hm1|]. rewrite bool_decide_eq_true_2 by done.
      apply IH; [lia|done].
Qed.

(** The matcher finds a match whenever the pattern allows one. *)
Lemma rmatch_complete {A} (r : Re.regex) (st st' : Re.mstate) (k : Re.mstate -> option A) :
  matches r st st' -> is_Some (k st') -> is_Some (Re.rmatch r st k).
Proof.
  revert st st' k. induction r as [|c|p|r1 IH1 r2 IH2|r1 IH1 r2 IH2|r IH|r IH| |];
    intros st st' k Hm Hk; inversion Hm; subst; cbn [Re.rmatch].
  - done.
  - match goal with Hs : Re.step_char _ _ = _ |- _ => by rewrite Hs end.
  - match goal with Hs : Re.step_char _ _ = _ |- _ => by rewrite Hs end.
  - eapply IH1; [eassumption|]. by eapply IH2.
  - destruct (IH1 st st' k ltac:(eassumption) Hk) as [b ->]. done.
  - destruct (Re.rmatch r1 st k) eqn:Hr; [done|]. by eapply IH2.
  - eapply (star_loop_complete r k st'); [|done|done|constructor].
    intros. by eapply IH.
  - eapply (star_loop_complete r k st'); [|done|done|by eapply matches_star_more].
    intros. by eapply IH.
  - eapply IH; [eassumption|]. done.
  - match goal with Hp : Re.ms_prev _ = None |- _ => by rewrite Hp end.
  - match goal with Hb : Re.at_word_boundary _ = true |- _ => by rewrite Hb end.
Qed.

(** A pattern matches at a position exactly when it can take the matcher
    somewhere from it. *)
Lemma rmatch_spec {A} (r : Re.regex) (st : Re.mstate) (k : Re.mstate -> option A) :
  is_Some (Re.rmatch r st k) <-> exists st', matches r st st' /\ is_Some (k st').
Proof.
  split.
  - intros [a Ha]. apply rmatch_sound in Ha as (st' & Hm & Hk). by exists st'.
  - intros (st' & Hm & Hk). by eapply rmatch_complete.
Qed.

(** The matcher on one character. *)
Lemma rmatch_chr_cons {A} (c d : N) (prev : option N) (rest : str) (groups : list str)
    (k : Re.mstate -> option A) :
  Re.rmatch (Re.Chr c) (Re.MState prev (d :: rest) groups) k
  = if c =? d then k (Re.MState (Some d) rest groups) else None.
Proof. cbn [Re.rmatch]. unfold Re.step_char. cbn [Re.ms_rest]. by destruct (c =? d). Qed.

Lemma rmatch_cls_cons {A} (p : N -> bool) (d : N) (prev : option N) (rest : str)
    (groups : list str) (k : Re.mstate -> option A) :
  Re.rmatch (Re.Cls p) (Re.MState prev (d :: rest) groups) k
  = if p d then k (Re.MState (Some d) rest groups) else None.
Proof. cbn [Re.rmatch]. unfold Re.step_char. cbn [Re.ms_rest]. by destruct (p d). Qed.

Lemma rmatch_chr_nil {A} (c : N) (prev : option N) (groups : list str)
    (k : Re.mstate -> option A) :
  Re.rmatch (Re.Chr c) (Re.MState prev [] groups) k = None.
Proof. reflexivity. Qed.

Lemma rmatch_cls_nil {A} (p : N -> bool) (prev : option N) (groups : list str)
    (k : Re.mstate -> option A) :
  Re.rmatch (Re.Cls p) (Re.MState prev [] groups) k = None.
Proof. reflexivity. Qed.

Lemma rmatch_seq {A} (r1 r2 : Re.regex) (st : Re.mstate) (k : Re.mstate -> option A) :
  Re.rmatch (Re.Seq r1 r2) st k = Re.rmatch r1 st (fun st' => Re.rmatch r2 st' k).
Proof. reflexivity. Qed.

Lemma rmatch_eps {A} (st : Re.mstate) (k : Re.mstate -> option A) :
  Re.rmatch Re.Eps st k = k st.
Proof. reflexivity. Qed.

Lemma rmatch_grp {A} (r : Re.regex) (st : Re.mstate) (k : Re.mstate -> option A) :
  Re.rmatch (Re.Grp r) st k
  = Re.rmatch r st (fun st' =>
      k (Re.MState (Re.ms_prev st') (Re.ms_rest st')
                   (Re.ms_groups st' ++ [Re.consumed st st']))).
Proof. reflexivity. Qed.

(** Plain patterns read words. *)
Lemma advance_nil (st : Re.mstate) : advance st [] = st.
Proof. by destruct st. Qed.

Lemma advance_app (st : Re.mstate) (w1 w2 : str) :
  advance (advance st w1) w2 = advance st (w1 ++ w2).
Proof.
  unfold advance. cbn [Re.ms_prev Re.ms_rest Re.ms_groups].
  rewrite drop_drop, length_app. f_equal.
  destruct w2 as [|c w2] using rev_ind; [by rewrite app_nil_r|].
  by rewrite app_assoc, !last_snoc.
Qed.

Lemma advance_rest (st : Re.mstate) (w : str) :
  w `prefix_of` Re.ms_rest st -> Re.ms_rest st = w ++ Re.ms_rest (advance st w).
Proof. intros [k Hk]. cbn. by rewrite Hk, drop_app_length. Qed.

Lemma step_char_advance (p : N -> bool) (st st' : Re.mstate) :
  Re.step_char p st = Some st'
  <-> exists c, p c = true /\ [c] `prefix_of` Re.ms_rest st /\ st' = advance st [c].
Proof.
  unfold Re.step_char, advance. destruct st as [prev [|c rest] groups]; cbn.
  - split; [done|]. by intros (c & _ & [k Hk] & _).
  - destruct (p c) eqn:Hc; split.
    + intros [= <-]. exists c. repeat split; [done|by exists rest].
    + intros (d & Hd & [k [= <- <-]] & ->). done.
    + done.
    + intros (d & Hd & [k [= <- <-]] & ->). congruence.
Qed.

Lemma matches_reads (r : Re.regex) (st st' : Re.mstate) :
  matches r st st' -> plain r = true ->
  exists w, reads r w /\ w `prefix_of` Re.ms_rest st /\ st' = advance st w.
Proof.
  induction 1 as [st|c st st' Hs|p st st' Hs|r1 r2 st st1 st2 _ IH1 _ IH2
                 |r1 r2 st st' _ IH|r1 r2 st st' _ IH|r st
                 |r st st1 st2 _ IH1 Hlen _ IH2|r st st' _ IH|st Hp|st Hb];
    cbn [plain]; intros Hplain; try done.
  - exists []. split; [constructor|]. split; [apply prefix_nil|by rewrite advance_nil].
  - apply step_char_advance in Hs as (d & ->%N.eqb_eq & Hpre & ->).
    exists [d]. split; [constructor|done].
  - apply step_char_advance in Hs as (d & Hd & Hpre & ->).
    exists [d]. split; [by constructor|done].
  - apply andb_true_iff in Hplain as [Hp1 Hp2].
    destruct (IH1 Hp1) as (w1 & Hr1 & Hpre1 & ->).
    destruct (IH2 Hp2) as (w2 & Hr2 & Hpre2 & ->).
    exists (w1 ++ w2). split; [by constructor|]. split; [|by rewrite advance_app].
    rewrite (advance_rest st w1 Hpre1). by apply prefix_app.
  - apply andb_true_iff in Hplain as [Hp1 Hp2].
    destruct (IH Hp1) as (w & Hr & Hpre & ->). exists w. split; [by apply reads_alt_l|done].
  - apply andb_true_iff in Hplain as [Hp1 Hp2].
    destruct (IH Hp2) as (w & Hr & Hpre & ->). exists w. split; [by apply reads_alt_r|done].
  - exists []. split; [constructor|]. split; [apply prefix_nil|by rewrite advance_nil].
  - destruct (IH1 Hplain) as (w1 & Hr1 & Hpre1 & ->).
    destruct (IH2 Hplain) as (w2 & Hr2 & Hpre2 & ->).
    exists (w1 ++ w2). split.
    + constructor; [done| |done]. intros ->. rewrite advance_nil in Hlen. lia.
    + split; [|by rewrite advance_app].
      rewrite (advance_rest st w1 Hpre1). by apply prefix_app.
Qed.

Lemma reads_matches (r : Re.regex) (w : str) :
  reads r w -> forall st, w `prefix_of` Re.ms_rest st -> matches r st (advance st w).
Proof.
  induction 1 as [|c|p c Hc|r1 r2 w1 w2 _ IH1 _ IH2|r1 r2 w _ IH|r1 r2 w _ IH|r
                 |r w1 w2 _ IH1 Hne _ IH2]; intros st Hpre.
  - rewrite advance_nil. constructor.
  - constructor. apply step_char_advance. exists c. by rewrite N.eqb_refl.
  - constructor. apply step_char_advance. by exists c.
  - rewrite <- advance_app. econstructor.
    + apply IH1. etrans; [apply prefix_app_r; reflexivity|exact Hpre].
    + apply IH2. destruct Hpre as [k Hk]. exists k. cbn. rewrite Hk, <- app_assoc.
      by rewrite drop_app_length.
  - apply matches_alt_l. by apply IH.
  - apply matches_alt_r. by apply IH.
  - rewrite advance_nil. constructor.
  - rewrite <- advance_app.
    assert (w1 `prefix_of` Re.ms_rest st) as Hpre1
      by (etrans; [apply prefix_app_r; reflexivity|exact Hpre]).
    eapply matches_star_more.
    + by apply IH1.
    + destruct Hpre1 as [k Hk]. cbn. rewrite Hk, drop_app_length, length_app.
      destruct w1; [done|cbn; lia].
    + apply IH2. destruct Hpre as [k Hk]. exists k. cbn. rewrite Hk, <- app_assoc.
      by rewrite drop_app_length.
Qed.

(** [re.match] of a plain pattern succeeds exactly on the texts that start
    with a word of the pattern. *)
Lemma rematch_plain (r : Re.regex) (s : str) :
  plain r = true ->
  (is_some (Re.rematch r s) = true <-> exists w rest, reads r w /\ s = w ++ rest).
Proof.
  intros Hplain. unfold Re.rematch.
  assert (forall o : option (list str), is_some o = true <-> is_Some o) as Hsome.
  { intros [x|]; cbn; split; try done; try (by eexists); by intros [? ?]. }
  rewrite Hsome, rmatch_spec. split.
  - intros (st' & Hm & _). apply matches_reads in Hm as (w & Hr & [k Hk] & _); [|done].
    by exists w, k.
  - intros (w & rest & Hr & ->). eexists. split; [|by eexists].
    apply reads_matches; [done|]. by exists rest.
Qed.

(** The words of a repeated character class. *)
Lemma reads_star_cls (p : N -> bool) (w : str) :
  reads (Re.Star (Re.Cls p)) w <-> Forall (fun c => p c = true) w.
Proof.
  split.
  - remember (Re.Star (Re.Cls p)) as r eqn:Hr. induction 1; try discriminate.
    + constructor.
    + injection Hr as ->. apply Forall_app. split; [|by apply IHreads2].
      match goal with Hc : reads (Re.Cls _) _ |- _ => inversion Hc; subst end.
      by repeat constructor.
  - induction 1 as [|c w Hc _ IH]; [constructor|].
    change (c :: w) with ([c] ++ w). constructor; [by constructor|done|done].
Qed.

Lemma reads_plus_cls (p : N -> bool) (w : str) :
  reads (Re.Plus (Re.Cls p)) w <-> w <> [] /\ Forall (fun c => p c = true) w.
Proof.
  unfold Re.Plus. split.
  - inversion 1 as [| | |? ? w1 w2 H1 H2| | | |]; subst.
    inversion H1; subst. apply reads_star_cls in H2. split; [done|by constructor].
  - intros [Hne Hall]. destruct w as [|c w]; [done|].
    apply Forall_cons in Hall as [Hc Hall].
    change (c :: w) with ([c] ++ w). constructor; [by constructor|by apply reads_star_cls].
Qed.

End Matcher.

(** * E-mail addresses *)

Section Email.
Context `{UnicodeDB}.

Lemma reads_seq_inv (r1 r2 : Re.regex) (w : str) :
  reads (Re.Seq r1 r2) w <-> exists w1 w2, w = w1 ++ w2 /\ reads r1 w1 /\ reads r2 w2.
Proof.
  split.
  - inversion 1; subst. by eexists _, _.
  - intros (w1 & w2 & -> & H1 & H2). by constructor.
Qed.

Lemma reads_chr_inv (c : N) (w : str) : reads (Re.Chr c) w <-> w = [c].
Proof. split; [by inversion 1|intros ->; constructor]. Qed.

Lemma not_at_all (w : str) : Forall (fun c => ReScan.not_at c = true) w <-> 64 ∉ w.
Proof.
  unfold ReScan.not_at. induction w as [|c w IH].
  - split; [intros _; apply not_elem_of_nil|constructor].
  - rewrite Forall_cons, not_elem_of_cons, IH.
    destruct (N.eqb_spec c 64); cbn; split; intros [? ?]; split; try done; congruence.
Qed.

(** X3: [validate_email] accepts exactly the texts that start with: characters
    other than [@], an [@], characters other than [@], a dot, a character
    other than [@]. What follows is not looked at. *)
Theorem validate_email_spec (email : str) :
  validate_email email = true
  <-> exists user domain top rest,
        email = user ++ lit "@" ++ domain ++ lit "." ++ top ++ rest
        /\ user <> [] /\ domain <> [] /\ top <> []
        /\ (64 ∉ user) /\ (64 ∉ domain) /\ (64 ∉ top).
Proof.
  unfold validate_email. rewrite rematch_plain by reflexivity.
  change (lit "@") with [64]. change (lit ".") with [46]. unfold ReScan.email. split.
  - intros (w & rest & Hr & ->).
    apply reads_seq_inv in Hr as (user & w1 & -> & Hu & Hr).
    apply reads_seq_inv in Hr as (a & w2 & -> & ->%reads_chr_inv & Hr).
    apply reads_seq_inv in Hr as (domain & w3 & -> & Hd & Hr).
    apply reads_seq_inv in Hr as (d & top & -> & ->%reads_chr_inv & Ht).
    apply reads_plus_cls in Hu as [Hu1 Hu2], Hd as [Hd1 Hd2], Ht as [Ht1 Ht2].
    exists user, domain, top, rest. rewrite <- !app_assoc.
    by rewrite <- !not_at_all.
  - intros (user & domain & top & rest & -> & Hu & Hd & Ht & Hu' & Hd' & Ht').
    exists (user ++ [64] ++ domain ++ [46] ++ top), rest. split; [|by rewrite <- !app_assoc].
    repeat (apply reads_seq_inv; eexists _, _; split; [reflexivity|split]);
      try (by apply reads_chr_inv); apply reads_plus_cls; by rewrite not_at_all.
Qed.

End Email.

(** * Task references *)

Section Tasks.
Context `{UnicodeDB} `{SetOrder}.

Lemma lit_task :
  Re.Lit "TASK-"
  = Re.Seq (Re.Chr 84) (Re.Seq (Re.Chr 65) (Re.Seq (Re.Chr 83) (Re.Seq (Re.Chr 75)
      (Re.Seq (Re.Chr 45) Re.Eps)))).
Proof. vm_compute. reflexivity. Qed.

Lemma lit_task_chars : lit "TASK-" = [84; 65; 83; 75; 45].
Proof. vm_compute. reflexivity. Qed.

(** The pattern at one position. *)
Lemma match_at_task (prev : option N) (s : str) (must_advance : bool) :
  ReScan.match_at ReScan.task_reference prev s must_advance
  = if task_shape s
    then Some (Re.MState (s !! 7%nat) (drop 8 s) [take 8 s])
    else None.
Proof.
  unfold ReScan.match_at, ReScan.task_reference. rewrite lit_task.
  unfold Re.digit. rewrite rmatch_grp.
  destruct s as [|c1 [|c2 [|c3 [|c4 [|c5 [|c6 [|c7 [|c8 s]]]]]]]];
    cbn [task_shape];
    repeat (first [ rewrite rmatch_eps | rewrite rmatch_seq
                  | rewrite rmatch_chr_cons | rewrite rmatch_cls_cons
                  | rewrite rmatch_chr_nil | rewrite rmatch_cls_nil ];
            cbn beta; try reflexivity;
            try match goal with
            | |- (if ?b then _ else None) = _ => destruct b; cbn [andb]; try reflexivity
            end).
  cbn [Re.ms_prev Re.ms_rest Re.ms_groups app]. unfold Re.consumed.
  cbn [Re.ms_prev Re.ms_rest Re.ms_groups].
  rewrite bool_decide_eq_false_2 by (cbn [length]; lia). rewrite andb_false_r.
  replace (length (c1 :: c2 :: c3 :: c4 :: c5 :: c6 :: c7 :: c8 :: s) - length s)%nat
    with 8%nat by (cbn [length]; lia).
  reflexivity.
Qed.

Lemma task_shape_inv (s : str) :
  task_shape s = true ->
  exists d1 d2 d3 rest, s = lit "TASK-" ++ [d1; d2; d3] ++ rest
    /\ PyStr.isdecimal d1 = true /\ PyStr.isdecimal d2 = true /\ PyStr.isdecimal d3 = true.
Proof.
  rewrite lit_task_chars.
  destruct s as [|c1 [|c2 [|c3 [|c4 [|c5 [|c6 [|c7 [|c8 s]]]]]]]]; try done.
  cbn [task_shape]. rewrite !andb_true_iff, !N.eqb_eq.
  intros [[[[[[[<- <-] <-] <-] <-] H1] H2] H3]. by exists c6, c7, c8, s.
Qed.

Lemma task_shape_intro (d1 d2 d3 : N) (rest : str) :
  PyStr.isdecimal d1 = true -> PyStr.isdecimal d2 = true -> PyStr.isdecimal d3 = true ->
  task_shape (lit "TASK-" ++ [d1; d2; d3] ++ rest) = true.
Proof. rewrite lit_task_chars. cbn. by intros -> -> ->. Qed.

(** What [re.findall] returns for the pattern. *)
Lemma scan_task (prev : option N) (s : str) (skip : nat) :
  omap (fun t => match t with
                 | ReScan.Text _ => None
                 | ReScan.Match g => Some (nth 0 g [])
                 end)
       (ReScan.scan ReScan.task_reference prev s skip)
  = task_scan s skip.
Proof.
  revert prev skip. induction s as [|c s IH]; intros prev skip.
  - destruct skip; cbn [ReScan.scan task_scan]; [|done].
    rewrite match_at_task. done.
  - destruct skip as [|k]; cbn [ReScan.scan task_scan]; [|apply IH].
    rewrite match_at_task. destruct (task_shape (c :: s)) eqn:Hshape.
    + assert (8 <= length (c :: s))%nat as Hlen.
      { apply task_shape_inv in Hshape as (d1 & d2 & d3 & rest & -> & _).
        rewrite lit_task_chars. cbn [app length]. lia. }
      cbn [Re.ms_rest Re.ms_groups]. rewrite length_drop.
      replace (length (c :: s) - (length (c :: s) - 8))%nat with 8%nat by lia.
      cbn [omap list_omap nth]. f_equal. apply IH.
    + cbn [omap list_omap]. apply IH.
Qed.

Lemma findall_task (s : str) : ReScan.findall ReScan.task_reference s = task_scan s 0.
Proof. apply scan_task. Qed.

Lemma task_scan_sound (s : str) (skip : nat) (x : str) :
  x ∈ task_scan s skip -> is_task_reference x /\ exists a b, s = a ++ x ++ b.
Proof.
  revert skip. induction s as [|c s IH]; intros skip; cbn [task_scan].
  - by intros ?%elem_of_nil.
  - assert (forall k, x ∈ task_scan s k ->
              is_task_reference x /\ exists a b, c :: s = a ++ x ++ b) as Hrest.
    { intros k (Hx & a & b & ->)%IH. split; [done|]. by exists (c :: a), b. }
    destruct skip as [|k]; [|apply Hrest].
    destruct (task_shape (c :: s)) eqn:Hshape; [|apply Hrest].
    intros [->|Hx]%elem_of_cons; [|by eapply Hrest].
    apply task_shape_inv in Hshape as (d1 & d2 & d3 & rest & -> & H1 & H2 & H3).
    rewrite lit_task_chars. cbn [app take]. split.
    + exists d1, d2, d3. by rewrite lit_task_chars.
    + by exists [], rest.
Qed.

Lemma isdecimal_not_T (d : N) : PyStr.isdecimal d = true -> d <> 84.
Proof. by intros Hd ->. Qed.

Lemma task_scan_complete (s : str) (skip : nat) (x a b : str) :
  is_task_reference x -> s = a ++ x ++ b ->
  Forall (fun c => c <> 84) (take skip s) ->
  x ∈ task_scan s skip.
Proof.
  intros (d1 & d2 & d3 & -> & H1 & H2 & H3). rewrite lit_task_chars.
  revert skip a. induction s as [|c s IH]; intros skip a Hs Hskip.
  - by destruct a.
  - cbn [task_scan]. destruct skip as [|k].
    + destruct (task_shape (c :: s)) eqn:Hshape.
      * destruct a as [|c' a]; cbn [app] in Hs.
        { rewrite Hs. cbn [take]. apply list_elem_of_here. }
        injection Hs as <- Hs. apply list_elem_of_further. apply (IH 7%nat a Hs).
        apply task_shape_inv in Hshape as (e1 & e2 & e3 & rest & He & E1 & E2 & E3).
        rewrite lit_task_chars in He. injection He as _ ->. cbn [take].
        repeat constructor; try done; by apply isdecimal_not_T.
      * destruct a as [|c' a]; cbn [app] in Hs.
        { rewrite Hs in Hshape.
          pose proof (task_shape_intro d1 d2 d3 b H1 H2 H3) as Hyes.
          rewrite lit_task_chars in Hyes. cbn [app] in Hyes. congruence. }
        injection Hs as <- Hs. apply (IH 0%nat a Hs). constructor.
    + cbn [take] in Hskip. apply Forall_cons in Hskip as [Hc Hskip].
      destruct a as [|c' a]; cbn [app] in Hs; [by injection Hs as ->|].
      injection Hs as <- Hs. by apply (IH k a Hs).
Qed.

Lemma extracted (content x : str) :
  set_order_lawful ->
  x ∈ extract_task_references content
  <-> is_task_reference x /\ exists before after, content = before ++ x ++ after.
Proof.
  intros Hlaw. unfold extract_task_references.
  destruct (Hlaw (ReScan.findall ReScan.task_reference content)) as [_ ->].
  rewrite findall_task. split; [apply task_scan_sound|].
  intros (Hx & a & b & ->). eapply task_scan_complete; [done|done|constructor].
Qed.

(** X9: [extract_task_references] returns, once each, the task references that
    occur in the content. *)
Theorem extract_task_references_spec (content : str) :
  set_order_lawful ->
  NoDup (extract_task_references content)
  /\ forall x, x ∈ extract_task_references content
       <-> is_task_reference x /\ exists before after, content = before ++ x ++ after.
Proof.
  intros Hlaw. split; [apply Hlaw|]. intros x. by apply extracted.
Qed.

(** Task numbers are written with three digits. *)
Lemma format_03d_digits (z : Z) :
  (0 <= z < 1000)%Z ->
  PyText.format_03d z
  = [Z.to_N (48 + z / 100); Z.to_N (48 + z / 10 mod 10); Z.to_N (48 + z mod 10)].
Proof.
  intros Hz.
  assert (forallb (fun n : nat =>
            bool_decide (PyText.format_03d (Z.of_nat n)
                         = [Z.to_N (48 + Z.of_nat n / 100);
                            Z.to_N (48 + Z.of_nat n / 10 mod 10);
                            Z.to_N (48 + Z.of_nat n mod 10)]))
            (seq 0 1000) = true) as Hall by (vm_compute; reflexivity).
  rewrite forallb_forall in Hall.
  assert (In (Z.to_nat z) (seq 0 1000)) as Hin by (apply in_seq; lia).
  apply Hall in Hin. rewrite Z2Nat.id in Hin by lia. by apply bool_decide_eq_true in Hin.
Qed.

Lemma ascii_digit_decimal (d : N) : 48 <= d <= 57 -> PyStr.isdecimal d = true.
Proof.
  intros Hd. unfold PyStr.isdecimal, PyStr.decimal_value.
  replace (d <? 128) with true by (symmetry; apply N.ltb_lt; lia).
  replace (48 <=? d) with true by (symmetry; apply N.leb_le; lia).
  replace (d <=? 57) with true by (symmetry; apply N.leb_le; lia).
  done.
Qed.

Lemma generated (timestamp : Z) (prefix : str) :
  exists d1 d2 d3,
    generate_task_id timestamp prefix = prefix ++ lit "-" ++ [d1; d2; d3]
    /\ 48 <= d1 <= 57 /\ 48 <= d2 <= 57 /\ 48 <= d3 <= 57.
Proof.
  unfold generate_task_id. rewrite format_03d_digits by (apply Z.mod_pos_bound; lia).
  eexists _, _, _. split; [reflexivity|].
  pose proof (Z.mod_pos_bound timestamp 1000 ltac:(lia)). lia.
Qed.

(** X8: A task identifier is its prefix, a hyphen and three digits, whatever
    the clock says. *)
Theorem generate_task_id_shape (timestamp : Z) (prefix : str) :
  exists d1 d2 d3,
    generate_task_id timestamp prefix = prefix ++ lit "-" ++ [d1; d2; d3]
    /\ 48 <= d1 <= 57 /\ 48 <= d2 <= 57 /\ 48 <= d3 <= 57.
Proof. apply generated. Qed.

(** X10: A generated identifier with the default prefix is found again in any
    text that quotes it. *)
Theorem generate_task_id_extracted (timestamp : Z) (before after : str) :
  set_order_lawful ->
  generate_task_id timestamp (lit "TASK")
  ∈ extract_task_references (before ++ generate_task_id timestamp (lit "TASK") ++ after).
Proof.
  intros Hlaw. apply extracted; [done|]. split; [|by eexists _, _].
  destruct (generated timestamp (lit "TASK")) as (d1 & d2 & d3 & -> & H1 & H2 & H3).
  exists d1, d2, d3. split; [by vm_compute|]. by rewrite !ascii_digit_decimal.
Qed.

(** One round of [guess_related_tasks]. *)
Lemma guess_step_spec (content : str) (related : list str) (t : task) :
  guess_step content related t
  = if bool_decide (task_id t ∈ related) then related
    else if title_matches content t then related ++ [task_id t] else related.
Proof.
  unfold guess_step, title_matches. case_bool_decide; [done|].
  destruct (filter _ (PyText.split _)) as [|w ws] eqn:Hw; [done|].
  rewrite bool_decide_eq_true_2 by done. done.
Qed.

Lemma guess_fold (content : str) (task_list : list task) (related : list str) :
  NoDup related ->
  let result := foldl (guess_step content) related task_list in
  NoDup result /\ related `prefix_of` result
  /\ forall x, x ∈ result
       <-> x ∈ related
           \/ exists t, t ∈ task_list /\ task_id t = x /\ title_matches content t = true.
Proof.
  revert related. induction task_list as [|t ts IH]; intros related Hnd; cbn zeta; cbn [foldl].
  - split; [done|]. split; [done|]. intros x. split; [by left|].
    intros [Hx|(t & Ht%elem_of_nil & _)]; done.
  - rewrite guess_step_spec.
    assert (forall related', NoDup related' -> related `prefix_of` related' ->
              (forall x, x ∈ related' <-> x ∈ related
                          \/ (task_id t = x /\ title_matches content t = true)
                          \/ (x ∈ related /\ task_id t = x)) ->
              NoDup (foldl (guess_step content) related' ts)
              /\ related `prefix_of` foldl (guess_step content) related' ts
              /\ forall x, x ∈ foldl (guess_step content) related' ts
                   <-> x ∈ related
                       \/ exists t', t' ∈ t :: ts /\ task_id t' = x
                                     /\ title_matches content t' = true) as Hstep.
    { intros related' Hnd' Hpre Hin. destruct (IH related' Hnd') as (Hnd2 & Hpre2 & Hin2).
      split; [done|]. split; [by etrans|]. intros x. rewrite Hin2, Hin. split.
      - intros [[Hx|[[Hid Hm]|[Hx _]]]|(t' & Ht' & Hid & Hm)]; auto.
        + right. exists t. split; [apply list_elem_of_here|done].
        + right. exists t'. split; [by apply list_elem_of_further|done].
      - intros [Hx|(t' & [->|Ht']%elem_of_cons & Hid & Hm)]; auto.
        right. by exists t'. }
    case_bool_decide as Hid.
    + apply Hstep; [done|done|]. intros x. split; [by left|].
      intros [Hx|[[<- Hm]|[Hx _]]]; done.
    + destruct (title_matches content t) eqn:Hm.
      * apply Hstep.
        -- apply NoDup_app. split; [done|]. split; [|apply NoDup_singleton].
           intros x Hx ->%list_elem_of_singleton. done.
        -- by apply prefix_app_r.
        -- intros x. rewrite elem_of_app, list_elem_of_singleton. split.
           ++ intros [Hx| ->]; auto.
           ++ intros [Hx|[[<- _]|[Hx _]]]; auto.
      * apply Hstep; [done|done|]. intros x. split; [by left|].
        intros [Hx|[[_ Hm']|[Hx _]]]; [done|congruence|done].
Qed.

(** X11: [guess_related_tasks] lists each identifier once: it starts with the
    references found in the content, and holds besides them exactly the
    identifiers of the tasks whose title passes the word test. *)
Theorem guess_related_tasks_spec (content : str) (task_list : list task) :
  set_order_lawful ->
  NoDup (guess_related_tasks content task_list)
  /\ extract_task_references content `prefix_of` guess_related_tasks content task_list
  /\ forall x, x ∈ guess_related_tasks content task_list
       <-> x ∈ extract_task_references content
           \/ exists t, t ∈ task_list /\ task_id t = x /\ title_matches content t = true.
Proof.
  intros Hlaw. apply guess_fold. unfold extract_task_references. apply Hlaw.
Qed.

End Tasks.

(** * Slugs *)

Section Slugs.
Context `{UnicodeDB}.

(** A repeated class is greedy: it reads the whole run. *)
Lemma star_cls_greedy {A} (p : N -> bool) (k : Re.mstate -> option A) (a : A)
    (groups : list str) (rest : str) :
  forall (fuel : nat) (prev : option N),
    (length rest <= fuel)%nat ->
    k (Re.MState (run_last p prev rest) (drop_while p rest) groups) = Some a ->
    star_loop (Re.rmatch (Re.Cls p)) k fuel (Re.MState prev rest groups) = Some a.
Proof.
  induction rest as [|c rest IH]; intros fuel prev Hfuel Hk.
  - destruct fuel; cbn [star_loop]; [done|]. by rewrite rmatch_cls_nil.
  - destruct fuel as [|fuel]; [cbn in Hfuel; lia|]. cbn [star_loop].
    rewrite rmatch_cls_cons. cbn [drop_while run_last] in Hk.
    destruct (p c); [|done].
    cbn [Re.ms_rest]. rewrite bool_decide_eq_true_2 by (cbn [length]; lia).
    rewrite (IH fuel (Some c)); [done|cbn [length] in Hfuel; lia|done].
Qed.

Lemma drop_while_suffix (p : N -> bool) (s : str) : drop_while p s `suffix_of` s.
Proof.
  induction s as [|c s IH]; cbn; [done|]. destruct (p c); [by apply suffix_cons_r|done].
Qed.

Lemma drop_while_length (p : N -> bool) (s : str) :
  (length (drop_while p s) <= length s)%nat.
Proof. apply suffix_length, drop_while_suffix. Qed.

Lemma drop_drop_while (p : N -> bool) (s : str) :
  drop (length s - length (drop_while p s)) s = drop_while p s.
Proof.
  destruct (drop_while_suffix p s) as [k Hk]. rewrite Hk at 1 3.
  rewrite length_app. replace (_ + _ - _)%nat with (length k) by lia.
  by rewrite drop_app_length.
Qed.

(** The pattern [[^a-z0-9]+] at one position. *)
Lemma match_at_not_slug (prev : option N) (s : str) :
  ReScan.match_at ReScan.not_slug prev s false
  = match s with
    | c :: s' =>
        if ReScan.not_slug_char c
        then Some (Re.MState (run_last ReScan.not_slug_char (Some c) s')
                             (drop_while ReScan.not_slug_char s') [])
        else None
    | [] => None
    end.
Proof.
  unfold ReScan.match_at, ReScan.not_slug, Re.Plus. rewrite rmatch_seq.
  destruct s as [|c s]; [by rewrite rmatch_cls_nil|]. rewrite rmatch_cls_cons.
  destruct (ReScan.not_slug_char c); [|done].
  rewrite rmatch_star. cbn [Re.ms_rest]. by apply star_cls_greedy.
Qed.

Lemma dashed_at_slug (s : str) :
  drop_while ReScan.not_slug_char s = s -> dashed true s = dashed false s.
Proof.
  destruct s as [|c s]; [done|]. cbn [drop_while dashed].
  destruct (ReScan.not_slug_char c); [|done].
  intros Hs. pose proof (drop_while_length ReScan.not_slug_char s) as Hlen.
  rewrite Hs in Hlen. cbn [length] in Hlen. lia.
Qed.

(** What [re.sub] makes of a text, from a position inside or outside a run. *)
Lemma sub_scan (s : str) :
  forall (prev : option N) (skip : nat),
    (skip <= length s)%nat ->
    (skip <> 0%nat -> drop skip s = drop_while ReScan.not_slug_char s) ->
    flat_map (fun t => match t with ReScan.Text c => [c] | ReScan.Match _ => lit "-" end)
             (ReScan.scan ReScan.not_slug prev s skip)
    = dashed (negb (skip =? 0)%nat) s.
Proof.
  change (lit "-") with [45].
  induction s as [|c s IH]; intros prev skip Hlen Hrun.
  - destruct skip; cbn [ReScan.scan]; [|done]. by rewrite match_at_not_slug.
  - assert (forall k : nat, (k <= length s)%nat ->
              drop k s = drop_while ReScan.not_slug_char s ->
              flat_map (fun t => match t with
                                 | ReScan.Text c => [c]
                                 | ReScan.Match _ => [45]
                                 end)
                       (ReScan.scan ReScan.not_slug (Some c) s k)
              = dashed true s) as Hin.
    { intros k Hk Hdrop. rewrite IH; [|done|done]. destruct k; [|done].
      cbn [Nat.eqb negb]. symmetry. by apply dashed_at_slug. }
    destruct skip as [|k]; cbn [ReScan.scan Nat.eqb negb dashed].
    + rewrite match_at_not_slug. destruct (ReScan.not_slug_char c) eqn:Hc.
      * cbn [Re.ms_rest Re.ms_groups].
        pose proof (drop_while_length ReScan.not_slug_char s) as Hle.
        replace (length (c :: s) - length (drop_while ReScan.not_slug_char s))%nat
          with (S (length s - length (drop_while ReScan.not_slug_char s)))
          by (cbn [length]; lia).
        cbn [flat_map app]. f_equal. apply Hin; [lia|apply drop_drop_while].
      * cbn [flat_map app]. f_equal. by rewrite IH by (done || lia).
    + specialize (Hrun ltac:(done)). cbn [drop drop_while] in Hrun.
      destruct (ReScan.not_slug_char c).
      * apply Hin; [cbn [length] in Hlen; lia|done].
      * exfalso. assert (length (drop k s) = length (c :: s)) as Hl by (by rewrite Hrun).
        rewrite length_drop in Hl. cbn [length] in Hl. lia.
Qed.

Lemma sub_not_slug (s : str) : ReScan.sub ReScan.not_slug (lit "-") s = dashed false s.
Proof. unfold ReScan.sub. by rewrite sub_scan by (done || lia). Qed.

(** The text [re.sub] returns is hyphenated. *)
Lemma dashed_hyphenated (b : bool) (s : str) : hyphenated b (dashed b s) = true.
Proof.
  revert b. induction s as [|c s IH]; intros b; cbn [dashed]; [done|].
  destruct (ReScan.not_slug_char c) eqn:Hc.
  - destruct b; [apply IH|]. cbn [hyphenated N.eqb Pos.eqb negb andb]. apply IH.
  - cbn [hyphenated]. unfold is_slug_char. rewrite Hc. cbn [negb andb].
    destruct (N.eqb_spec c 45) as [->|_]; [done|apply IH].
Qed.

Lemma hyphenated_fixed (b : bool) (t : str) : hyphenated b t = true -> dashed b t = t.
Proof.
  revert b. induction t as [|c t IH]; intros b; cbn [hyphenated dashed]; [done|].
  destruct (N.eqb_spec c 45) as [->|Hc].
  - intros [->%negb_true_iff Ht]%andb_true_iff. cbn. f_equal. by apply IH.
  - unfold is_slug_char. intros [->%negb_true_iff Ht]%andb_true_iff.
    f_equal. by apply IH.
Qed.

Lemma hyphenated_weaken (b : bool) (t : str) : hyphenated true t = true -> hyphenated b t = true.
Proof.
  destruct t as [|c t]; [done|]. cbn [hyphenated]. destruct (c =? 45); [done|].
  done.
Qed.

Lemma hyphenated_prefix (b : bool) (t1 t2 : str) :
  hyphenated b (t1 ++ t2) = true -> hyphenated b t1 = true.
Proof.
  revert b. induction t1 as [|c t1 IH]; intros b; cbn [app hyphenated]; [done|].
  destruct (c =? 45); intros [-> Ht]%andb_true_iff; cbn [andb]; by eapply IH.
Qed.

Lemma hyphenated_chars (b : bool) (t : str) :
  hyphenated b t = true -> Forall (fun c => is_slug_char c = true \/ c = 45) t.
Proof.
  revert b. induction t as [|c t IH]; intros b; cbn [hyphenated]; [constructor|].
  destruct (N.eqb_spec c 45) as [->|Hc]; intros [Hc' Ht]%andb_true_iff;
    (constructor; [auto|by eapply IH]).
Qed.

Lemma hyphenated_no_pair (b : bool) (t a c : str) :
  hyphenated b t = true -> t <> a ++ [45; 45] ++ c.
Proof.
  intros Ht ->. revert b Ht. induction a as [|d a IH]; intros b; cbn [app hyphenated].
  - cbn. by rewrite andb_false_r.
  - destruct (d =? 45); intros [_ Ht]%andb_true_iff; by eapply IH.
Qed.

(** Stripping hyphens. *)
Lemma lstrip_chars_suffix (chars s : str) : PyText.lstrip_chars chars s `suffix_of` s.
Proof.
  induction s as [|c s IH]; cbn; [done|]. case_bool_decide; [by apply suffix_cons_r|done].
Qed.

Lemma lstrip_chars_head (chars s : str) (c : N) (t : str) :
  PyText.lstrip_chars chars s = c :: t -> c ∉ chars.
Proof.
  induction s as [|d s IH]; cbn; [done|]. case_bool_decide as Hd; [done|]. by intros [= <- _].
Qed.

Lemma lstrip_chars_fixed (chars s : str) :
  match s with c :: _ => c ∉ chars | [] => True end -> PyText.lstrip_chars chars s = s.
Proof. destruct s as [|c s]; cbn; [done|]. intros Hc. by rewrite bool_decide_eq_false_2. Qed.

Lemma rstrip_chars_prefix (chars s : str) : PyText.rstrip_chars chars s `prefix_of` s.
Proof.
  unfold PyText.rstrip_chars. destruct (lstrip_chars_suffix chars (rev s)) as [k Hk].
  exists (rev k). rewrite <- (rev_involutive s), Hk at 1. by rewrite rev_app_distr.
Qed.

Lemma rstrip_chars_last (chars s : str) (c : N) :
  last (PyText.rstrip_chars chars s) = Some c -> c ∉ chars.
Proof.
  unfold PyText.rstrip_chars.
  destruct (PyText.lstrip_chars chars (rev s)) as [|d t] eqn:Hs; [done|].
  cbn [rev]. rewrite last_snoc. intros [= <-]. by eapply lstrip_chars_head.
Qed.

Lemma strip_chars_fixed (chars s : str) :
  match s with c :: _ => c ∉ chars | [] => True end ->
  (forall c, last s = Some c -> c ∉ chars) ->
  PyText.strip_chars chars s = s.
Proof.
  intros Hhead Hlast. unfold PyText.strip_chars. rewrite lstrip_chars_fixed by done.
  unfold PyText.rstrip_chars. rewrite lstrip_chars_fixed; [apply rev_involutive|].
  destruct s as [|c s] using rev_ind; [done|]. rewrite rev_app_distr. cbn.
  apply Hlast. by rewrite last_snoc.
Qed.

Lemma strip_chars_ends (chars s : str) :
  match PyText.strip_chars chars s with c :: _ => c ∉ chars | [] => True end
  /\ forall c, last (PyText.strip_chars chars s) = Some c -> c ∉ chars.
Proof.
  split; [|apply rstrip_chars_last]. unfold PyText.strip_chars.
  destruct (rstrip_chars_prefix chars (PyText.lstrip_chars chars s)) as [k Hk].
  destruct (PyText.rstrip_chars _ _) as [|c t]; [done|].
  by eapply lstrip_chars_head.
Qed.

(** The shape of a slug. *)
Lemma slug_hyphenated (text : str) :
  hyphenated true (slugify text) = true
  /\ forall c, last (slugify text) = Some c -> c <> 45.
Proof.
  unfold slugify. rewrite sub_not_slug. change (lit "-") with [45].
  set (d := dashed false (PyStr.lower text)).
  pose proof (dashed_hyphenated false (PyStr.lower text)) as Hd. fold d in Hd.
  destruct (strip_chars_ends [45] d) as [Hhead Hlast]. split.
  - unfold PyText.strip_chars in *.
    destruct (rstrip_chars_prefix [45] (PyText.lstrip_chars [45] d)) as [k Hk].
    assert (hyphenated true (PyText.lstrip_chars [45] d) = true) as Hl.
    { destruct (lstrip_chars_suffix [45] d) as [j Hj].
      destruct (PyText.lstrip_chars [45] d) as [|c t] eqn:Hs; [done|].
      apply lstrip_chars_head in Hs. rewrite list_elem_of_singleton in Hs.
      clear Hk Hhead Hlast. revert Hd. rewrite Hj. clear Hj. generalize false.
      induction j as [|e j IH]; intros b; cbn [app hyphenated].
      - destruct (N.eqb_spec c 45); [done|]. done.
      - destruct (e =? 45); intros [_ Ht]%andb_true_iff; by eapply IH. }
    rewrite Hk in Hl. by eapply hyphenated_prefix.
  - intros c Hc Heq. apply Hlast in Hc. apply Hc. by rewrite Heq, list_elem_of_singleton.
Qed.

(** [startswith] and [in], as lists. *)
Lemma startswith_spec (s p : str) : PyStr.startswith s p = true <-> p `prefix_of` s.
Proof.
  revert s. induction p as [|a p IH]; intros s; cbn [PyStr.startswith].
  - split; [intros _; apply prefix_nil|by destruct s].
  - destruct s as [|b s]; [split; [done|by intros ?%prefix_nil_inv]|].
    cbn [PyStr.startswith]. rewrite andb_true_iff, N.eqb_eq, IH. split.
    + intros [-> Hp]. by apply prefix_cons.
    + intros Hp. split; [by eapply prefix_cons_inv_1|by eapply prefix_cons_inv_2].
Qed.

Lemma contains_spec (s sub : str) :
  PyStr.contains s sub = true <-> exists a b, s = a ++ sub ++ b.
Proof.
  induction s as [|c s IH]; cbn [PyStr.contains]; rewrite orb_true_iff, startswith_spec.
  - split.
    + intros [[k Hk]|?]; [|done]. by exists [], k.
    + intros (a & b & Hs). left. symmetry in Hs.
      apply app_eq_nil in Hs as [-> [-> _]%app_eq_nil]. done.
  - rewrite IH. split.
    + intros [[k Hk]|(a & b & ->)]; [by exists [], k|by exists (c :: a), b].
    + intros ([|d a] & b & Hs); [left; by exists b|].
      injection Hs as -> ->. right. by exists a, b.
Qed.

Lemma not_true_false (b : bool) : b = false <-> ~ b = true.
Proof. destruct b; split; congruence. Qed.

(** X1: A slug is made of the characters [a-z0-9] and of single hyphens
    between them. *)
Theorem slugify_shape (text : str) :
  Forall (fun c => is_slug_char c = true \/ c = 45) (slugify text)
  /\ PyStr.startswith (slugify text) (lit "-") = false
  /\ PyStr.endswith (slugify text) (lit "-") = false
  /\ PyStr.contains (slugify text) (lit "--") = false.
Proof.
  destruct (slug_hyphenated text) as [Hh Hlast].
  change (lit "-") with [45]. change (lit "--") with [45; 45].
  split; [by eapply hyphenated_chars|]. split; [|split].
  - apply not_true_false. rewrite startswith_spec. intros [k Hk].
    rewrite Hk in Hh. done.
  - apply not_true_false. unfold PyStr.endswith. rewrite startswith_spec.
    intros [k Hk]. apply (Hlast 45); [|done].
    rewrite <- (rev_involutive (slugify text)), Hk. cbn [app rev]. by rewrite last_snoc.
  - apply not_true_false. rewrite contains_spec. intros (a & b & Hs).
    by eapply hyphenated_no_pair.
Qed.

Lemma lower_slug (t : str) :
  Forall (fun c => is_slug_char c = true \/ c = 45) t -> PyStr.lower t = t.
Proof.
  unfold PyStr.lower. generalize (@nil N). intros before Ht. revert before.
  induction Ht as [|c t Hc _ IH]; intros before; [done|].
  cbn [PyStr.lower_from]. rewrite IH. unfold PyStr.lower_char, PyStr.capital_sigma.
  assert ((c =? 931) = false /\ (c <? 128) = true /\ (65 <=? c) && (c <=? 90) = false)
    as (-> & -> & ->); [|done].
  destruct Hc as [Hc| ->]; [|done].
  unfold is_slug_char, ReScan.not_slug_char in Hc. rewrite negb_involutive in Hc.
  rewrite orb_true_iff, !andb_true_iff, !N.leb_le in Hc.
  rewrite N.eqb_neq, N.ltb_lt, andb_false_iff, !N.leb_gt. lia.
Qed.

(** X2: [slugify] is idempotent. *)
Theorem slugify_idempotent (text : str) : slugify (slugify text) = slugify text.
Proof.
  destruct (slug_hyphenated text) as [Hh Hlast].
  set (r := slugify text) in *. unfold slugify at 1.
  rewrite lower_slug by (by eapply hyphenated_chars).
  rewrite sub_not_slug, hyphenated_fixed by (by apply hyphenated_weaken).
  change (lit "-") with [45]. apply strip_chars_fixed.
  - destruct r as [|c r]; [done|]. rewrite list_elem_of_singleton. intros ->. done.
  - intros c Hc. rewrite list_elem_of_singleton. by apply Hlast.
Qed.

End Slugs.

(** * Complexity *)

Section Complexity.
Context `{UnicodeDB}.
#[local] Open Scope Z_scope.

Lemma get_last {A} (l : list A) (x : A) : PyList.get (l ++ [x]) (-1) = Ok x.
Proof.
  unfold PyList.get. rewrite length_app. cbn [length].
  replace (-1 <? 0) with true by done.
  replace (_ <? 0) with false by (symmetry; apply Z.ltb_ge; lia).
  replace (_ <=? _) with false by (symmetry; apply Z.leb_gt; lia).
  cbn [orb]. replace (Z.to_nat _) with (length l) by lia.
  by rewrite lookup_app_r, Nat.sub_diag by lia.
Qed.

Lemma indentation_nonneg (line : str) : 0 <= indentation line.
Proof.
  unfold indentation.
  assert (length (PyStr.lstrip line) <= length line)%nat; [|lia].
  induction line as [|c line IH]; cbn; [lia|]. destruct (PyStr.isspace c); cbn; lia.
Qed.

Lemma get_top (stack : list Z) (top : Z) (below : list Z) :
  rev stack = top :: below -> PyList.get stack (-1) = Ok top.
Proof.
  intros Hs. rewrite <- (rev_involutive stack), Hs. cbn [rev]. apply get_last.
Qed.

(** A stack that decreases strictly down to zero is no higher than its top. *)
Lemma descending_height (rs : list Z) (top : Z) :
  StronglySorted (fun a b => b < a) (top :: rs) -> last (top :: rs) = Some 0 ->
  Z.of_nat (length rs) <= top.
Proof.
  revert top. induction rs as [|z rs IH]; intros top Hs Hl.
  - injection Hl as ->. cbn. lia.
  - apply StronglySorted_inv in Hs as [Hs Hlo]. apply Forall_cons in Hlo as [Hz _].
    rewrite last_cons_cons in Hl. specialize (IH z Hs Hl). cbn [length]. lia.
Qed.

(** Popping stops at the first entry that is not above [indent]; the zero
    at the bottom is never popped. *)
Lemma pop_above_spec (indent : Z) (rs : list Z) (top : Z) :
  0 <= indent ->
  StronglySorted (fun a b => b < a) (top :: rs) -> last (top :: rs) = Some 0 ->
  exists top' rs', pop_above indent (top :: rs) = top' :: rs'
    /\ top' <= indent
    /\ StronglySorted (fun a b => b < a) (top' :: rs') /\ last (top' :: rs') = Some 0.
Proof.
  intros Hi. revert top. induction rs as [|z rs IH]; intros top Hs Hl; cbn [pop_above].
  - injection Hl as ->. replace (indent <? 0) with false by (symmetry; apply Z.ltb_ge; lia).
    exists 0, []. repeat split; [lia|done].
  - destruct (Z.ltb_spec indent top) as [Hlt|Hge].
    + apply StronglySorted_inv in Hs as [Hs _]. rewrite last_cons_cons in Hl.
      apply (IH z Hs Hl).
    + by exists top, (z :: rs).
Qed.

Lemma update_indent_stack_ok (indent : Z) (stack : list Z) (top : Z) :
  0 <= indent -> stack_ok stack top ->
  exists stack', update_indent_stack indent stack = Ok stack' /\ stack_ok stack' indent.
Proof.
  intros Hi (below & Hrev & Hs & Hl). unfold update_indent_stack.
  rewrite (get_top stack top below Hrev). cbn [mbind result_bind].
  assert (forall st top' below', rev st = top' :: below' -> top' < indent ->
            StronglySorted (fun a b => b < a) (top' :: below') ->
            last (top' :: below') = Some 0 -> stack_ok (st ++ [indent]) indent) as Hpush.
  { intros st top' below' Hr Hlt Hs' Hl'. exists (top' :: below').
    rewrite rev_app_distr, Hr. split; [done|]. split; [|by rewrite last_cons_cons].
    constructor; [done|]. constructor; [done|].
    apply StronglySorted_inv in Hs' as [_ Hall].
    eapply Forall_impl; [exact Hall|]. cbn beta. intros; lia. }
  destruct (Z.ltb_spec top indent) as [Hlt|Hge].
  { eexists. split; [done|]. by eapply Hpush. }
  destruct (Z.ltb_spec indent top) as [Hlt|Hge'].
  - rewrite Hrev.
    destruct (pop_above_spec indent below top Hi Hs Hl) as (top' & rs' & -> & Hle & Hs' & Hl').
    destruct (rev (top' :: rs')) as [|z st] eqn:Hst.
    { apply (f_equal (@length Z)) in Hst. rewrite length_rev in Hst. done. }
    assert (rev (z :: st) = top' :: rs') as Hr by (by rewrite <- Hst, rev_involutive).
    rewrite (get_top (z :: st) top' rs' Hr). cbn [mbind result_bind].
    case_bool_decide as Hne.
    + eexists. split; [done|]. eapply Hpush; [done|lia|done|done].
    + eexists. split; [done|]. subst top'. by exists rs'.
  - assert (top = indent) as -> by lia. eexists. split; [done|]. by exists below.
Qed.

Lemma count_branches_bounds (stripped : str) : 0 <= count_branches stripped <= 6.
Proof.
  unfold count_branches.
  pose proof (length_filter (fun kw =>
      is_some (Re.search (ReScan.keyword kw) stripped)
      && negb (PyStr.startswith stripped (lit "def "))
      && negb (PyStr.startswith stripped (lit "class ")) = true) branch_keywords) as Hl.
  cbn [branch_keywords length] in Hl. lia.
Qed.

Lemma complexity_step_within (st : complexity_state) (line : str) (n deepest : Z) :
  complexity_within st n deepest -> indentation line <= deepest ->
  exists st', complexity_step st line = Ok st' /\ complexity_within st' (n + 1) deepest.
Proof.
  intros ((top & Hstack & Htop) & Hmax & Hbr) Hline. unfold complexity_step.
  destruct (_ || _).
  { exists st. split; [done|]. split; [by exists top|]. split; [done|lia]. }
  fold (indentation line).
  destruct (update_indent_stack_ok (indentation line) (indent_stack st) top
              (indentation_nonneg line) Hstack) as (stack' & -> & Hok).
  cbn [mbind result_bind]. eexists. split; [done|].
  pose proof (count_branches_bounds (PyStr.strip line)).
  split; [by exists (indentation line)|]. cbn [max_indent branch_count].
  destruct Hok as (below & Hrev & Hs & Hl).
  pose proof (descending_height below (indentation line) Hs Hl) as Hh.
  assert (length stack' = S (length below)) as Hlen.
  { by rewrite <- length_rev, Hrev. }
  split; lia.
Qed.

Lemma complexity_loop_within (lines : list str) (st : complexity_state) (n deepest : Z) :
  complexity_within st n deepest ->
  Forall (fun line => indentation line <= deepest) lines ->
  exists st', complexity_loop st lines = Ok st'
              /\ complexity_within st' (n + Z.of_nat (length lines)) deepest.
Proof.
  revert st n. induction lines as [|line lines IH]; intros st n Hst Hlines;
    cbn [complexity_loop length].
  - exists st. split; [done|]. by replace (n + Z.of_nat 0) with n by lia.
  - apply Forall_cons in Hlines as [Hline Hlines].
    destruct (complexity_step_within st line n deepest Hst Hline) as (st1 & -> & Hst1).
    cbn [mbind result_bind].
    replace (n + Z.of_nat (S (length lines))) with (n + 1 + Z.of_nat (length lines)) by lia.
    by apply IH.
Qed.

Lemma complexity_dict_lookup (cc nd bc : Z) (score : float) :
  let m : gmap string number :=
    list_to_map [("cyclomatic_complexity", Int cc); ("nesting_depth", Int nd);
                 ("branch_count", Int bc); ("complexity_score", Float score)]%string in
  m !! "cyclomatic_complexity"%string = Some (Int cc)
  /\ m !! "nesting_depth"%string = Some (Int nd)
  /\ m !! "branch_count"%string = Some (Int bc).
Proof. repeat split; reflexivity. Qed.

Lemma complexity_result (content : str) (deepest : Z) :
  content <> [] ->
  Forall (fun line => indentation line <= deepest) (PyStr.splitlines content) ->
  0 <= deepest ->
  exists m branches depth,
    calculate_code_complexity content = Ok m
    /\ m !! "branch_count"%string = Some (Int branches)
    /\ m !! "cyclomatic_complexity"%string = Some (Int (branches + 1))
    /\ m !! "nesting_depth"%string = Some (Int depth)
    /\ 0 <= branches <= 6 * Z.of_nat (length (PyStr.splitlines content))
    /\ 0 <= depth <= deepest.
Proof.
  intros Hne Hlines Hd. unfold calculate_code_complexity.
  destruct content as [|c content]; [done|].
  destruct (complexity_loop_within (PyStr.splitlines (c :: content))
              (ComplexityState [0] 0 0) 0 deepest) as (st & -> & Hst); [|done|].
  { split; [exists 0; split; [|done]|by cbn]. exists []. repeat split. constructor; constructor. }
  cbn [mbind result_bind]. destruct Hst as (_ & Hmax & Hbr).
  eexists _, (branch_count st), (max_indent st). split; [done|].
  match goal with |- context [Float ?score] =>
    destruct (complexity_dict_lookup (branch_count st + 1) (max_indent st)
                (branch_count st) score) as (-> & -> & ->) end.
  repeat split; lia.
Qed.

(** X12: [calculate_code_complexity] never raises. For the empty text it returns
    zeros and no [branch_count]; otherwise [cyclomatic_complexity] is
    [branch_count + 1], with at most six branches counted per line. *)
Theorem calculate_code_complexity_returns (content : str) :
  exists m, calculate_code_complexity content = Ok m
    /\ (content = [] ->
        m !! "cyclomatic_complexity"%string = Some (Int 0)
        /\ m !! "nesting_depth"%string = Some (Int 0)
        /\ m !! "branch_count"%string = None)
    /\ (content <> [] ->
        exists branches depth,
          m !! "branch_count"%string = Some (Int branches)
          /\ m !! "cyclomatic_complexity"%string = Some (Int (branches + 1))
          /\ m !! "nesting_depth"%string = Some (Int depth)
          /\ 0 <= branches <= 6 * Z.of_nat (length (PyStr.splitlines content))
          /\ 0 <= depth).
Proof.
  destruct content as [|c content].
  - eexists. split; [reflexivity|]. split; [|done]. intros _. repeat split; reflexivity.
  - set (lines := PyStr.splitlines (c :: content)).
    destruct (max_bounds (map indentation lines)) as [H0 Hmax].
    destruct (complexity_result (c :: content) (foldr Z.max 0 (map indentation lines)))
      as (m & branches & depth & Hm & Hb & Hc & Hd & Hbr & Hdepth); [done| |done|].
    { apply Forall_forall. intros line Hin.
      apply (proj1 (Forall_forall _ _) Hmax).
      exact (list_elem_of_fmap_2 indentation lines line Hin). }
    exists m. split; [done|]. split; [done|]. intros _.
    exists branches, depth. subst lines. destruct Hbr, Hdepth. repeat split; done.
Qed.

(** X13: The nesting depth is at most the deepest indentation of the text,
    counted in characters. *)
Theorem calculate_code_complexity_nesting (content : str) (deepest : Z) :
  Forall (fun line => indentation line <= deepest) (PyStr.splitlines content) ->
  0 <= deepest ->
  exists m depth,
    calculate_code_complexity content = Ok m
    /\ m !! "nesting_depth"%string = Some (Int depth)
    /\ 0 <= depth <= deepest.
Proof.
  intros Hlines Hd. destruct content as [|c content].
  - eexists _, 0. split; [reflexivity|]. split; [reflexivity|lia].
  - destruct (complexity_result (c :: content) deepest)
      as (m & branches & depth & Hm & _ & _ & Hdepth & _ & Hle); try done.
    by exists m, depth.
Qed.

End Complexity.

(** * Lines that are not code *)

Section NotCode.
Context `{UnicodeDB}.

Lemma lstrip_snoc (l : str) (c : N) :
  PyStr.isspace c = false -> PyStr.lstrip (l ++ [c]) = PyStr.lstrip l ++ [c].
Proof.
  intros Hc. induction l as [|d l IH]; cbn; [by rewrite Hc|].
  by destruct (PyStr.isspace d).
Qed.

Lemma rstrip_cons (c : N) (t : str) :
  PyStr.isspace c = false -> PyStr.rstrip (c :: t) = c :: PyStr.rstrip t.
Proof.
  intros Hc. unfold PyStr.rstrip. cbn [rev].
  by rewrite lstrip_snoc, rev_app_distr by done.
Qed.

Lemma lstrip_spaces (ws rest : str) :
  Forall (fun c => PyStr.isspace c = true) ws -> PyStr.lstrip (ws ++ rest) = PyStr.lstrip rest.
Proof. induction 1 as [|c ws Hc _ IH]; [done|]. cbn. by rewrite Hc. Qed.

(** A line that starts, after whitespace, with a character that is neither
    whitespace nor [#] is not passed over. *)
Lemma not_skipped (ws : str) (c : N) (tail : str) :
  Forall (fun c => PyStr.isspace c = true) ws ->
  PyStr.isspace c = false -> c <> 35 ->
  skipped (ws ++ c :: tail) = false.
Proof.
  intros Hws Hc Hhash. unfold skipped, PyStr.strip.
  rewrite lstrip_spaces by done. cbn [PyStr.lstrip]. rewrite Hc, rstrip_cons by done.
  rewrite bool_decide_eq_false_2 by done. change (lit "#") with [35]. cbn [orb].
  apply not_true_false. rewrite startswith_spec. intros [k [= ->]]. done.
Qed.

(** Where a pattern that starts with [^\s*] and a letter can match. *)
Lemma matches_indented (c : N) (x y : Re.regex) (line : str) (st' : Re.mstate) :
  matches (Re.Seq Re.Bol (Re.Seq (Re.Star Re.space) (Re.Seq (Re.Seq (Re.Chr c) x) y)))
          (Re.MState None line []) st' ->
  exists ws tail, line = ws ++ c :: tail /\ Forall (fun d => PyStr.isspace d = true) ws.
Proof.
  inversion 1 as [| | |? ? ? st1 ? Hbol Hrest| | | | | | |]; subst.
  inversion Hbol; subst.
  inversion Hrest as [| | |? ? ? st2 ? Hstar Hseq| | | | | | |]; subst.
  inversion Hseq as [| | |? ? ? st3 ? Hword _| | | | | | |]; subst.
  inversion Hword as [| | |? ? ? st4 ? Hchr _| | | | | | |]; subst.
  inversion Hchr as [|? ? ? Hstep| | | | | | | | |]; subst.
  apply matches_reads in Hstar as (ws & Hws & Hpre & ->); [|done].
  apply reads_star_cls in Hws.
  apply step_char_advance in Hstep as (d & ->%N.eqb_eq & [k Hk] & _).
  exists ws, k. split; [|done].
  destruct Hpre as [j Hj]. cbn [Re.ms_rest advance] in Hj, Hk. subst line.
  rewrite drop_app_length in Hk. by rewrite Hk.
Qed.

Lemma skipped_unmatched (c : N) (x y : Re.regex) (line : str) :
  PyStr.isspace c = false -> c <> 35 -> skipped line = true ->
  Re.rematch (Re.Seq Re.Bol (Re.Seq (Re.Star Re.space) (Re.Seq (Re.Seq (Re.Chr c) x) y)))
             line = None.
Proof.
  intros Hc Hhash Hskip. unfold Re.rematch.
  destruct (Re.rmatch _ _ _) as [g|] eqn:Hm; [|done].
  apply rmatch_sound in Hm as (st' & Hm & _).
  apply matches_indented in Hm as (ws & tail & -> & Hws).
  rewrite not_skipped in Hskip by done. done.
Qed.

Lemma skipped_no_def (line : str) :
  skipped line = true ->
  Re.rematch Re.def_line line = None
  /\ Re.rematch Re.short_def_line line = None
  /\ Re.rematch Re.short_class_line line = None.
Proof.
  intros Hskip. unfold Re.def_line, Re.short_def_line, Re.short_class_line, Re.Lit.
  change (lit "def") with [100; 101; 102]. change (lit "class") with [99; 108; 97; 115; 115].
  cbn [foldr]. repeat split; by apply skipped_unmatched.
Qed.

(** The first loop passes over such lines, and the second finds no name on
    them. *)
Lemma pass1_skipped (lines : list str) (st : smell_state) (i : Z) :
  Forall (fun line => skipped line = true) lines -> smell_pass1 st i lines = st.
Proof.
  intros Hall. revert st i. induction Hall as [|line lines Hline _ IH]; intros st i; [done|].
  cbn [smell_pass1]. unfold smell_line_step. rewrite Hline. apply IH.
Qed.

Lemma pass2_skipped (lines : list str) (i : Z) :
  Forall (fun line => skipped line = true) lines -> smell_pass2 i lines = [].
Proof.
  intros Hall. revert i. induction Hall as [|line lines Hline _ IH]; intros i; [done|].
  cbn [smell_pass2]. rewrite IH, app_nil_r. unfold short_name_step.
  destruct (skipped_no_def line Hline) as (_ & -> & ->). done.
Qed.

(** X15: A text of blank lines and comments has no smell. *)
Theorem detect_code_smells_comments (content : str) :
  Forall (fun line => skipped line = true) (PyStr.splitlines content) ->
  detect_code_smells content = [].
Proof.
  intros Hall. unfold detect_code_smells. destruct content as [|c content]; [done|].
  by rewrite pass1_skipped, pass2_skipped.
Qed.

(** The metrics scan counts such a line as blank or as a comment. *)
Lemma scan_line_skipped (st : scan_state) (line : str) :
  skipped line = true -> in_docstring st = false ->
  let st' := scan_line st line in
  in_docstring st' = false
  /\ docstring_lines st' = docstring_lines st
  /\ function_count st' = function_count st
  /\ class_count st' = class_count st
  /\ import_count st' = import_count st
  /\ (blank_lines st' + comment_lines st' = blank_lines st + comment_lines st + 1)%Z.
Proof.
  unfold skipped, scan_line. destruct st as [bl cm ds fc cc ic td lens ind delim].
  cbn [in_docstring]. intros Hskip ->.
  destruct (PyStr.strip line) as [|c stripped] eqn:Hs; [cbn; repeat split; lia|].
  rewrite bool_decide_eq_false_2 in Hskip by done. cbn [orb] in Hskip.
  assert (PyStr.startswith (c :: stripped) triple_double = false) as ->.
  { apply not_true_false. rewrite startswith_spec. intros [j [= -> _]].
    apply startswith_spec in Hskip as [k Hk]. by injection Hk. }
  assert (PyStr.startswith (c :: stripped) triple_single = false) as ->.
  { apply not_true_false. rewrite startswith_spec. intros [j [= -> _]].
    apply startswith_spec in Hskip as [k Hk]. by injection Hk. }
  rewrite Hskip. cbn [orb]. destruct (PyStr.contains _ _);
    cbn [in_docstring docstring_lines function_count class_count import_count
         blank_lines comment_lines]; repeat split; lia.
Qed.

Lemma scan_lines_skipped (lines : list str) (st : scan_state) :
  Forall (fun line => skipped line = true) lines -> in_docstring st = false ->
  let st' := foldl scan_line st lines in
  docstring_lines st' = docstring_lines st
  /\ function_count st' = function_count st
  /\ class_count st' = class_count st
  /\ import_count st' = import_count st
  /\ (blank_lines st' + comment_lines st'
      = blank_lines st + comment_lines st + Z.of_nat (length lines))%Z.
Proof.
  intros Hall. revert st. induction Hall as [|line lines Hline _ IH]; intros st Hdoc;
    cbn zeta; cbn [foldl length].
  - repeat split; lia.
  - destruct (scan_line_skipped st line Hline Hdoc) as (Hd & H1 & H2 & H3 & H4 & Hsum).
    destruct (IH _ Hd) as (G1 & G2 & G3 & G4 & Gsum). cbn zeta in *.
    repeat split; lia.
Qed.

Lemma metrics_dict_code (t c cm b d f cl im td mx : Z) (avg ratio : number) :
  let m := metrics_dict t c cm b d f cl im td mx avg ratio in
  m !! "code_lines"%string = Some (Int c) /\ m !! "docstring_lines"%string = Some (Int d)
  /\ m !! "function_count"%string = Some (Int f)
  /\ m !! "class_count"%string = Some (Int cl)
  /\ m !! "import_count"%string = Some (Int im).
Proof. repeat split; reflexivity. Qed.

(** X19: In a text of blank lines and comments no line is counted as code, as a
    docstring, a function, a class or an import. *)
Theorem count_code_metrics_comments (content : str) :
  Forall (fun line => skipped line = true) (PyStr.splitlines content) ->
  count_code_metrics content !! "code_lines"%string = Some (Int 0)
  /\ count_code_metrics content !! "docstring_lines"%string = Some (Int 0)
  /\ count_code_metrics content !! "function_count"%string = Some (Int 0)
  /\ count_code_metrics content !! "class_count"%string = Some (Int 0)
  /\ count_code_metrics content !! "import_count"%string = Some (Int 0).
Proof.
  intros Hall. unfold count_code_metrics. destruct content as [|c content].
  - repeat split; reflexivity.
  - destruct (scan_lines_skipped _ scan_init Hall eq_refl) as (Hd & Hf & Hc & Hi & Hsum).
    cbn zeta in *.
    match goal with |- context [metrics_dict ?t ?c ?cm ?b ?d ?f ?cl ?im ?td ?mx ?av ?ra] =>
      destruct (metrics_dict_code t c cm b d f cl im td mx av ra)
        as (-> & -> & -> & -> & ->) end.
    rewrite Hd, Hf, Hc, Hi. cbn [scan_init docstring_lines function_count class_count
      import_count blank_lines comment_lines] in *.
    repeat split; do 2 f_equal; lia.
Qed.

End NotCode.

(** * Paths *)

Section Paths.
Context `{UnicodeDB} `{OsPath}.
#[local] Open Scope Z_scope.

Lemma rfind_from_app (c : N) (a b : str) (i last : Z) :
  PyStr.rfind_from c (a ++ b) i last
  = PyStr.rfind_from c b (i + Z.of_nat (length a)) (PyStr.rfind_from c a i last).
Proof.
  revert i last. induction a as [|d a IH]; intros i last; cbn [app PyStr.rfind_from length].
  - f_equal. lia.
  - rewrite IH. f_equal. lia.
Qed.

(** Searching from another index shifts what is found. *)
Lemma rfind_from_shift (c : N) (b : str) (j last : Z) :
  PyStr.rfind_from c b j last
  = if PyStr.rfind b c <? 0 then last else j + PyStr.rfind b c.
Proof.
  unfold PyStr.rfind. revert j last. induction b as [|d b IH]; intros j last;
    cbn [PyStr.rfind_from]; [done|].
  rewrite (IH (j + 1)), (IH (0 + 1)).
  destruct (Z.ltb_spec (PyStr.rfind_from c b 0 (-1)) 0) as [Hneg|Hpos].
  - destruct (d =? c)%N; cbn; [f_equal; lia|done].
  - replace (_ <? 0) with false by (symmetry; apply Z.ltb_ge; lia). lia.
Qed.

Lemma rfind_absent (c : N) (b : str) : c ∉ b -> PyStr.rfind b c = -1.
Proof.
  unfold PyStr.rfind. generalize 0. induction b as [|d b IH]; intros j Hc; [done|].
  apply not_elem_of_cons in Hc as [Hd Hb]. cbn [PyStr.rfind_from].
  replace (d =? c)%N with false by (symmetry; apply N.eqb_neq; congruence). by apply IH.
Qed.

(** The text splits at the last occurrence of a character. *)
Lemma rfind_split (c : N) (p : str) :
  0 <= PyStr.rfind p c ->
  exists a b, p = a ++ c :: b /\ (c ∉ b) /\ PyStr.rfind p c = Z.of_nat (length a).
Proof.
  induction p as [|d p IH] using rev_ind; [done|].
  unfold PyStr.rfind in *. rewrite rfind_from_app. cbn [PyStr.rfind_from].
  destruct (N.eqb_spec d c) as [->|Hd].
  - intros _. exists p, []. split; [done|]. split; [apply not_elem_of_nil|lia].
  - intros Hpos. destruct (IH Hpos) as (a & b & -> & Hb & Hr).
    exists a, (b ++ [d]). split; [by rewrite <- app_assoc|]. split; [|done].
    rewrite not_elem_of_app, list_elem_of_singleton. split; [done|congruence].
Qed.

Lemma rfind_dot_after_sep (a b : str) :
  PyStr.rfind (a ++ 47%N :: b) 46
  = if PyStr.rfind b 46 <? 0 then PyStr.rfind a 46
    else Z.of_nat (length a) + 1 + PyStr.rfind b 46.
Proof.
  unfold PyStr.rfind at 1. rewrite rfind_from_app. cbn [PyStr.rfind_from N.eqb Pos.eqb].
  rewrite rfind_from_shift. fold (PyStr.rfind a 46). destruct (_ <? 0); [done|lia].
Qed.

Lemma splitext_ext_basename (p : str) :
  os_path = posixpath -> splitext_ext (basename p) = splitext_ext p.
Proof.
  intros Hposix. unfold basename, splitext_ext, sep_index. rewrite Hposix.
  change (splitext_ext (H := posix) (basename (H := posix) p) = splitext_ext (H := posix) p).
  unfold basename, sep_index. cbn [os_path posix].
  pose proof (rfind_from_bounds 47 p 0 (-1) ltac:(lia)) as Hs. cbn zeta in Hs.
  fold (PyStr.rfind p 47) in Hs.
  destruct (Z.lt_ge_cases (PyStr.rfind p 47) 0) as [Hneg|Hpos].
  { replace (PyStr.rfind p 47) with (-1) by lia. done. }
  destruct (rfind_split 47 p Hpos) as (a & b & -> & Hb & Hr). rewrite Hr.
  replace (Z.to_nat (Z.of_nat (length a) + 1)) with (length a + 1)%nat by lia.
  rewrite <- drop_drop, drop_app_length. cbn [drop]. rewrite drop_0.
  unfold splitext_ext, sep_index. cbn [os_path posix]. rewrite Hr, (rfind_absent 47 b Hb).
  rewrite rfind_dot_after_sep.
  pose proof (rfind_from_bounds 46 b 0 (-1) ltac:(lia)) as Hd. cbn zeta in Hd.
  fold (PyStr.rfind b 46) in Hd.
  pose proof (rfind_from_bounds 46 a 0 (-1) ltac:(lia)) as Ha. cbn zeta in Ha.
  fold (PyStr.rfind a 46) in Ha.
  destruct (Z.ltb_spec (PyStr.rfind b 46) 0) as [Hno|Hdot].
  - replace (-1 <? PyStr.rfind b 46) with false by (symmetry; apply Z.ltb_ge; lia).
    by replace (_ <? PyStr.rfind a 46) with false by (symmetry; apply Z.ltb_ge; lia).
  - replace (-1 <? PyStr.rfind b 46) with true by (symmetry; apply Z.ltb_lt; lia).
    replace (_ <? _) with true by (symmetry; apply Z.ltb_lt; lia).
    unfold Difflib.slice.
    replace (Z.to_nat (Z.of_nat (length a) + 1)) with (length a + 1)%nat by lia.
    replace (Z.to_nat (-1 + 1)) with 0%nat by lia.
    rewrite <- (drop_drop _ 1 (length a)), drop_app_length. cbn [drop]. rewrite drop_0.
    replace (Z.to_nat (Z.of_nat (length a) + 1 + PyStr.rfind b 46 - (Z.of_nat (length a) + 1)))
      with (Z.to_nat (PyStr.rfind b 46 - (-1 + 1))) by lia.
    destruct (forallb _ _); [done|].
    replace (Z.to_nat (Z.of_nat (length a) + 1 + PyStr.rfind b 46))
      with (length a + 1 + Z.to_nat (PyStr.rfind b 46))%nat by lia.
    rewrite <- (drop_drop _ (Z.to_nat (PyStr.rfind b 46)) (length a + 1)).
    by rewrite <- (drop_drop _ 1 (length a)), drop_app_length.
Qed.

(** X20: Under [posixpath] the language named for a path is the language
    named for its last component; the content is not looked at. *)
Theorem identify_code_language_basename (filename : str) (content content' : option str) :
  os_path = posixpath ->
  identify_code_language filename content
  = identify_code_language (basename filename) content'.
Proof. intros Hposix. unfold identify_code_language. by rewrite splitext_ext_basename. Qed.

(** Under [ntpath] it is not so: the drive is no part of the last component,
    and what is left of [C:.py] is a name that starts with its only dot. *)
Lemma identify_code_language_drive :
  os_path = ntpath -> ntpath_after_drive (lit "C:.py") = lit ".py" ->
  identify_code_language (lit "C:.py") None = lit "Python"
  /\ identify_code_language (basename (lit "C:.py")) None = lit "Unknown".
Proof.
  intros Hnt Hdrive. unfold identify_code_language, basename, splitext_ext, sep_index.
  rewrite Hnt, Hdrive. split; vm_compute; reflexivity.
Qed.

End Paths.

(** * Snapshots that are not made *)

Section GivingUp.
Context `{UnicodeDB} `{Zlib} `{OsPath}.

Lemma encode_raises (c : str) : ~ encodable c -> exists e, Utf8.encode c = Raise e.
Proof.
  intros Hc. destruct (Utf8.encode c) as [b|e] eqn:He; [|by exists e].
  exfalso. apply Hc, encode_ok_iff. by rewrite He.
Qed.

Lemma encode_returns (c : str) : encodable c -> exists b, Utf8.encode c = Ok b.
Proof.
  intros Hc%encode_ok_iff. destruct (Utf8.encode c) as [b|e]; [by exists b|done].
Qed.

Lemma create_snapshot_text (w : world) (file_path : str) (content : option str) :
  create_snapshot w file_path content
  = match snapshot_text w file_path content with
    | Some c => create_snapshot w file_path (Some c)
    | None => None
    end.
Proof.
  unfold create_snapshot, snapshot_text. destruct content as [c|]; [done|].
  by destruct (safe_read_file w file_path).
Qed.

(** X21: [create_snapshot] returns the empty dictionary exactly when there is no
    content to read or the content has no UTF-8 encoding; a snapshot it makes
    holds the content, its length and its hash. *)
Theorem create_snapshot_gives_up (w : world) (file_path : str) (content : option str) :
  (create_snapshot w file_path content = None
   <-> forall c, snapshot_text w file_path content = Some c -> ~ encodable c)
  /\ (forall snap, create_snapshot w file_path content = Some snap ->
        snapshot_text w file_path content = Some (snap_content snap)
        /\ snap_size snap = Z.of_nat (length (snap_content snap))
        /\ compute_file_hash (snap_content snap) = Ok (snap_hash snap)).
Proof.
  rewrite create_snapshot_text. destruct (snapshot_text w file_path content) as [c|].
  2:{ split; [split; [by intros _ c ?|done]|done]. }
  unfold create_snapshot, compute_file_hash, compress_content.
  destruct (Utf8.encode c) as [b|e] eqn:He; cbn [mbind result_bind].
  - assert (encodable c) as Hc by (apply encode_ok_iff; by rewrite He).
    pose proof (identify_code_language_nonempty file_path (Some c)) as Hlang.
    destruct (identify_code_language file_path (Some c)) as [|l lang]; [done|].
    split.
    + split; [|intros Hno; by destruct (Hno c eq_refl)].
      destruct (path_exists w file_path); destruct c; discriminate.
    + intros snap. destruct (path_exists w file_path); destruct c;
        intros [= <-]; cbn [snap_content snap_size snap_hash]; by rewrite He.
  - split; [|done]. split; [|done]. intros _ c' [= <-] Hc.
    apply encode_ok_iff in Hc. by rewrite He in Hc.
Qed.

End GivingUp.

(** * Diffs that can be replayed *)

Section Replay.
Context `{UnicodeDB}.
#[local] Open Scope Z_scope.

Lemma get_in_range {A} (l : list A) (i : Z) :
  0 <= i < Z.of_nat (length l) -> exists x, PyList.get l i = Ok x.
Proof.
  intros Hi. unfold PyList.get.
  replace (i <? 0) with false by (symmetry; apply Z.ltb_ge; lia).
  replace (i <? 0) with false by (symmetry; apply Z.ltb_ge; lia).
  replace (_ <=? i) with false by (symmetry; apply Z.leb_gt; lia). cbn [orb].
  destruct (l !! Z.to_nat i) as [x|] eqn:Hx; [by exists x|].
  apply lookup_ge_None in Hx. lia.
Qed.

Lemma pop_in_range {A} (l : list A) (i : Z) :
  0 <= i < Z.of_nat (length l) -> exists l', PyList.pop l i = Ok l'.
Proof.
  intros Hi. unfold PyList.pop.
  replace (i <? 0) with false by (symmetry; apply Z.ltb_ge; lia).
  replace (i <? 0) with false by (symmetry; apply Z.ltb_ge; lia).
  replace (_ <=? i) with false by (symmetry; apply Z.leb_gt; lia). by eexists.
Qed.

Lemma insert_in_range {A} (l : list A) (i : Z) (x : A) :
  0 <= i <= PyList.ssize_max -> exists l', PyList.insert l i x = Ok l'.
Proof.
  intros Hi. unfold PyList.insert.
  replace (_ <? i) with false by (symmetry; apply Z.ltb_ge; lia).
  replace (i <? _) with false by (symmetry; apply Z.ltb_ge; unfold PyList.ssize_max in *; lia).
  by eexists.
Qed.

(** One line of the diff, replayed from a cursor that is not negative. *)
Lemma apply_line_returns (result_lines : list str) (line_idx : Z) (diff_line : str) :
  header_start_ok diff_line -> 0 <= line_idx <= PyList.ssize_max ->
  exists result_lines' line_idx',
    apply_line (result_lines, line_idx) diff_line = Ok (result_lines', line_idx')
    /\ 0 <= line_idx' /\ Z.max line_idx' (2 ^ 62) <= Z.max line_idx (2 ^ 62) + 1.
Proof.
  intros Hhead Hidx. unfold apply_line.
  destruct (PyStr.startswith diff_line (lit "@@")).
  { destruct (Re.rematch Re.hunk_header diff_line) as [groups|] eqn:Hm.
    - destruct (Hhead groups Hm) as (n & -> & Hn). cbn [mbind result_bind].
      eexists _, _. split; [done|]. lia.
    - eexists _, _. split; [done|]. lia. }
  destruct (PyStr.startswith diff_line (lit "+")).
  { destruct (insert_in_range result_lines line_idx (drop 1 diff_line) Hidx) as [l ->].
    cbn [mbind result_bind]. eexists _, _. split; [done|]. lia. }
  destruct (PyStr.startswith diff_line (lit "-")).
  { destruct (Z.ltb_spec line_idx (Z.of_nat (length result_lines))) as [Hlt|Hge].
    - destruct (get_in_range result_lines line_idx ltac:(lia)) as [x ->].
      cbn [mbind result_bind]. destruct (PyStr.eqb x (drop 1 diff_line)).
      + destruct (pop_in_range result_lines line_idx ltac:(lia)) as [l ->].
        cbn [mbind result_bind]. eexists _, _. split; [done|]. lia.
      + eexists _, _. split; [done|]. lia.
    - eexists _, _. split; [done|]. lia. }
  destruct (negb _); eexists _, _; (split; [done|]); lia.
Qed.

Lemma apply_lines_returns (diff_lines : list str) (result_lines : list str) (line_idx : Z) :
  Forall header_start_ok diff_lines -> 0 <= line_idx ->
  Z.max line_idx (2 ^ 62) + Z.of_nat (length diff_lines) <= 2 ^ 63 ->
  exists st, apply_lines (result_lines, line_idx) diff_lines = Ok st.
Proof.
  intros Hall. revert result_lines line_idx.
  induction Hall as [|diff_line diff_lines Hline _ IH]; intros result_lines line_idx Hidx Hroom;
    cbn [apply_lines length] in *; [by eexists|].
  destruct (apply_line_returns result_lines line_idx diff_line Hline)
    as (rl & idx & -> & H0 & Hmax); [unfold PyList.ssize_max; lia|].
  cbn [mbind result_bind]. apply IH; lia.
Qed.

(** X6: A diff whose hunk headers name a start of at least one in the new text
    can always be replayed: [apply_diff] returns a text. *)
Theorem apply_diff_returns (original_content diff_content : str) :
  Z.of_nat (length (PyStr.splitlines diff_content)) < 2 ^ 62 ->
  Forall header_start_ok (PyStr.splitlines diff_content) ->
  exists text, apply_diff original_content diff_content = Ok text.
Proof.
  intros Hlen Hall. unfold apply_diff.
  destruct (apply_lines_returns
              (drop (find_start 0 (PyStr.splitlines diff_content) 0)
                    (PyStr.splitlines diff_content))
              (PyStr.splitlines original_content) 0) as [st ->].
  - by apply Forall_drop.
  - done.
  - rewrite length_drop. lia.
  - by eexists.
Qed.

End Replay.

(** * An empty diff *)

Section Sound.
Context {E : Type} `{Countable E}.
Variables a b : list E.
#[local] Open Scope Z_scope.

Lemma agree_zero (i j : Z) : agree a b i j 0.
Proof. intros t Ht. lia. Qed.

Lemma agree_snoc (i j k : Z) (x : E) :
  0 <= k -> agree a b i j k ->
  Difflib.at_index a (i + k) = Some x -> Difflib.at_index b (j + k) = Some x ->
  agree a b i j (k + 1).
Proof.
  intros Hk Hagree Ha Hb t Ht. destruct (decide (t = k)) as [->|Hne]; [by exists x|].
  apply Hagree. lia.
Qed.

Lemma agree_cons (i j k : Z) (x : E) :
  0 <= k -> agree a b i j k ->
  Difflib.at_index a (i - 1) = Some x -> Difflib.at_index b (j - 1) = Some x ->
  agree a b (i - 1) (j - 1) (k + 1).
Proof.
  intros Hk Hagree Ha Hb t Ht. destruct (decide (t = 0)) as [->|Hne].
  - exists x. by rewrite !Z.add_0_r.
  - destruct (Hagree (t - 1) ltac:(lia)) as (y & Hy1 & Hy2). exists y.
    replace (i - 1 + t) with (i + (t - 1)) by lia.
    by replace (j - 1 + t) with (j + (t - 1)) by lia.
Qed.

Lemma agree_app (i j k1 k2 : Z) :
  0 <= k1 -> agree a b i j k1 -> agree a b (i + k1) (j + k1) k2 -> agree a b i j (k1 + k2).
Proof.
  intros Hk H1 H2 t Ht. destruct (Z.lt_ge_cases t k1) as [Hlt|Hge]; [apply H1; lia|].
  destruct (H2 (t - k1) ltac:(lia)) as (x & Hx1 & Hx2). exists x.
  replace (i + t) with (i + k1 + (t - k1)) by lia.
  by replace (j + t) with (j + k1 + (t - k1)) by lia.
Qed.

(** One row of [find_longest_match]. *)
Lemma flm_row_sound (i blo bhi : Z) (x : E) (prev : gmap Z Z) (js : list Z) :
  Difflib.at_index a i = Some x ->
  (forall j, j ∈ js -> Difflib.at_index b j = Some x) ->
  row_sound a b (i - 1) prev ->
  forall (new : gmap Z Z) (best : Difflib.block),
    row_sound a b i new -> block_sound a b best ->
    row_sound a b i (Difflib.flm_row i blo bhi prev js new best).1
    /\ block_sound a b (Difflib.flm_row i blo bhi prev js new best).2.
Proof.
  intros Hx Hjs Hprev. induction js as [|j js IH]; intros new best Hnew Hbest;
    cbn [Difflib.flm_row]; [done|].
  assert (forall j, j ∈ js -> Difflib.at_index b j = Some x) as Hjs'.
  { intros j' Hj'. apply Hjs. by apply list_elem_of_further. }
  destruct (j <? blo); [by apply IH|]. destruct (bhi <=? j); [done|].
  destruct best as [[bi bj] bs].
  set (k := default 0 (prev !! (j - 1)) + 1).
  assert (1 <= k /\ agree a b (i - k + 1) (j - k + 1) k) as [Hk Hagree].
  { subst k. destruct (prev !! (j - 1)) as [v|] eqn:Hv; cbn [default]; unfold id.
    - destruct (Hprev _ _ Hv) as [Hv1 Hv2]. split; [lia|].
      replace (i - (v + 1) + 1) with (i - 1 - v + 1) by lia.
      replace (j - (v + 1) + 1) with (j - 1 - v + 1) by lia.
      apply (agree_snoc _ _ _ x); [lia|done| |].
      + by replace (i - 1 - v + 1 + v) with i by lia.
      + replace (j - 1 - v + 1 + v) with j by lia. apply Hjs, list_elem_of_here.
    - split; [lia|]. replace (0 + 1) with 1 by lia.
      intros t Ht. exists x. replace (i - 1 + 1 + t) with i by lia.
      replace (j - 1 + 1 + t) with j by lia. split; [done|]. apply Hjs, list_elem_of_here. }
  apply (IH Hjs').
  - intros j' v'. rewrite lookup_insert. case_decide as Hj; [|apply Hnew].
    intros [= <-]. by subst j'.
  - destruct (bs <? k); [|done]. split; [lia|done].
Qed.

Lemma row_sound_empty (r : Z) : row_sound a b r ∅.
Proof. intros j v Hv. by rewrite lookup_empty in Hv. Qed.

Lemma flm_rows_sound (alo blo bhi : Z) (k : nat) :
  let res := foldl (fun '(j2len, best) i =>
                      let js := match Difflib.at_index a i with
                                | Some x => default [] (Difflib.b2j b !! x)
                                | None => []
                                end in
                      Difflib.flm_row i blo bhi j2len js ∅ best)
                   (∅, (alo, blo, 0)) (seqZ alo (Z.of_nat k)) in
  row_sound a b (alo + Z.of_nat k - 1) res.1 /\ block_sound a b res.2.
Proof.
  induction k as [|k IH]; cbn zeta.
  - rewrite seqZ_nil by lia. cbn [foldl fst snd].
    split; [apply row_sound_empty|]. split; [done|apply agree_zero].
  - replace (seqZ alo (Z.of_nat (S k))) with (seqZ alo (Z.of_nat k) ++ [alo + Z.of_nat k]).
    2:{ unfold seqZ. rewrite !Nat2Z.id, seq_S, fmap_app. f_equal.
        cbn [fmap list_fmap]. f_equal. lia. }
    rewrite foldl_app. cbn [foldl]. cbn zeta in IH. destruct IH as [Hrow Hbest].
    destruct (foldl _ _ (seqZ alo (Z.of_nat k))) as [prev best]. cbn [fst snd] in Hrow, Hbest.
    replace (alo + Z.of_nat (S k) - 1) with (alo + Z.of_nat k) by lia.
    destruct (Difflib.at_index a (alo + Z.of_nat k)) as [x|] eqn:Hx.
    + apply (flm_row_sound _ _ _ x); [done| | |apply row_sound_empty|done].
      * destruct (b2j_spec b x) as [->|[_ Hjs]]; [by intros j ?%elem_of_nil|].
        intros j Hj. by apply Hjs.
      * by replace (alo + Z.of_nat k - 1) with (alo + Z.of_nat k - 1) by lia.
    + cbn [Difflib.flm_row fst snd]. split; [apply row_sound_empty|done].
Qed.

Lemma extend_left_sound (fuel : nat) (want : bool) (alo blo : Z) (best : Difflib.block) :
  block_sound a b best -> block_sound a b (Difflib.extend_left a b fuel want alo blo best).
Proof.
  revert best. induction fuel as [|fuel IH]; intros [[bi bj] bs] Hbest; [done|].
  cbn [Difflib.extend_left]. destruct (_ && _); [|done].
  destruct (Difflib.at_index a (bi - 1)) as [x|] eqn:Hx; [|done].
  destruct (Difflib.at_index b (bj - 1)) as [y|] eqn:Hy; [|done].
  destruct (bool_decide (Difflib.isbjunk y = want)); [|done]. cbn [andb].
  case_bool_decide as Hxy; [|done]. subst y. apply IH.
  destruct Hbest as [Hk Hagree]. split; [lia|]. by apply (agree_cons _ _ _ x).
Qed.

Lemma extend_right_sound (fuel : nat) (want : bool) (ahi bhi : Z) (best : Difflib.block) :
  block_sound a b best -> block_sound a b (Difflib.extend_right a b fuel want ahi bhi best).
Proof.
  revert best. induction fuel as [|fuel IH]; intros [[bi bj] bs] Hbest; [done|].
  cbn [Difflib.extend_right]. destruct (_ && _); [|done].
  destruct (Difflib.at_index a (bi + bs)) as [x|] eqn:Hx; [|done].
  destruct (Difflib.at_index b (bj + bs)) as [y|] eqn:Hy; [|done].
  destruct (bool_decide (Difflib.isbjunk y = want)); [|done]. cbn [andb].
  case_bool_decide as Hxy; [|done]. subst y. apply IH.
  destruct Hbest as [Hk Hagree]. split; [lia|]. by apply (agree_snoc _ _ _ x).
Qed.

(** The block [find_longest_match] returns is a match. *)
Lemma find_longest_match_sound (alo ahi blo bhi : Z) :
  block_sound a b (Difflib.find_longest_match a b alo ahi blo bhi).
Proof.
  unfold Difflib.find_longest_match, Difflib.flm_rows.
  destruct (flm_rows_sound alo blo bhi (Z.to_nat (ahi - alo))) as [_ Hbest].
  destruct (Z.le_gt_cases alo ahi) as [Hle|Hgt].
  - rewrite Z2Nat.id in Hbest by lia.
    by apply extend_right_sound, extend_left_sound, extend_right_sound, extend_left_sound.
  - rewrite seqZ_nil in * by lia. cbn [foldl snd] in *.
    by apply extend_right_sound, extend_left_sound, extend_right_sound, extend_left_sound.
Qed.

(** Ranges and blocks that stay apart. *)
Lemma pairs_snoc {A} (R : A -> A -> Prop) (l : list A) (x : A) :
  ForallOrdPairs R l -> Forall (fun y => R y x) l -> ForallOrdPairs R (l ++ [x]).
Proof.
  induction 1 as [|y l Hy Hl IH]; intros Hx; cbn [app]; [repeat constructor|].
  apply Forall_cons in Hx as [Hyx Hx]. constructor; [|by apply IH].
  apply Forall_app. split; [done|by constructor].
Qed.

Lemma range_apart_sym (q1 q2 : Z * Z * Z * Z) : range_apart q1 q2 -> range_apart q2 q1.
Proof. unfold range_apart. tauto. Qed.

Lemma range_apart_inside (r q x : Z * Z * Z * Z) :
  range_inside r q -> range_apart q x -> range_apart r x.
Proof.
  destruct r as [[[? ?] ?] ?], q as [[[? ?] ?] ?], x as [[[? ?] ?] ?].
  unfold range_apart, range_before, range_inside. lia.
Qed.

Lemma range_inside_trans (r q s : Z * Z * Z * Z) :
  range_inside r q -> range_inside q s -> range_inside r s.
Proof.
  destruct r as [[[? ?] ?] ?], q as [[[? ?] ?] ?], s as [[[? ?] ?] ?].
  unfold range_inside. lia.
Qed.

(** A range added to the work list. *)
Lemma worklist_push (r : Z * Z * Z * Z) (queue : list (Z * Z * Z * Z))
    (acc : list Difflib.block) :
  worklist_ok (Difflib.la a) (Difflib.lb b) queue acc ->
  range_ok r -> range_inside r (0, Difflib.la a, 0, Difflib.lb b) ->
  Forall (range_apart r) queue ->
  Forall (fun blk => range_apart r (block_range blk)) acc ->
  worklist_ok (Difflib.la a) (Difflib.lb b) (r :: queue) acc.
Proof.
  intros (Hq & Hacc & Hqq & Haa & Hqa) Hok Hin Hrq Hra.
  split; [by constructor|]. split; [done|]. split; [by constructor|].
  split; [done|]. by constructor.
Qed.

(** A block found in the range at the head of the work list. *)
Lemma worklist_found (q : Z * Z * Z * Z) (queue : list (Z * Z * Z * Z))
    (acc : list Difflib.block) (blk : Difflib.block) :
  worklist_ok (Difflib.la a) (Difflib.lb b) (q :: queue) acc ->
  block_full blk -> range_inside (block_range blk) q ->
  worklist_ok (Difflib.la a) (Difflib.lb b) queue (acc ++ [blk]).
Proof.
  intros (Hq & Hacc & Hqq & Haa & Hqa) Hfull Hin.
  apply Forall_cons in Hq as [[Hqok Hqin] Hq].
  inversion Hqq as [|? ? Hq1 Hqq']; subst.
  apply Forall_cons in Hqa as [Hqacc Hqa].
  split; [done|]. split.
  { apply Forall_app. split; [done|]. constructor; [|done].
    split; [done|]. by eapply range_inside_trans. }
  split; [done|]. split.
  { apply pairs_snoc; [done|]. eapply Forall_impl; [exact Hqacc|]. cbn beta.
    intros x Hx. apply range_apart_sym. eapply range_apart_inside; [exact Hin|done]. }
  apply Forall_forall. intros r Hr. apply Forall_app. split.
  - by apply (proj1 (Forall_forall _ _) Hqa).
  - constructor; [|done]. apply range_apart_sym. eapply range_apart_inside; [exact Hin|].
    by apply (proj1 (Forall_forall _ _) Hq1).
Qed.

(** The blocks the work list yields are matches, not empty, inside the
    sequences and pairwise apart. *)
Lemma gmb_loop_ok (fuel : nat) :
  forall (queue : list (Z * Z * Z * Z)) (acc : list Difflib.block),
    worklist_ok (Difflib.la a) (Difflib.lb b) queue acc ->
    Forall (block_sound a b) acc ->
    Forall (fun blk => block_sound a b blk /\ block_full blk
                       /\ range_inside (block_range blk)
                                       (0, Difflib.la a, 0, Difflib.lb b))
           (Difflib.gmb_loop a b fuel queue acc)
    /\ ForallOrdPairs block_apart (Difflib.gmb_loop a b fuel queue acc).
Proof.
  assert (forall queue acc,
            worklist_ok (Difflib.la a) (Difflib.lb b) queue acc ->
            Forall (block_sound a b) acc ->
            Forall (fun blk => block_sound a b blk /\ block_full blk
                               /\ range_inside (block_range blk)
                                               (0, Difflib.la a, 0, Difflib.lb b)) acc
            /\ ForallOrdPairs block_apart acc) as Hdone.
  { intros queue acc (_ & Hacc & _ & Haa & _) Hs. split; [|done].
    apply Forall_forall. intros blk Hblk.
    split; [by apply (proj1 (Forall_forall _ _) Hs)|].
    by apply (proj1 (Forall_forall _ _) Hacc). }
  induction fuel as [|fuel IH]; intros queue acc Hw Hs; [by destruct queue; eapply Hdone|].
  destruct queue as [|[[[alo ahi] blo] bhi] queue]; [by eapply Hdone|].
  cbn [Difflib.gmb_loop].
  pose proof Hw as (Hq & Hacc & Hqq & Haa & Hqa).
  apply Forall_cons in Hq as [[[Hok1 Hok2] Hqin] Hq].
  inversion Hqq as [|? ? Hq1 Hqq']; subst.
  apply Forall_cons in Hqa as [Hqacc Hqa].
  pose proof (find_longest_match_within a b alo ahi blo bhi Hok1 Hok2) as Hin.
  pose proof (find_longest_match_sound alo ahi blo bhi) as Hsound.
  destruct (Difflib.find_longest_match a b alo ahi blo bhi) as [[i j] k].
  cbn in Hin. destruct (Z.eqb_spec k 0) as [Hk|Hk].
  { apply IH; [|done]. split; [done|]. split; [done|]. split; [done|]. by split. }
  assert (worklist_ok (Difflib.la a) (Difflib.lb b) queue (acc ++ [(i, j, k)])) as Hw1.
  { eapply worklist_found; [exact Hw| |]; unfold block_full, range_inside; cbn; lia. }
  assert (Forall (block_sound a b) (acc ++ [(i, j, k)])) as Hs1.
  { apply Forall_app. split; [done|by constructor]. }
  assert (forall r, range_inside r (alo, ahi, blo, bhi) ->
            range_apart r (i, i + k, j, j + k) ->
            Forall (range_apart r) queue
            /\ Forall (fun blk => range_apart r (block_range blk)) (acc ++ [(i, j, k)])
            /\ range_inside r (0, Difflib.la a, 0, Difflib.lb b)) as Hsub.
  { intros r Hr HrB. split; [|split].
    - eapply Forall_impl; [exact Hq1|]. intros x. by apply range_apart_inside.
    - apply Forall_app. split; [|constructor; [exact HrB|constructor]].
      eapply Forall_impl; [exact Hqacc|]. cbn beta. intros x. by apply range_apart_inside.
    - by eapply range_inside_trans. }
  destruct (Hsub (alo, i, blo, j)) as (Hr1q & Hr1a & Hr1in);
    [unfold range_inside; lia|unfold range_apart, range_before; lia|].
  destruct (Hsub (i + k, ahi, j + k, bhi)) as (Hr2q & Hr2a & Hr2in);
    [unfold range_inside; lia|unfold range_apart, range_before; lia|].
  apply IH; [|done].
  destruct (_ && _); destruct (_ && _);
    repeat (apply worklist_push; [| unfold range_ok; lia | done | | done]);
    try done; repeat constructor; try done; unfold range_apart, range_before; lia.
Qed.

(** Sorting the blocks puts them in the order of both sequences. *)
Lemma leb_before (x y : Difflib.block) :
  block_full x -> block_full y -> block_apart x y ->
  if Difflib.block_leb x y then block_before x y else block_before y x.
Proof.
  destruct x as [[i1 j1] k1], y as [[i2 j2] k2].
  unfold block_full, block_apart, block_before, range_apart, range_before, block_range,
    Difflib.block_leb. cbn [snd]. intros Hx Hy Hxy.
  destruct (Z.ltb_spec i1 i2); cbn [orb]; [lia|].
  destruct (Z.eqb_spec i1 i2); cbn [andb]; [|lia].
  destruct (_ || _); lia.
Qed.

Lemma block_before_trans (x y z : Difflib.block) :
  (0 <= y.2) -> block_before x y -> block_before y z -> block_before x z.
Proof.
  destruct x as [[i1 j1] k1], y as [[i2 j2] k2], z as [[i3 j3] k3].
  unfold block_before, range_before, block_range. cbn [snd]. lia.
Qed.

Lemma insert_sorted_Forall (P : Difflib.block -> Prop) (x : Difflib.block)
    (l : list Difflib.block) :
  P x -> Forall P l -> Forall P (Difflib.insert_sorted x l).
Proof.
  intros Hx. induction 1 as [|y l Hy Hl IH]; cbn [Difflib.insert_sorted]; [by repeat constructor|].
  destruct (Difflib.block_leb x y); repeat constructor; done.
Qed.

Lemma insert_sorted_chain (x : Difflib.block) (l : list Difflib.block) :
  block_full x -> Forall block_full l -> Forall (block_apart x) l ->
  StronglySorted block_before l -> StronglySorted block_before (Difflib.insert_sorted x l).
Proof.
  intros Hx Hfull Hapart Hsorted.
  induction Hsorted as [|y l Hs IH Hy]; cbn [Difflib.insert_sorted]; [repeat constructor|].
  apply Forall_cons in Hfull as [Hyf Hfull]. apply Forall_cons in Hapart as [Hxy Hapart].
  pose proof (leb_before x y Hx Hyf Hxy) as Hleb.
  destruct (Difflib.block_leb x y).
  - constructor; [by constructor|]. constructor; [done|].
    eapply Forall_impl; [exact Hy|]. intros z. apply block_before_trans; [|done].
    unfold block_full in Hyf. lia.
  - constructor; [by apply IH|]. by apply insert_sorted_Forall.
Qed.

Lemma sort_blocks_Forall (P : Difflib.block -> Prop) (l : list Difflib.block) :
  Forall P l -> Forall P (Difflib.sort_blocks l).
Proof.
  induction 1 as [|x l Hx Hl IH]; [constructor|]. cbn. by apply insert_sorted_Forall.
Qed.

Lemma sort_blocks_chain (l : list Difflib.block) :
  Forall block_full l -> ForallOrdPairs block_apart l ->
  StronglySorted block_before (Difflib.sort_blocks l).
Proof.
  intros Hfull Hpairs. induction Hpairs as [|x l Hx Hl IH]; [constructor|].
  apply Forall_cons in Hfull as [Hxf Hfull]. cbn [Difflib.sort_blocks foldr].
  apply insert_sorted_chain; [done|by apply sort_blocks_Forall
                             |by apply sort_blocks_Forall|by apply IH].
Qed.

(** Merging adjacent blocks keeps them matching and in order. *)
Lemma collapse_ok (l : list Difflib.block) :
  forall cur : Difflib.block,
    StronglySorted block_before (cur :: l) -> Forall (block_sound a b) (cur :: l) ->
    StronglySorted block_before (Difflib.collapse cur l)
    /\ Forall (block_sound a b) (Difflib.collapse cur l)
    /\ (forall c, block_before c cur -> Forall (block_before c) (Difflib.collapse cur l))
    /\ (forall s, Forall (fun x => block_before x s) (cur :: l) ->
                  Forall (fun x => block_before x s) (Difflib.collapse cur l)).
Proof.
  induction l as [|[[i2 j2] k2] l IH]; intros [[i1 j1] k1] Hsorted Hsound;
    cbn [Difflib.collapse].
  - destruct (k1 =? 0).
    + split; [constructor|]. split; [constructor|].
      split; intros; constructor.
    + split; [repeat constructor|]. split; [done|].
      split; [intros c Hc; constructor; [done|constructor]|by intros s Hs].
  - apply StronglySorted_inv in Hsorted as [Hsorted Hcur].
    apply Forall_cons in Hsound as [[Hk1 Hs1] Hsound].
    pose proof Hsound as [[Hk2 Hs2] Hsound']%Forall_cons.
    pose proof Hsorted as [Hsorted' Hnext]%StronglySorted_inv.
    apply Forall_cons in Hcur as [Hcn Hcur].
    destruct (Z.eqb_spec (i1 + k1) i2) as [Hi|Hi], (Z.eqb_spec (j1 + k1) j2) as [Hj|Hj];
      cbn [andb].
    1:{ destruct (IH (i1, j1, k1 + k2)) as (G1 & G2 & G3 & G4).
        - constructor; [done|]. eapply Forall_impl; [exact Hnext|].
          intros [[i3 j3] k3]. unfold block_before, range_before, block_range. lia.
        - constructor; [|done]. split; [lia|]. apply agree_app; [done|done|].
          by rewrite Hi, Hj.
        - split; [done|]. split; [done|]. split.
          + intros c Hc. apply G3. revert Hc.
            destruct c as [[? ?] ?]. unfold block_before, range_before, block_range. lia.
          + intros s [Hs [Hn Hl]%Forall_cons]%Forall_cons. apply G4. constructor; [|done].
            revert Hn. destruct s as [[? ?] ?].
            unfold block_before, range_before, block_range. lia. }
    all: destruct (IH (i2, j2, k2) Hsorted Hsound) as (G1 & G2 & G3 & G4);
      (split; [|split; [|split]]);
      [ destruct (k1 =? 0); cbn [app]; [done|]; constructor; [done|by apply G3]
      | destruct (k1 =? 0); cbn [app]; [done|]; by constructor
      | intros c Hc; destruct (k1 =? 0); cbn [app];
        [|constructor; [done|]];
        (apply G3; revert Hc Hcn; destruct c as [[? ?] ?];
         unfold block_before, range_before, block_range; lia)
      | intros s [Hs Hrest]%Forall_cons; destruct (k1 =? 0); cbn [app];
        [|constructor; [done|]]; by apply G4 ].
Qed.

(** The matching blocks: matches, in the order of both sequences, closed by
    the block of length zero at the ends. *)
Lemma get_matching_blocks_ok :
  StronglySorted block_before (Difflib.get_matching_blocks a b)
  /\ Forall (block_sound a b) (Difflib.get_matching_blocks a b)
  /\ Forall (block_before (0, 0, 0)) (Difflib.get_matching_blocks a b)
  /\ exists front,
       Difflib.get_matching_blocks a b = front ++ [(Difflib.la a, Difflib.lb b, 0)].
Proof.
  unfold Difflib.get_matching_blocks.
  set (found := Difflib.gmb_loop a b _ _ _).
  destruct (gmb_loop_ok (2 * length a + 1) [(0, Difflib.la a, 0, Difflib.lb b)] [])
    as [Hall Hpairs].
  { unfold Difflib.la, Difflib.lb. split; [|split; [|split; [|split]]].
    - repeat constructor; unfold range_inside; lia.
    - constructor.
    - repeat constructor.
    - constructor.
    - repeat constructor. }
  { constructor. }
  fold found in Hall, Hpairs.
  assert (Forall (block_sound a b) found) as Hsound
    by (eapply Forall_impl; [exact Hall|]; by intros ? [? _]).
  assert (Forall block_full found) as Hfull
    by (eapply Forall_impl; [exact Hall|]; by intros ? (_ & ? & _)).
  assert (Forall (fun blk => block_before (0, 0, 0) blk
                             /\ block_before blk (Difflib.la a, Difflib.lb b, 0)) found)
    as Hinside.
  { eapply Forall_impl; [exact Hall|]. intros [[i j] k] (_ & _ & Hin).
    revert Hin. unfold range_inside, block_before, range_before, block_range. lia. }
  destruct (collapse_ok (Difflib.sort_blocks found) (0, 0, 0)) as (G1 & G2 & G3 & G4).
  { constructor; [by apply sort_blocks_chain|].
    apply sort_blocks_Forall. eapply Forall_impl; [exact Hinside|]. by intros ? [? _]. }
  { constructor; [split; [done|apply agree_zero]|by apply sort_blocks_Forall]. }
  assert (Forall (fun x => block_before x (Difflib.la a, Difflib.lb b, 0))
                 (Difflib.collapse (0, 0, 0) (Difflib.sort_blocks found))) as Hend.
  { apply G4. constructor.
    - unfold block_before, range_before, block_range, Difflib.la, Difflib.lb. lia.
    - apply sort_blocks_Forall. eapply Forall_impl; [exact Hinside|]. by intros ? [_ ?]. }
  split; [|split; [|split]].
  - apply StronglySorted_app_2; [|done|repeat constructor].
    intros x y Hx ->%list_elem_of_singleton. by apply (proj1 (Forall_forall _ _) Hend).
  - apply Forall_app. split; [done|]. constructor; [|done]. split; [done|apply agree_zero].
  - apply Forall_app. split.
    + apply G3. unfold block_before, range_before, block_range. lia.
    + constructor; [|done].
      unfold block_before, range_before, block_range, Difflib.la, Difflib.lb. lia.
  - by eexists.
Qed.

Lemma cursor_after_snoc (front : list Difflib.block) (i j x y z : Z) :
  cursor_after i j (front ++ [(x, y, z)]) = (x + z, y + z).
Proof.
  revert i j. induction front as [|[[ai bj] size] front IH]; intros i j; [done|].
  cbn [app cursor_after]. apply IH.
Qed.

(** Opcodes that only copy walk down the diagonal. *)
Lemma opcodes_tile (blocks : list Difflib.block) :
  forall i j : Z,
    StronglySorted block_before blocks -> Forall (block_sound a b) blocks ->
    Forall (block_before (0, 0, i)) blocks -> Forall (block_before (0, 0, j)) blocks ->
    i = j -> 0 <= i -> agree a b 0 0 i ->
    Forall is_equal (Difflib.opcodes_from i j blocks) ->
    (cursor_after i j blocks).1 = (cursor_after i j blocks).2
    /\ agree a b 0 0 (cursor_after i j blocks).1.
Proof.
  induction blocks as [|[[ai bj] size] blocks IH]; intros i j Hsorted Hsound Hi Hj Hij H0
    Hagree Hops; cbn [cursor_after Difflib.opcodes_from] in *; [by subst|].
  apply StronglySorted_inv in Hsorted as [Hsorted Hnext].
  apply Forall_cons in Hsound as [[Hsize Hblock] Hsound].
  apply Forall_cons in Hi as [Hi _]. apply Forall_cons in Hj as [Hj _].
  unfold block_before, range_before, block_range in Hi, Hj.
  apply Forall_app in Hops as [Hchange [_ Hops]%Forall_app].
  assert (ai = i /\ bj = j) as [-> ->].
  { destruct (Z.ltb_spec i ai), (Z.ltb_spec j bj); cbn [andb] in Hchange;
      try (apply Forall_cons in Hchange as [Hc _]; by cbv in Hc). lia. }
  subst j.
  assert (Forall (block_before (0, 0, i + size)) blocks) as Hcursor.
  { eapply Forall_impl; [exact Hnext|]. intros [[? ?] ?].
    unfold block_before, range_before, block_range. lia. }
  apply IH; [done|done|done|done|done|lia| |done].
  rewrite <- (Z.add_0_l (i + size)) at 1. rewrite <- (Z.add_0_l (i + size)).
  rewrite Z.add_0_l at 1. rewrite Z.add_0_l at 1.
  apply agree_app; [done|done|]. by rewrite !Z.add_0_l.
Qed.

Lemma agree_all : Difflib.la a = Difflib.lb b -> agree a b 0 0 (Difflib.la a) -> a = b.
Proof.
  unfold Difflib.la, Difflib.lb. intros Hlen Hagree. apply list_eq. intros n.
  destruct (decide (n < length a)%nat) as [Hn|Hn].
  - destruct (Hagree (Z.of_nat n) ltac:(lia)) as (x & Hx & Hy).
    unfold Difflib.at_index in Hx, Hy. rewrite Z.add_0_l in Hx, Hy.
    replace (Z.of_nat n <? 0) with false in * by (symmetry; apply Z.ltb_ge; lia).
    rewrite Nat2Z.id in Hx, Hy. by rewrite Hx, Hy.
  - rewrite !lookup_ge_None_2; [done|lia|lia].
Qed.

(** Sequences whose opcodes only copy are equal. *)
Lemma opcodes_equal : Forall is_equal (Difflib.get_opcodes a b) -> a = b.
Proof.
  intros Hops. destruct get_matching_blocks_ok as (Hsorted & Hsound & Hstart & front & Hfront).
  unfold Difflib.get_opcodes in Hops.
  destruct (opcodes_tile (Difflib.get_matching_blocks a b) 0 0) as [Hdiag Hagree];
    try done; [apply agree_zero|].
  rewrite Hfront, cursor_after_snoc in Hdiag, Hagree. cbn [fst snd] in Hdiag, Hagree.
  rewrite !Z.add_0_r in *. by apply agree_all.
Qed.

(** Opcodes that make no group only copy. *)
Lemma group_loop_nil (n : Z) (codes : list Difflib.opcode) :
  forall group, Difflib.group_loop n codes group = [] -> Forall is_equal (group ++ codes).
Proof.
  induction codes as [|[[[[tg i1] i2] j1] j2] codes IH]; intros group; cbn [Difflib.group_loop].
  - rewrite app_nil_r. destruct group as [|[[[[tg i1] i2] j1] j2] rest];
      [intros _; apply Forall_nil_2|].
    destruct tg, rest; try done. intros _. apply Forall_cons_2; [reflexivity|apply Forall_nil_2].
  - destruct (_ && _); [done|]. intros Hnil%IH. by rewrite <- app_assoc in Hnil.
Qed.

Lemma trim_first_equal (n : Z) (codes : list Difflib.opcode) :
  Forall is_equal (Difflib.trim_first n codes) -> Forall is_equal codes.
Proof.
  destruct codes as [|[[[[tg i1] i2] j1] j2] codes]; [done|]. cbn [Difflib.trim_first].
  destruct tg; try done. intros [_ Hrest]%Forall_cons. by constructor.
Qed.

Lemma trim_last_equal (n : Z) (codes : list Difflib.opcode) :
  Forall is_equal (Difflib.trim_last n codes) -> Forall is_equal codes.
Proof.
  unfold Difflib.trim_last.
  destruct (reverse codes) as [|[[[[tg i1] i2] j1] j2] rest] eqn:Hrev; [done|].
  destruct tg; try done.
  intros [_ Hrest]%Forall_reverse%Forall_cons.
  rewrite <- (reverse_involutive codes), Hrev. apply Forall_reverse. by constructor.
Qed.

Lemma get_grouped_opcodes_nil (n : Z) :
  Difflib.get_grouped_opcodes a b n = [] -> Forall is_equal (Difflib.get_opcodes a b).
Proof.
  unfold Difflib.get_grouped_opcodes.
  intros Hcodes%group_loop_nil%trim_last_equal%trim_first_equal.
  by destruct (Difflib.get_opcodes a b).
Qed.

End Sound.

Section EmptyDiff.
Context `{UnicodeDB}.

Lemma unified_diff_nil (a b : list str) (fromfile tofile : str) :
  PyStr.join nl (Difflib.unified_diff a b fromfile tofile) = [] ->
  Difflib.get_grouped_opcodes a b 3 = [].
Proof.
  unfold Difflib.unified_diff. destruct (Difflib.get_grouped_opcodes a b 3) as [|g gs]; [done|].
  change (lit "--- ") with [45; 45; 45; 32]. cbn [PyStr.join app]. done.
Qed.

(** X4: The diff of two texts is empty exactly when they have the same lines. *)
Theorem generate_diff_empty (old_content new_content : str) :
  generate_diff old_content new_content = []
  <-> PyStr.splitlines old_content = PyStr.splitlines new_content.
Proof.
  unfold generate_diff. split.
  - intros Hnil%unified_diff_nil%get_grouped_opcodes_nil. by apply opcodes_equal.
  - intros ->. by rewrite unified_diff_self.
Qed.

End EmptyDiff.

(** * Texts with nothing in common *)

Section Disjoint.
#[local] Open Scope Z_scope.

(** No match at all gives the ratio zero. *)
Lemma calculate_ratio_zero (length : Z) :
  0 < length < 2 ^ 63 -> Difflib.calculate_ratio 0 length = 0%float.
Proof.
  intros Hn. unfold Difflib.calculate_ratio.
  replace (length =? 0) with false by (symmetry; apply Z.eqb_neq; lia).
  destruct length as [|p|p]; [lia| |lia].
  destruct (normalize_double p) as (m & e & Hd & He & Hx & _).
  { destruct (Z_le_gt_dec (Zpos (digits2_pos p)) 899) as [|Hgt]; [done|].
    pose proof (digits2_pos_lower p) as Hlow.
    assert (2 ^ 63 <= 2 ^ (Zpos (digits2_pos p) - 1)) by (apply Z.pow_le_mono_r; lia).
    lia. }
  apply Prim2SF_inj. rewrite div_spec, mul_spec.
  rewrite (float_of_Z_spec _ m e Hx Hd) by lia.
  reflexivity.
Qed.

Lemma no_blocks {E : Type} `{Countable E} (a b : list E) :
  (forall x, x ∈ a -> x ∉ b) ->
  Difflib.get_matching_blocks a b = [(Difflib.la a, Difflib.lb b, 0)].
Proof.
  intros Hdisjoint. unfold Difflib.get_matching_blocks.
  destruct (gmb_loop_ok a b (2 * length a + 1) [(0, Difflib.la a, 0, Difflib.lb b)] [])
    as [Hall _].
  { unfold Difflib.la, Difflib.lb. split; [|split; [|split; [|split]]].
    - repeat constructor; unfold range_inside; lia.
    - constructor.
    - repeat constructor.
    - constructor.
    - repeat constructor. }
  { constructor. }
  destruct (Difflib.gmb_loop a b _ _ _) as [|[[i j] k] found]; [done|].
  apply Forall_cons in Hall as [([_ Hagree] & Hfull & _) _].
  unfold block_full in Hfull. cbn [snd] in Hfull.
  destruct (Hagree 0 ltac:(lia)) as (x & Hx & Hy). exfalso. apply (Hdisjoint x).
  - unfold Difflib.at_index in Hx. destruct (_ <? 0); [done|]. by eapply list_elem_of_lookup_2.
  - unfold Difflib.at_index in Hy. destruct (_ <? 0); [done|]. by eapply list_elem_of_lookup_2.
Qed.

(** X7: Two texts that are not empty and share no character differ
    significantly, at the default threshold. *)
Theorem is_significant_change_disjoint (old_content new_content : str) :
  old_content <> [] -> new_content <> [] ->
  (forall c, c ∈ old_content -> c ∉ new_content) ->
  Z.of_nat (length old_content) + Z.of_nat (length new_content) < 2 ^ 63 ->
  is_significant_change old_content new_content default_threshold = true.
Proof.
  intros Hold Hnew Hdisjoint Hlen. unfold is_significant_change.
  destruct old_content as [|c old]; [done|]. destruct new_content as [|d new]; [done|].
  unfold Difflib.ratio. rewrite no_blocks by done. cbn [foldr].
  rewrite Z.add_0_r, calculate_ratio_zero; [by vm_compute|].
  unfold Difflib.la, Difflib.lb. cbn [length] in *. lia.
Qed.

End Disjoint.

(** * Snapshots that are compared *)

Section Created.
Context `{UnicodeDB} `{Zlib} `{OsPath}.
#[local] Open Scope Z_scope.

(** A text has no more lines than characters, and no line longer than
    itself. *)
Lemma splitlines_from_bounds (n : nat) (s cur : str) (started : bool) :
  (length s <= n)%nat ->
  (length (PyStr.splitlines_from cur started s)
   <= length s + (if started then 1 else 0))%nat
  /\ Forall (fun line => (length line <= length cur + length s)%nat)
            (PyStr.splitlines_from cur started s).
Proof.
  revert s cur started. induction n as [|n IH]; intros s cur started Hn.
  { destruct s; [|cbn in Hn; lia]. cbn. destruct started; split; try constructor;
      try (cbn; lia); [rewrite length_rev; lia|constructor]. }
  destruct s as [|c s]; cbn [PyStr.splitlines_from length] in *.
  { destruct started; split; try constructor; try (cbn; lia);
      [rewrite length_rev; lia|constructor]. }
  destruct (PyStr.is_linebreak c).
  - destruct s as [|d s]; cbn [length] in *.
    { split; [destruct started; cbn; lia|]. constructor; [rewrite length_rev; lia|constructor]. }
    destruct ((c =? 13)%N && (d =? 10)%N).
    + destruct (IH s [] false ltac:(lia)) as [Hc Hl]. cbn [length] in *. split.
      * destruct started; lia.
      * constructor; [rewrite length_rev; lia|].
        eapply Forall_impl; [exact Hl|]. cbn beta. intros; lia.
    + destruct (IH (d :: s) [] false ltac:(cbn [length]; lia)) as [Hc Hl].
      cbn [length] in *. split.
      * destruct started; lia.
      * constructor; [rewrite length_rev; lia|].
        eapply Forall_impl; [exact Hl|]. cbn beta. intros; lia.
  - destruct (IH s (c :: cur) true ltac:(lia)) as [Hc Hl]. cbn [length] in *. split.
    + destruct started; lia.
    + eapply Forall_impl; [exact Hl|]. cbn beta. intros; lia.
Qed.

Lemma splitlines_bounds (s : str) :
  (length (PyStr.splitlines s) <= length s)%nat
  /\ Forall (fun line => (length line <= length s)%nat) (PyStr.splitlines s).
Proof.
  destruct (splitlines_from_bounds (length s) s [] false ltac:(lia)) as [Hc Hl].
  split; [unfold PyStr.splitlines; lia|exact Hl].
Qed.

Lemma max_below (bound : Z) (l : list Z) :
  0 <= bound -> Forall (fun z => z <= bound) l -> foldr Z.max 0 l <= bound.
Proof. intros Hb. induction 1; cbn [foldr]; lia. Qed.

Lemma list_to_map_Forall (P : number -> Prop) (l : list (string * number)) :
  Forall (fun kv => P kv.2) l ->
  map_Forall (fun _ v => P v) (list_to_map l : gmap string number).
Proof.
  intros Hl key v Hv. apply elem_of_list_to_map_2 in Hv.
  exact (proj1 (Forall_forall _ _) Hl _ Hv).
Qed.

(** The metrics of a text are counters and floats. *)
Lemma count_code_metrics_small (content : str) :
  Z.of_nat (length content) < 2 ^ 63 -> counters (count_code_metrics content).
Proof.
  intros Hlen. unfold count_code_metrics, counters, metrics_dict.
  destruct content as [|c content].
  { apply list_to_map_Forall. repeat (constructor; [cbn; lia|]). constructor. }
  set (lines := PyStr.splitlines (c :: content)).
  set (st := foldl scan_line scan_init lines).
  destruct (splitlines_bounds (c :: content)) as [Hcount Hlines]. fold lines in Hcount, Hlines.
  destruct (scan_lines_counters lines scan_init 0) as [Hc Hl].
  { unfold counters_within, scan_init. cbn. lia. }
  fold st in Hc, Hl. destruct Hc as (Hb & Hcm & Hd & Hf & Hcl & Hi & Ht & Hsum).
  assert (0 <= foldr Z.max 0 (line_lengths st) <= Z.of_nat (length (c :: content))) as Hmax.
  { split; [apply max_bounds|]. apply max_below; [lia|].
    rewrite Hl. cbn [scan_init line_lengths app]. apply Forall_fmap.
    eapply Forall_impl; [exact Hlines|]. cbn. intros; lia. }
  cbn zeta. apply list_to_map_Forall.
  repeat (constructor; [cbn [snd small]; try done; lia|]).
  repeat (constructor; [cbn [snd small PyNum.round2]; repeat case_match; done || (cbn; lia)|]).
  constructor.
Qed.

Lemma created_metrics (w : world) (file_path : str) (content : option str)
    (snap : snapshot) :
  create_snapshot w file_path content = Some snap ->
  snap_metrics snap = count_code_metrics (snap_content snap).
Proof.
  rewrite create_snapshot_text. destruct (snapshot_text w file_path content) as [c|]; [|done].
  intros Hsnap. rewrite (create_snapshot_metrics w file_path c snap Hsnap). f_equal.
  revert Hsnap. unfold create_snapshot.
  destruct (compute_file_hash c); [|done].
  destruct (path_exists w file_path); cbn zeta;
    (destruct c as [|c0 c]; [|destruct (compress_content (c0 :: c)); [|done]]);
    by intros [= <-].
Qed.

(** X26: [compare_snapshots] never gives up on two snapshots that
    [create_snapshot] made: it returns a report, for the path of the new
    snapshot, with the size change. *)
Theorem compare_snapshots_created (w w' : world) (old_path new_path : str)
    (old_content new_content : option str) (old new : snapshot) :
  create_snapshot w old_path old_content = Some old ->
  create_snapshot w' new_path new_content = Some new ->
  Z.of_nat (length (snap_content old)) < 2 ^ 63 ->
  Z.of_nat (length (snap_content new)) < 2 ^ 63 ->
  exists r, compare_snapshots (Some old) (Some new) = Some r
            /\ rep_file_path r = new_path
            /\ rep_size_change r
               = Z.of_nat (length (snap_content new)) - Z.of_nat (length (snap_content old)).
Proof.
  intros Hold Hnew Hlo Hln. unfold compare_snapshots.
  destruct (metrics_delta_returns (snap_metrics old) (snap_metrics new)) as (ch & -> & _).
  { rewrite (created_metrics _ _ _ _ Hold). by apply count_code_metrics_small. }
  { rewrite (created_metrics _ _ _ _ Hnew). by apply count_code_metrics_small. }
  eexists. split; [reflexivity|]. cbn [rep_file_path rep_size_change].
  assert (forall w p c s, create_snapshot w p c = Some s ->
            snap_file_path s = p /\ snap_size s = Z.of_nat (length (snap_content s))) as Hs.
  { intros w0 p c s. rewrite create_snapshot_text.
    destruct (snapshot_text w0 p c) as [c0|]; [|done]. unfold create_snapshot.
    destruct (compute_file_hash c0); [|done].
    destruct (path_exists w0 p); cbn zeta;
      (destruct c0 as [|c1 c0]; [|destruct (compress_content (c1 :: c0)); [|done]]);
      by intros [= <-]. }
  destruct (Hs _ _ _ _ Hold) as [_ ->]. destruct (Hs _ _ _ _ Hnew) as [-> ->]. done.
Qed.

End Created.

(** * The properties at concrete inputs *)

(** The order by first occurrence is one of the orders a set may have. *)
Lemma first_seen_spec (seen l : list str) :
  NoDup (first_seen seen l)
  /\ forall x, x ∈ first_seen seen l <-> x ∈ l /\ x ∉ seen.
Proof.
  revert seen. induction l as [|y l IH]; intros seen; cbn [first_seen].
  - split; [constructor|]. intros x. split; [by intros ?%elem_of_nil|by intros [?%elem_of_nil _]].
  - destruct (bool_decide_reflect (y ∈ seen)) as [Hy|Hy].
    + destruct (IH seen) as [Hnd Hin]. split; [done|]. intros x. rewrite Hin, elem_of_cons.
      split; [tauto|]. intros [[->|Hx] Hs]; [done|tauto].
    + destruct (IH (y :: seen)) as [Hnd Hin]. split.
      * constructor; [|done]. rewrite Hin, elem_of_cons. tauto.
      * intros x. rewrite !elem_of_cons, Hin, elem_of_cons.
        destruct (decide (x = y)) as [->|Hxy]; tauto.
Qed.

Lemma insertion_order_lawful : @set_order_lawful insertion_order.
Proof.
  intros l. destruct (first_seen_spec [] l) as [Hnd Hin]. split; [exact Hnd|].
  intros x. cbn [list_of_set insertion_order]. rewrite Hin. split; [tauto|].
  intros Hx. split; [done|]. by intros ?%elem_of_nil.
Qed.

(** Deciding the side conditions on a given text. *)
Lemma plain_lines_decide (s : str) :
  forallb (fun c => implb (PyStr.is_linebreak c) (c =? 10)) s
  && negb (bool_decide (last s = Some 10)) = true ->
  plain_lines s.
Proof.
  rewrite andb_true_iff, forallb_forall, negb_true_iff, bool_decide_eq_false.
  intros [Hall Hlast]. split; [|done]. apply Forall_forall. intros c Hc Hb.
  specialize (Hall c (proj1 (list_elem_of_In _ _) Hc)). rewrite Hb in Hall.
  by apply N.eqb_eq.
Qed.

Lemma header_start_decide `{UnicodeDB} (lines : list str) :
  forallb (fun line =>
             match Re.rematch Re.hunk_header line with
             | None => true
             | Some groups =>
                 match PyStr.int (nth 2 groups []) with
                 | Ok n => ((1 <=? n) && (n <=? 2 ^ 62))%Z
                 | Raise _ => false
                 end
             end) lines = true ->
  Forall header_start_ok lines.
Proof.
  rewrite forallb_forall. intros Hall. apply Forall_forall. intros line Hline groups Hg.
  specialize (Hall line (proj1 (list_elem_of_In _ _) Hline)). rewrite Hg in Hall.
  destruct (PyStr.int _) as [n|e]; [|done].
  exists n. split; [done|]. apply andb_true_iff in Hall as [?%Z.leb_le ?%Z.leb_le]. lia.
Qed.

Lemma Forall_true_decide {A : Type} (f : A -> bool) (l : list A) :
  forallb f l = true -> Forall (fun x => f x = true) l.
Proof.
  rewrite forallb_forall. intros Hall. apply Forall_forall. intros x Hx.
  apply Hall. by apply list_elem_of_In.
Qed.

Lemma Forall_le_decide {A : Type} (f : A -> Z) (bound : Z) (l : list A) :
  forallb (fun x => (f x <=? bound)%Z) l = true -> Forall (fun x => (f x <= bound)%Z) l.
Proof.
  rewrite forallb_forall. intros Hall. apply Forall_forall. intros x Hx.
  apply Z.leb_le, Hall. by apply list_elem_of_In.
Qed.

Lemma no_nan_decide (m : gmap string number) :
  forallb (fun kv => PyNum.eqb kv.2 kv.2) (map_to_list m) = true -> no_nan m.
Proof.
  rewrite forallb_forall. intros Hall key v Hv.
  apply elem_of_map_to_list, list_elem_of_In in Hv. exact (Hall _ Hv).
Qed.

Lemma disjoint_decide (a b : str) :
  forallb (fun c => negb (bool_decide (c ∈ b))) a = true -> forall c, c ∈ a -> c ∉ b.
Proof.
  rewrite forallb_forall. intros Hall c Hc.
  specialize (Hall c (proj1 (list_elem_of_In _ _) Hc)).
  by apply negb_true_iff, bool_decide_eq_false in Hall.
Qed.

Lemma truncate_text_cut_witness :
  exists kept, truncate_text (lit "a long sentence") 10 (lit "...") = kept ++ lit "..."
               /\ kept `prefix_of` lit "a long sentence"
               /\ (Z.of_nat (length kept) + Z.of_nat (length (lit "...")) = 10)%Z.
Proof.
  apply (truncate_text_cut (lit "a long sentence") (lit "...") 10).
  - vm_compute. reflexivity.
  - vm_compute. discriminate.
Defined.

Lemma sanitize_filename_length_witness :
  (length (@sanitize_filename posix (lit "re:port?.txt")) <= 255)%nat.
Proof.
  apply (@sanitize_filename_length posix (lit "re:port?.txt")).
  right. vm_compute. discriminate.
Defined.

Lemma sanitize_filename_idempotent_witness :
  @sanitize_filename posix (@sanitize_filename posix (lit " a<b>.tar.gz "))
  = @sanitize_filename posix (lit " a<b>.tar.gz ").
Proof.
  apply (@sanitize_filename_idempotent posix (lit " a<b>.tar.gz ")).
  right. vm_compute. discriminate.
Defined.

Lemma apply_diff_self_witness :
  @apply_diff ascii_db (lit "a" ++ nl ++ lit "b")
    (generate_diff (lit "a" ++ nl ++ lit "b") (lit "a" ++ nl ++ lit "b"))
  = Ok (lit "a" ++ nl ++ lit "b").
Proof.
  apply (@apply_diff_self ascii_db (lit "a" ++ nl ++ lit "b")).
  apply plain_lines_decide. vm_compute. reflexivity.
Defined.

Lemma compare_snapshots_self_witness :
  let snap := Snapshot (lit "src/a.py") (lit "a.py") (lit "2025-04-20T22:00:00") None
                (lit "0cc175b9c0f1b6a831c399e269772661") (lit "python") 5
                (@count_code_metrics ascii_db (lit "x = 1")) (lit "x = 1") None in
  exists r, compare_snapshots (Some snap) (Some snap) = Some r
            /\ rep_diff r = []
            /\ rep_metrics_changes r = ∅
            /\ rep_size_change r = 0%Z
            /\ rep_is_significant r = bool_decide (snap_content snap = []).
Proof.
  apply compare_snapshots_self.
  - vm_compute. reflexivity.
  - apply no_nan_decide. vm_compute. reflexivity.
Defined.

Lemma identify_code_language_basename_witness :
  @identify_code_language ascii_db posix (lit "src/app/Main.JAVA") (Some (lit "class Main {}"))
  = @identify_code_language ascii_db posix (@basename posix (lit "src/app/Main.JAVA")) None.
Proof.
  apply (@identify_code_language_basename ascii_db posix).
  reflexivity.
Defined.

Lemma extract_task_references_spec_witness :
  NoDup (@extract_task_references ascii_db insertion_order
           (lit "TASK-123 blocks TASK-007; see TASK-123"))
  /\ forall x, x ∈ @extract_task_references ascii_db insertion_order
                     (lit "TASK-123 blocks TASK-007; see TASK-123")
       <-> @is_task_reference ascii_db x
           /\ exists before after,
                lit "TASK-123 blocks TASK-007; see TASK-123" = before ++ x ++ after.
Proof.
  apply (@extract_task_references_spec ascii_db insertion_order
           (lit "TASK-123 blocks TASK-007; see TASK-123")).
  exact insertion_order_lawful.
Defined.

Lemma generate_task_id_extracted_witness :
  generate_task_id 1745186400123 (lit "TASK")
  ∈ @extract_task_references ascii_db insertion_order
      (lit "done in " ++ generate_task_id 1745186400123 (lit "TASK") ++ lit ", next").
Proof.
  apply (@generate_task_id_extracted ascii_db insertion_order 1745186400123
           (lit "done in ") (lit ", next")).
  exact insertion_order_lawful.
Defined.

Lemma guess_related_tasks_spec_witness :
  let content := lit "rework the login page, after TASK-001" in
  let task_list := [Task (lit "TASK-001") (lit "Setup");
                    Task (lit "TASK-002") (lit "Login page redesign")] in
  NoDup (@guess_related_tasks ascii_db insertion_order content task_list)
  /\ @extract_task_references ascii_db insertion_order content
     `prefix_of` @guess_related_tasks ascii_db insertion_order content task_list
  /\ forall x, x ∈ @guess_related_tasks ascii_db insertion_order content task_list
       <-> x ∈ @extract_task_references ascii_db insertion_order content
           \/ exists t, t ∈ task_list /\ task_id t = x
                        /\ @title_matches ascii_db content t = true.
Proof.
  apply (@guess_related_tasks_spec ascii_db insertion_order).
  exact insertion_order_lawful.
Defined.

Lemma calculate_code_complexity_nesting_witness :
  exists m depth,
    @calculate_code_complexity ascii_db
      (lit "if x:" ++ nl ++ lit "    for y in x:" ++ nl ++ lit "        z = y") = Ok m
    /\ m !! "nesting_depth"%string = Some (Int depth)
    /\ (0 <= depth <= 8)%Z.
Proof.
  apply (@calculate_code_complexity_nesting ascii_db
           (lit "if x:" ++ nl ++ lit "    for y in x:" ++ nl ++ lit "        z = y") 8).
  - apply Forall_le_decide. vm_compute. reflexivity.
  - lia.
Defined.

Lemma detect_code_smells_comments_witness :
  @detect_code_smells ascii_db (lit "# a module" ++ nl ++ nl ++ lit "   # with notes only") = [].
Proof.
  apply (@detect_code_smells_comments ascii_db).
  apply Forall_true_decide. vm_compute. reflexivity.
Defined.

Lemma count_code_metrics_comments_witness :
  let content := lit "# a module" ++ nl ++ nl ++ lit "   # with notes only" in
  @count_code_metrics ascii_db content !! "code_lines"%string = Some (Int 0)
  /\ @count_code_metrics ascii_db content !! "docstring_lines"%string = Some (Int 0)
  /\ @count_code_metrics ascii_db content !! "function_count"%string = Some (Int 0)
  /\ @count_code_metrics ascii_db content !! "class_count"%string = Some (Int 0)
  /\ @count_code_metrics ascii_db content !! "import_count"%string = Some (Int 0).
Proof.
  apply (@count_code_metrics_comments ascii_db).
  apply Forall_true_decide. vm_compute. reflexivity.
Defined.

Lemma apply_diff_returns_witness :
  exists text,
    @apply_diff ascii_db (lit "a" ++ nl ++ lit "b" ++ nl)
      (generate_diff (lit "a" ++ nl ++ lit "b" ++ nl) (lit "a" ++ nl ++ lit "c" ++ nl))
    = Ok text.
Proof.
  apply (@apply_diff_returns ascii_db).
  - vm_compute. reflexivity.
  - apply header_start_decide. vm_compute. reflexivity.
Defined.

Lemma is_significant_change_disjoint_witness :
  is_significant_change (lit "abc") (lit "xyz") default_threshold = true.
Proof.
  apply (is_significant_change_disjoint (lit "abc") (lit "xyz")).
  - discriminate.
  - discriminate.
  - apply disjoint_decide. vm_compute. reflexivity.
  - vm_compute. reflexivity.
Defined.

Lemma compare_snapshots_created_witness :
  exists old new r,
    @create_snapshot ascii_db stored_zlib posix example_world (lit "a.py")
      (Some (lit "x = 1" ++ nl)) = Some old
    /\ @create_snapshot ascii_db stored_zlib posix example_world (lit "b.py")
         (Some (lit "y = 22" ++ nl)) = Some new
    /\ compare_snapshots (Some old) (Some new) = Some r
    /\ rep_file_path r = lit "b.py"
    /\ rep_size_change r
       = (Z.of_nat (length (snap_content new)) - Z.of_nat (length (snap_content old)))%Z.
Proof.
  destruct (@create_snapshot ascii_db stored_zlib posix example_world (lit "a.py")
              (Some (lit "x = 1" ++ nl))) as [old|] eqn:Hold;
    [|vm_compute in Hold; discriminate].
  destruct (@create_snapshot ascii_db stored_zlib posix example_world (lit "b.py")
              (Some (lit "y = 22" ++ nl))) as [new|] eqn:Hnew;
    [|vm_compute in Hnew; discriminate].
  assert (snap_content old = lit "x = 1" ++ nl) as Ho.
  { pose proof Hold as Hc. vm_compute in Hc. injection Hc as <-. vm_compute. reflexivity. }
  assert (snap_content new = lit "y = 22" ++ nl) as Hn.
  { pose proof Hnew as Hc. vm_compute in Hc. injection Hc as <-. vm_compute. reflexivity. }
  destruct (@compare_snapshots_created ascii_db stored_zlib posix example_world example_world
              (lit "a.py") (lit "b.py") (Some (lit "x = 1" ++ nl)) (Some (lit "y = 22" ++ nl))
              old new Hold Hnew) as (r & Hr & Hp & Hs).
  - rewrite Ho. vm_compute. reflexivity.
  - rewrite Hn. vm_compute. reflexivity.
  - exists old, new, r. repeat split; assumption.
Defined.

(** * The other utilities at known values *)

Section MoreKnownValues.
#[local] Existing Instance ascii_db.
#[local] Existing Instance insertion_order.
#[local] Existing Instance posix.

Example slugify_known :
  slugify (lit "Hello, World!") = lit "hello-world"
  /\ slugify (lit "  --Foo__Bar 2--  ") = lit "foo-bar-2"
  /\ slugify (lit "!!!") = lit "".
Proof. repeat split; vm_compute; reflexivity. Qed.

Example validate_email_known :
  validate_email (lit "a@b.c") = true
  /\ validate_email (lit "a@b") = false
  /\ validate_email (lit "@b.c") = false
  /\ validate_email (lit "a@b..") = true
  /\ validate_email (lit "a@b.c@d e") = true.
Proof. repeat split; vm_compute; reflexivity. Qed.

Example task_references_known :
  extract_task_references (lit "TASK-1234 and TASK-12 and task-123 TASK-123") = [lit "TASK-123"]
  /\ generate_task_id 1745186400007 (lit "BUG") = lit "BUG-007"
  /\ guess_related_tasks (lit "rework the login page, after TASK-001")
       [Task (lit "TASK-001") (lit "Setup");
        Task (lit "TASK-002") (lit "Login page redesign");
        Task (lit "TASK-003") (lit "Page");
        Task (lit "TASK-004") (lit "Login form")]
     = [lit "TASK-001"; lit "TASK-002"; lit "TASK-003"].
Proof. repeat split; vm_compute; reflexivity. Qed.

Example truncate_text_known :
  truncate_text (lit "abcdef") 5 (lit "...") = lit "ab..."
  /\ truncate_text (lit "abcdef") 6 (lit "...") = lit "abcdef"
  /\ truncate_text (lit "abcdef") 2 (lit "...") = lit "abcde...".
Proof. repeat split; vm_compute; reflexivity. Qed.

Example sanitize_filename_known :
  sanitize_filename (lit "a/b:c") = lit "a_b_c"
  /\ sanitize_filename (lit "   ") = lit "untitled"
  /\ sanitize_filename (lit " notes.txt ") = lit "notes.txt".
Proof. repeat split; vm_compute; reflexivity. Qed.

Example round2_known :
  PyFloat.round2 0x1.5666666666666p+1 = 0x1.55c28f5c28f5cp+1%float
  /\ PyFloat.round2 0x1p-3 = 0x1.eb851eb851eb8p-4%float
  /\ PyFloat.round2 0x1.5999999999999p+1 = 0x1.599999999999ap+1%float.
Proof. repeat split; vm_compute; reflexivity. Qed.

Example calculate_code_complexity_known :
  calculate_code_complexity
    (lit "if x:" ++ nl ++ lit "    for y in x and z:" ++ nl ++ lit "        pass")
  = Ok (<["cyclomatic_complexity"%string := Int 3]>
         (<["nesting_depth"%string := Int 2]>
           (<["branch_count"%string := Int 2]>
             (<["complexity_score"%string := Float 0x1.599999999999ap+1]> ∅)))).
Proof. vm_compute. reflexivity. Qed.

(** [str.lower()] around a capital sigma: final after a cased letter when
    no cased letter follows, case-ignorable characters apart. *)
Example lower_known :
  @PyStr.lower greek_db (lit "ΟΔΟΣ") = lit "οδος"
  /\ @PyStr.lower greek_db (lit "ΟΔΟΣΑ") = lit "οδοσα"
  /\ @PyStr.lower greek_db (lit "Σ") = lit "σ"
  /\ @PyStr.lower greek_db (lit "ΣΣ") = lit "σς"
  /\ @PyStr.lower greek_db (lit "ΑΣ.Β") = lit "ασ.β"
  /\ @PyStr.lower greek_db (lit "Α.Σ") = lit "α.ς"
  /\ @PyStr.lower greek_db (lit "aΣ b") = lit "aς b"
  /\ @PyStr.lower greek_db (lit "1Σ") = lit "1σ"
  /\ @PyStr.lower greek_db (lit "Hello World") = lit "hello world".
Proof. repeat split; vm_compute; reflexivity. Qed.

(** A title that ends in a sigma is not found in a text where the word goes
    on, and is found where the word ends. *)
Example final_sigma_known :
  @guess_related_tasks greek_db insertion_order (lit "ΟΔΟΣΑ") [Task (lit "T-1") (lit "ΟΔΟΣ")]
  = []
  /\ @guess_related_tasks greek_db insertion_order (lit "Η ΟΔΟΣ")
       [Task (lit "T-1") (lit "ΟΔΟΣ")]
     = [lit "T-1"].
Proof. split; vm_compute; reflexivity. Qed.

(** Under [ntpath] the names are sanitized as under [posixpath]. *)
Example sanitize_filename_ntpath_known (after_drive : str -> str) :
  let windows := {| os_path := ntpath; ntpath_after_drive := after_drive |} in
  @sanitize_filename windows (lit "C:\dir/a.b") = lit "C__dir_a.b"
  /\ @sanitize_filename windows (repeat 97%N 300 ++ lit ".txt")
     = repeat 97%N 251 ++ lit ".txt"
  /\ @sanitize_filename posix (repeat 97%N 300 ++ lit ".txt")
     = repeat 97%N 251 ++ lit ".txt".
Proof. repeat split; vm_compute; reflexivity. Qed.

End MoreKnownValues.

